(** * Orby memory engine: chunking, context store, memory façade

    A shallow embedding of [orby/memory/context_manager.py],
    [orby/memory/memory_db.py] and [orby/memory/__init__.py], with the
    properties of the memory and context-retrieval engine proved over it.

    Python [int] is [Z], [str] is [string], one character of the model for
    one character (code point) of the text, so that [len], slices and the
    [_] of [LIKE] count what the code counts; lists are lists.  A SQLite table is the list of its rows in insertion
    order, together with its AUTOINCREMENT counter. *)

From Stdlib Require Import ZArith QArith Lia Ascii String Sorted Permutation PrimFloat.
From stdpp Require Import gmap strings list.

Local Open Scope Z_scope.

(** ** Python sequence primitives *)

Module Py.
Section Seq.
Context {A : Type}.

(** [len(l)] *)
Definition len (l : list A) : Z := Z.of_nat (length l).

(** Index adjustment of a slice bound for step 1 (CPython's
    [PySlice_AdjustIndices]): a negative bound counts from the end, and
    the outcome is clamped to [0 .. len]. *)
Definition adjust (n i : Z) : Z :=
  if i <? 0 then Z.max (i + n) 0 else Z.min i n.

(** [l[start:stop]] *)
Definition slice (l : list A) (start stop : Z) : list A :=
  let n := len l in
  let lo := adjust n start in
  let hi := adjust n stop in
  take (Z.to_nat (hi - lo)) (drop (Z.to_nat lo) l).

(** [l[:stop]] *)
Definition prefix (l : list A) (stop : Z) : list A := slice l 0 stop.

End Seq.
End Py.

(** ** [ContextManager.chunk_text] *)

(** Outcome of one pass through a loop body. *)
Inductive loop_ctl (S R : Type) : Type :=
| Continue (s : S)
| Exit (r : R).
Arguments Continue {S R} s.
Arguments Exit {S R} r.

Section ChunkText.
Context {A : Type}.
Implicit Types (text chunk : list A) (chunks : list (list A)).

(** One evaluation of the [while start < len(text)] test followed, when
    it holds, by the loop body.  The loop state is [(start, chunks)]. *)
Definition chunk_step text (chunk_size overlap : Z)
    (st : Z * list (list A)) : loop_ctl (Z * list (list A)) (list (list A)) :=
  let '(start, chunks) := st in
  if start <? Py.len text then
    let end_ := start + chunk_size in
    let chunk := Py.slice text start end_ in
    let chunks := chunks ++ [chunk] in
    if Py.len text <=? end_ then Exit chunks
    else Continue (end_ - overlap, chunks)
  else Exit chunks.

(** The [while] loop; [None] when [fuel] passes do not reach an exit. *)
Fixpoint chunk_loop (fuel : nat) text (chunk_size overlap : Z)
    (st : Z * list (list A)) : option (list (list A)) :=
  match fuel with
  | O => None
  | S fuel' =>
      match chunk_step text chunk_size overlap st with
      | Exit r => Some r
      | Continue st' => chunk_loop fuel' text chunk_size overlap st'
      end
  end.

Definition chunk_text (fuel : nat) text (chunk_size overlap : Z)
    : option (list (list A)) :=
  if Py.len text <=? chunk_size then Some [text]
  else chunk_loop fuel text chunk_size overlap (0, []).

(** The text rebuilt from its chunks: the first chunk whole, every later
    chunk without its first [overlap] characters. *)
Definition reconstruct (overlap : Z) chunks : list A :=
  match chunks with
  | [] => []
  | c :: rest => c ++ concat (map (drop (Z.to_nat overlap)) rest)
  end.

(** What the loop knows about the chunks collected so far when it is at
    window start [start]: they rebuild the text up to [start + overlap]. *)
Definition chunks_cover text (ov start : Z) chunks : Prop :=
  (chunks = [] /\ start = 0) \/
  (chunks <> [] /\ start + ov < Py.len text /\
   reconstruct ov chunks = take (Z.to_nat (start + ov)) text).
End ChunkText.

(** ** Text primitives *)

Module Text.
(** Lower-casing of one character the way SQLite folds case: the letters
    [A] to [Z] only, every other character is left as it is. *)
Definition lower_ascii (c : ascii) : ascii :=
  let n := nat_of_ascii c in
  if ((65 <=? n) && (n <=? 90))%nat then ascii_of_nat (n + 32) else c.

(** SQL [LOWER(s)] as SQLite computes it (no ICU extension): ASCII letters
    only.  Python's [s.lower()] is not this function: it is [str_lower] of
    the [Runtime] below. *)
Fixpoint lower (s : string) : string :=
  match s with
  | EmptyString => EmptyString
  | String c s' => String (lower_ascii c) (lower s')
  end.

(** What [str.lower()] does to a character below code point 256: the
    letters [A] to [Z] and the capital letters of Latin-1 ([À] to [Þ],
    without the sign [×]) move up by 32; [ß], [ÿ] and [µ] stay. *)
Definition lower_latin1_char (c : ascii) : ascii :=
  let n := nat_of_ascii c in
  if (((65 <=? n) && (n <=? 90)) ||
      ((192 <=? n) && (n <=? 222) && negb (n =? 215)))%nat
  then ascii_of_nat (n + 32) else c.

(** [s.lower()] on a text whose characters are all below code point 256;
    there it works character by character. *)
Fixpoint lower_latin1 (s : string) : string :=
  match s with
  | EmptyString => EmptyString
  | String c s' => String (lower_latin1_char c) (lower_latin1 s')
  end.

(** [needle in hay] *)
Fixpoint contains (needle hay : string) : bool :=
  String.prefix needle hay ||
  match hay with
  | EmptyString => false
  | String _ hay' => contains needle hay'
  end.

(** [s.split(sep, maxsplit)] for a one-character separator. *)
Fixpoint split (sep : ascii) (maxsplit : nat) (s : string) : list string :=
  match s with
  | EmptyString => [EmptyString]
  | String c s' =>
      match Ascii.eqb c sep, maxsplit with
      | true, S m => EmptyString :: split sep m s'
      | _, _ =>
          match split sep maxsplit s' with
          | [] => [String c EmptyString]
          | part :: parts => String c part :: parts
          end
      end
  end.

(** SQLite's [text LIKE pattern]: [%] matches any run of characters, [_]
    any single character, every other character itself up to ASCII
    case. *)
Fixpoint like (pattern text : string) : bool :=
  match pattern with
  | EmptyString => match text with EmptyString => true | _ => false end
  | String p pattern' =>
      if Ascii.eqb p "%" then
        (fix any_run (t : string) : bool :=
           like pattern' t ||
           match t with
           | EmptyString => false
           | String _ t' => any_run t'
           end) text
      else
        match text with
        | EmptyString => false
        | String c text' =>
            (Ascii.eqb p "_" || Ascii.eqb (lower_ascii p) (lower_ascii c))
            && like pattern' text'
        end
  end.

(** Decimal rendering of [n] on exactly [width] digits, zero padded
    ([%04d] and the like, for [0 <= n < 10 ^ width]). *)
Fixpoint digits (width : nat) (n : Z) : string :=
  match width with
  | O => EmptyString
  | S w => digits w (n / 10) +:+ String (ascii_of_nat (48 + Z.to_nat (n mod 10))) EmptyString
  end.
End Text.

(** SQL [LIMIT n]: a negative [n] means no limit. *)
Definition sql_limit {A : Type} (n : Z) (rows : list A) : list A :=
  if n <? 0 then rows else take (Z.to_nat n) rows.

(** ** Stable descending sort *)

(** [list.sort(key=..., reverse=True)] and SQL [ORDER BY ... DESC] are
    modelled by one stable sort: [ge x y] says that the key of [x] is at
    least the key of [y]; entries with equal keys keep the order they had.
    (SQLite leaves the order of ties open; the scan order is taken.) *)
Section Sort.
Context {A : Type} (ge : A -> A -> bool).

Fixpoint insert_desc (x : A) (l : list A) : list A :=
  match l with
  | [] => [x]
  | y :: l' => if ge x y then x :: l else y :: insert_desc x l'
  end.

Fixpoint sort_desc (l : list A) : list A :=
  match l with
  | [] => []
  | x :: l' => insert_desc x (sort_desc l')
  end.

(** [x] has the same key as [a]. *)
Definition same_rank (a x : A) : bool := ge a x && ge x a.
End Sort.

(** ** Timestamps *)

(** A naive [datetime] object. *)
Record datetime : Type := {
  year : Z; month : Z; day : Z;
  hour : Z; minute : Z; second : Z; microsecond : Z
}.

Definition dt_fields (t : datetime) : list Z :=
  [year t; month t; day t; hour t; minute t; second t; microsecond t].

(** Lexicographic [<=] on field lists. *)
Fixpoint lex_leb (a b : list Z) : bool :=
  match a, b with
  | [], _ => true
  | _ :: _, [] => false
  | x :: a', y :: b' => (x <? y) || ((x =? y) && lex_leb a' b')
  end.

(** [t1 <= t2] on datetimes; the ISO-8601 texts kept in the [created_at]
    columns order the same way. *)
Definition dt_leb (t1 t2 : datetime) : bool := lex_leb (dt_fields t1) (dt_fields t2).

(** [t.strftime('%Y%m%d_%H%M%S_%f')] *)
Definition strftime_stamp (t : datetime) : string :=
  Text.digits 4 (year t) +:+ Text.digits 2 (month t) +:+ Text.digits 2 (day t) +:+ "_" +:+
  Text.digits 2 (hour t) +:+ Text.digits 2 (minute t) +:+ Text.digits 2 (second t) +:+ "_" +:+
  Text.digits 6 (microsecond t).

(** The ranking key [(importance, timestamp)], compared as Python compares
    tuples: [(a1, t1) >= (a2, t2)]. *)
Definition rank_ge (a1 : Q) (t1 : datetime) (a2 : Q) (t2 : datetime) : bool :=
  if Qeq_bool a1 a2 then dt_leb t2 t1 else Qle_bool a2 a1.

(** ** The process environment *)

(** A [Dict[str, Any]] of metadata, by its items. *)
Definition Meta : Type := list (string * string).

(** What the model leaves to the environment: the wall clock, MD5,
    Python's Unicode lower-casing, the sentence-embedding model and the
    similarity of two embeddings as [EmbeddingManager] answers it (an
    embedding is taken as a list of rationals there; the fallback
    [_simple_similarity] is given on binary64 numbers further down), JSON
    rendering and the working directory.  The embedding provider is taken to answer the same text
    the same way throughout. *)
Class Runtime : Type := {
  (** the value returned by the [k]-th call of [datetime.now()] *)
  clock : nat -> datetime;
  (** [hashlib.md5(s.encode()).hexdigest()] *)
  md5_hexdigest : string -> string;
  (** [s.lower()]: Python lower-cases every cased character of the text,
      not only ASCII letters, and a capital sigma by its position *)
  str_lower : string -> string;
  (** [EmbeddingManager.embed_text]; [None] when no embedding is available *)
  embed_text : string -> option (list Q);
  (** [EmbeddingManager.compute_similarity] *)
  compute_similarity : list Q -> list Q -> Q;
  (** [json.dumps] of a metadata dictionary *)
  json_dumps : Meta -> string;
  (** [str(Path.cwd())] *)
  cwd : string
}.

(** An environment to run examples in: the clock ticks one microsecond per
    reading from 2024-01-01 00:00:00, the digest of a text is the text
    itself, texts are lower-cased as Python lower-cases characters below
    code point 256, no embedding model is installed. *)
Definition example_runtime : Runtime :=
  {| clock := fun k =>
       {| year := 2024; month := 1; day := 1;
          hour := 0; minute := 0; second := 0; microsecond := Z.of_nat k |};
     md5_hexdigest := fun s => s;
     str_lower := Text.lower_latin1;
     embed_text := fun _ => None;
     compute_similarity := fun _ _ => 0%Q;
     json_dumps := fun m =>
       fold_right (fun kv acc => fst kv +:+ ": " +:+ snd kv +:+ ", " +:+ acc) "" m;
     cwd := "/home/user/project" |}.

(** ** State passing *)

Definition St (S X : Type) : Type := S -> X * S.

Definition ret {S X : Type} (x : X) : St S X := fun s => (x, s).

Definition bind {S X Y : Type} (c : St S X) (k : X -> St S Y) : St S Y :=
  fun s => let (x, s') := c s in k x s'.

Notation "x <- c ;; k" := (bind c (fun x => k))
  (at level 100, c at next level, right associativity).
Notation "c ;;; k" := (bind c (fun _ => k))
  (at level 100, right associativity).

(** ** Storage *)

(** A row of [context_chunks] ([context_memory.db]).  [tags] and [metadata]
    are held as the values whose [str(...)] text the column stores, and
    [created_at] as the instant whose ISO text it stores. *)
Record ChunkRow : Type := {
  chunk_id : Z;
  chunk_session_id : string;
  chunk_content : string;
  chunk_content_type : string;
  chunk_importance : Q;
  chunk_created_at : datetime;
  chunk_updated_at : datetime;
  chunk_tags : list string;
  chunk_metadata : Meta;
  chunk_embedding : option (list Q);
  embedding_hash : string
}.

(** A row of [sessions] ([orby_memory.db]). *)
Record SessionRow : Type := {
  sess_session_id : string;
  sess_project_path : string;
  sess_created_at : datetime;
  sess_updated_at : datetime;
  sess_metadata : Meta
}.

(** A row of [memory_entries]. *)
Record EntryRow : Type := {
  entry_row_id : Z;
  entry_session_id : string;
  entry_content : string;
  entry_content_type : string;
  entry_importance : Q;
  entry_created_at : datetime;
  entry_updated_at : datetime;
  entry_tags : list string;
  entry_metadata : Meta
}.

(** A row of [memory_chunks]. *)
Record SubChunkRow : Type := {
  sub_id : Z;
  sub_entry_id : Z;
  sub_chunk_index : Z;
  sub_content : string;
  sub_created_at : datetime
}.

(** The two databases and the clock.  A table is the list of its rows in
    insertion order; [*_seq] is its AUTOINCREMENT counter, the largest
    row id handed out so far. *)
Record World : Type := {
  ticks : nat;
  sessions : list SessionRow;
  memory_entries : list EntryRow;
  memory_entries_seq : Z;
  memory_chunks : list SubChunkRow;
  memory_chunks_seq : Z;
  context_chunks : list ChunkRow;
  context_chunks_seq : Z
}.

Definition set_ticks (w : World) (t : nat) : World :=
  {| ticks := t; sessions := sessions w;
     memory_entries := memory_entries w; memory_entries_seq := memory_entries_seq w;
     memory_chunks := memory_chunks w; memory_chunks_seq := memory_chunks_seq w;
     context_chunks := context_chunks w; context_chunks_seq := context_chunks_seq w |}.

Definition set_sessions (w : World) (rows : list SessionRow) : World :=
  {| ticks := ticks w; sessions := rows;
     memory_entries := memory_entries w; memory_entries_seq := memory_entries_seq w;
     memory_chunks := memory_chunks w; memory_chunks_seq := memory_chunks_seq w;
     context_chunks := context_chunks w; context_chunks_seq := context_chunks_seq w |}.

Definition set_memory_entries (w : World) (rows : list EntryRow) (seq : Z) : World :=
  {| ticks := ticks w; sessions := sessions w;
     memory_entries := rows; memory_entries_seq := seq;
     memory_chunks := memory_chunks w; memory_chunks_seq := memory_chunks_seq w;
     context_chunks := context_chunks w; context_chunks_seq := context_chunks_seq w |}.

Definition set_memory_chunks (w : World) (rows : list SubChunkRow) (seq : Z) : World :=
  {| ticks := ticks w; sessions := sessions w;
     memory_entries := memory_entries w; memory_entries_seq := memory_entries_seq w;
     memory_chunks := rows; memory_chunks_seq := seq;
     context_chunks := context_chunks w; context_chunks_seq := context_chunks_seq w |}.

Definition set_context_chunks (w : World) (rows : list ChunkRow) (seq : Z) : World :=
  {| ticks := ticks w; sessions := sessions w;
     memory_entries := memory_entries w; memory_entries_seq := memory_entries_seq w;
     memory_chunks := memory_chunks w; memory_chunks_seq := memory_chunks_seq w;
     context_chunks := rows; context_chunks_seq := seq |}.

(** Both database files empty, no clock reading taken yet. *)
Definition empty_world : World :=
  {| ticks := O; sessions := [];
     memory_entries := []; memory_entries_seq := 0;
     memory_chunks := []; memory_chunks_seq := 0;
     context_chunks := []; context_chunks_seq := 0 |}.

(** [datetime.now()] *)
Definition now `{Runtime} : St World datetime :=
  fun w => (clock (ticks w), set_ticks w (S (ticks w))).

(** ** [ContextManager] *)

(** A [MemoryChunk] object, as the retrieval operations build it. *)
Record MemoryChunk : Type := {
  mc_id : Z;
  mc_content : string;
  mc_embedding : option (list Q);
  mc_content_type : string;
  mc_importance : Q;
  mc_created_at : datetime;
  mc_tags : list string;
  mc_metadata : Meta;
  mc_session_id : string
}.

Section ContextManager.
Context `{Runtime}.

(** [_hash_content] *)
Definition _hash_content (content : string) : string := md5_hexdigest content.

(** [self.chunk_text(content)] with the default [chunk_size=500],
    [overlap=50], on a string; [len(content) + 1] passes are enough for
    the loop to return. *)
Definition chunk_text_default (content : string) : list string :=
  let text := list_ascii_of_string content in
  match chunk_text (S (length text)) text 500 50 with
  | Some chunks => map string_of_list_ascii chunks
  | None => []
  end.

(** [INSERT INTO context_chunks ...]: [None] stands for the
    [sqlite3.IntegrityError] of the UNIQUE constraint on
    [embedding_hash]; otherwise the new row id. *)
Definition insert_context_chunk (row : Z -> ChunkRow) : St World (option Z) :=
  fun w =>
    let new_id := context_chunks_seq w + 1 in
    if existsb (fun r => String.eqb (embedding_hash r) (embedding_hash (row new_id)))
               (context_chunks w)
    then (None, w)
    else (Some new_id, set_context_chunks w (context_chunks w ++ [row new_id]) new_id).

(** The tuple bound to the [INSERT] of [add_content], as the row it
    becomes under id [new_id]. *)
Definition new_chunk_row (session_id chunk content_type : string) (importance : Q)
    (created updated : datetime) (tags : list string) (metadata : Meta)
    (embedding : option (list Q)) (content_hash : string) (new_id : Z) : ChunkRow :=
  {| chunk_id := new_id;
     chunk_session_id := session_id;
     chunk_content := chunk;
     chunk_content_type := content_type;
     chunk_importance := importance;
     chunk_created_at := created;
     chunk_updated_at := updated;
     chunk_tags := tags;
     chunk_metadata := metadata;
     chunk_embedding :=
       match embedding with
       | Some ((_ :: _) as e) => Some e
       | _ => None
       end;
     embedding_hash := content_hash |}.

(** The loop [for chunk_text in chunks] of [add_content]. *)
Fixpoint add_chunks (session_id content_type : string) (importance : Q)
    (tags : list string) (metadata : Meta)
    (chunks : list string) (chunk_ids : list Z) : St World (list Z) :=
  match chunks with
  | [] => ret chunk_ids
  | chunk :: rest =>
      let embedding := embed_text chunk in
      let content_hash := _hash_content chunk in
      created <- now ;;
      updated <- now ;;
      inserted <- insert_context_chunk
        (new_chunk_row session_id chunk content_type importance created updated
                       tags metadata embedding content_hash) ;;
      match inserted with
      | Some new_id =>
          add_chunks session_id content_type importance tags metadata rest
                     (chunk_ids ++ [new_id])
      | None =>
          add_chunks session_id content_type importance tags metadata rest chunk_ids
      end
  end.

Definition add_content (session_id content content_type : string) (importance : Q)
    (tags : option (list string)) (metadata : option Meta) : St World (list Z) :=
  let tags := default [] tags in
  let metadata := default [] metadata in
  let chunks := chunk_text_default content in
  add_chunks session_id content_type importance tags metadata chunks [].

Definition chunk_of_row (r : ChunkRow) : MemoryChunk :=
  {| mc_id := chunk_id r;
     mc_content := chunk_content r;
     mc_embedding := None;
     mc_content_type := chunk_content_type r;
     mc_importance := chunk_importance r;
     mc_created_at := chunk_created_at r;
     mc_tags := chunk_tags r;
     mc_metadata := chunk_metadata r;
     mc_session_id := chunk_session_id r |}.

(** [_keyword_search] *)
Definition _keyword_search (session_id query : string) (top_k : Z) (w : World)
    : list MemoryChunk :=
  let query_lower := str_lower query in
  let rows :=
    List.filter (fun r =>
        String.eqb (chunk_session_id r) session_id &&
        Text.like ("%" +:+ query_lower +:+ "%") (Text.lower (chunk_content r)))
      (context_chunks w) in
  let rows := sort_desc (fun r1 r2 => Qle_bool (chunk_importance r2) (chunk_importance r1)) rows in
  map chunk_of_row (sql_limit top_k rows).

(** [search_by_similarity] *)
Definition search_by_similarity (session_id query : string) (top_k : Z)
    (min_similarity : Q) (w : World) : list MemoryChunk :=
  match embed_text query with
  | None | Some [] => _keyword_search session_id query top_k w
  | Some query_embedding =>
      let rows :=
        List.filter (fun r =>
            String.eqb (chunk_session_id r) session_id &&
            match chunk_embedding r with Some _ => true | None => false end)
          (context_chunks w) in
      let results :=
        flat_map (fun r =>
            match chunk_embedding r with
            | Some stored_embedding =>
                let similarity := compute_similarity query_embedding stored_embedding in
                if Qle_bool min_similarity similarity
                then [(chunk_of_row r, similarity)] else []
            | None => []
            end) rows in
      let results := sort_desc (fun x y => Qle_bool (snd y) (snd x)) results in
      map fst (Py.prefix results top_k)
  end.

(** The rows [get_context_for_session] selects and then renders. *)
Definition context_rows_for_session (session_id : string) (max_chunks : Z)
    (content_types : option (list string)) (w : World) : list ChunkRow :=
  let rows :=
    List.filter (fun r =>
        String.eqb (chunk_session_id r) session_id &&
        match content_types with
        | Some ((_ :: _) as types) => existsb (String.eqb (chunk_content_type r)) types
        | _ => true
        end)
      (context_chunks w) in
  let rows :=
    sort_desc (fun r1 r2 => rank_ge (chunk_importance r1) (chunk_created_at r1)
                                    (chunk_importance r2) (chunk_created_at r2)) rows in
  sql_limit max_chunks rows.

(** [delete_session_content] *)
Definition delete_session_content (session_id : string) : St World bool :=
  fun w =>
    let kept := List.filter (fun r => negb (String.eqb (chunk_session_id r) session_id))
                            (context_chunks w) in
    (negb (length kept =? length (context_chunks w))%nat,
     set_context_chunks w kept (context_chunks_seq w)).

(** The [embedding_hash] column. *)
Definition hashes (w : World) : list string := map embedding_hash (context_chunks w).

(** What the schema and [add_content] keep true of [context_chunks]:
    [embedding_hash] is UNIQUE, and it is the hash of the row's content. *)
Definition context_wf (w : World) : Prop :=
  NoDup (hashes w) /\
  Forall (fun r => embedding_hash r = _hash_content (chunk_content r)) (context_chunks w).
End ContextManager.

(** ** [MemoryDatabase] *)

Section MemoryDatabase.
Context `{Runtime}.

(** [session_exists] *)
Definition session_exists (session_id : string) (w : World) : bool :=
  existsb (fun r => String.eqb (sess_session_id r) session_id) (sessions w).

(** [create_session]: [false] when the PRIMARY KEY refuses the row. *)
Definition create_session (session_id project_path : string) (metadata : option Meta)
    : St World bool :=
  created <- now ;;
  updated <- now ;;
  fun w =>
    if session_exists session_id w then (false, w)
    else (true,
          set_sessions w
            (sessions w ++ [{| sess_session_id := session_id;
                               sess_project_path := project_path;
                               sess_created_at := created;
                               sess_updated_at := updated;
                               sess_metadata := default [] metadata |}])).

(** The tuples [_chunk_and_store_content] builds, without their
    timestamps: [(i // chunk_size, content[i:i + chunk_size])] for [i] in
    [range(0, len(content), chunk_size)]. *)
Definition fixed_chunks (content : string) (chunk_size : Z) : list (Z * string) :=
  let text := list_ascii_of_string content in
  map (fun k => let i := Z.of_nat k * chunk_size in
                (i / chunk_size, string_of_list_ascii (Py.slice text i (i + chunk_size))))
      (seq 0 (Z.to_nat ((Py.len text + chunk_size - 1) / chunk_size))).

(** The loop of [_chunk_and_store_content], one clock reading per tuple. *)
Fixpoint stamp_chunks (entry_id : Z) (chunks : list (Z * string))
    : St World (list (Z -> SubChunkRow)) :=
  match chunks with
  | [] => ret []
  | (index, chunk) :: rest =>
      created <- now ;;
      rows <- stamp_chunks entry_id rest ;;
      ret ((fun new_id => {| sub_id := new_id; sub_entry_id := entry_id;
                             sub_chunk_index := index; sub_content := chunk;
                             sub_created_at := created |}) :: rows)
  end.

(** [executemany] of an [INSERT] into [memory_chunks]. *)
Fixpoint insert_memory_chunks (rows : list (Z -> SubChunkRow)) : St World unit :=
  match rows with
  | [] => ret tt
  | row :: rest =>
      (fun w => let new_id := memory_chunks_seq w + 1 in
                (tt, set_memory_chunks w (memory_chunks w ++ [row new_id]) new_id)) ;;;
      insert_memory_chunks rest
  end.

(** [_chunk_and_store_content] with its default [chunk_size=500] *)
Definition _chunk_and_store_content (entry_id : Z) (content : string) : St World unit :=
  rows <- stamp_chunks entry_id (fixed_chunks content 500) ;;
  insert_memory_chunks rows.

(** [add_memory_entry] *)
Definition add_memory_entry (session_id content content_type : string) (importance : Q)
    (tags : option (list string)) (metadata : option Meta) : St World Z :=
  exists_ <- (fun w => (session_exists session_id w, w)) ;;
  (if exists_ then ret false else create_session session_id cwd (Some [])) ;;;
  created <- now ;;
  updated <- now ;;
  entry_id <- (fun w =>
    let new_id := memory_entries_seq w + 1 in
    (new_id,
     set_memory_entries w
       (memory_entries w ++ [{| entry_row_id := new_id;
                                entry_session_id := session_id;
                                entry_content := content;
                                entry_content_type := content_type;
                                entry_importance := importance;
                                entry_created_at := created;
                                entry_updated_at := updated;
                                entry_tags := default [] tags;
                                entry_metadata := default [] metadata |}])
       new_id)) ;;
  (if 1000 <? Z.of_nat (String.length content)
   then _chunk_and_store_content entry_id content else ret tt) ;;;
  ret entry_id.

(** [ORDER BY importance DESC, created_at DESC] on [memory_entries] *)
Definition entry_rank_ge (r1 r2 : EntryRow) : bool :=
  rank_ge (entry_importance r1) (entry_created_at r1)
          (entry_importance r2) (entry_created_at r2).

(** SQL [OFFSET n] *)
Definition sql_offset {A : Type} (n : Z) (rows : list A) : list A :=
  drop (Z.to_nat n) rows.

(** [get_memory_entries] *)
Definition get_memory_entries (session_id : string) (limit offset : Z) (w : World)
    : list EntryRow :=
  let rows := List.filter (fun r => String.eqb (entry_session_id r) session_id)
                          (memory_entries w) in
  sql_limit limit (sql_offset offset (sort_desc entry_rank_ge rows)).

(** [search_memory] *)
Definition search_memory (session_id query : string) (content_type : option string)
    (limit : Z) (w : World) : list EntryRow :=
  let query_lower := str_lower query in
  let pattern := "%" +:+ query_lower +:+ "%" in
  let rows :=
    List.filter (fun r =>
        String.eqb (entry_session_id r) session_id &&
        (Text.like pattern (Text.lower (entry_content r)) ||
         Text.like pattern (Text.lower (json_dumps (entry_metadata r)))) &&
        match content_type with
        | Some (String _ _ as t) => String.eqb (entry_content_type r) t
        | _ => true
        end)
      (memory_entries w) in
  sql_limit limit (sort_desc entry_rank_ge rows).

(** [delete_session_memory] *)
Definition delete_session_memory (session_id : string) : St World bool :=
  fun w =>
    let kept := List.filter (fun r => negb (String.eqb (entry_session_id r) session_id))
                            (memory_entries w) in
    (negb (length kept =? length (memory_entries w))%nat,
     set_memory_entries w kept (memory_entries_seq w)).
End MemoryDatabase.

(** ** [EnhancedMemorySystem] *)

(** The dataclass [MemoryEntry]. *)
Record MemoryEntry : Type := {
  content : string;
  timestamp : datetime;
  content_type : string;
  tags : list string;
  importance : Q;
  metadata : Meta;
  entry_id : option Z
}.

(** The attributes of an [EnhancedMemorySystem] object; the two stores it
    holds handles of are in the [World]. *)
Record EnhancedMemorySystem : Type := {
  session_id : string;
  project_path : string;
  memory_enabled : bool;
  session_memory : list MemoryEntry;
  session_memory_limit : Z
}.

Definition set_session_memory (self : EnhancedMemorySystem) (buffer : list MemoryEntry)
    : EnhancedMemorySystem :=
  {| session_id := session_id self; project_path := project_path self;
     memory_enabled := memory_enabled self;
     session_memory := buffer;
     session_memory_limit := session_memory_limit self |}.

Definition set_enabled (self : EnhancedMemorySystem) (enabled : bool)
    : EnhancedMemorySystem :=
  {| session_id := session_id self; project_path := project_path self;
     memory_enabled := enabled;
     session_memory := session_memory self;
     session_memory_limit := session_memory_limit self |}.

(** A method of the façade acts on the object and on the world. *)
Definition Method (X : Type) : Type := St (EnhancedMemorySystem * World) X.

(** Run a storage operation from a method. *)
Definition storage {X : Type} (c : St World X) : Method X :=
  fun s => let (x, w) := c (snd s) in (x, (fst s, w)).

(** Read the object. *)
Definition self_ : Method EnhancedMemorySystem := fun s => (fst s, s).

(** Assign [self.session_memory]. *)
Definition assign_session_memory (buffer : list MemoryEntry) : Method unit :=
  fun s => (tt, (set_session_memory (fst s) buffer, snd s)).

(** The default [min_similarity=0.3]: the double nearest to 0.3. *)
Definition default_min_similarity : Q := 5404319552844595 # 18014398509481984.

(** The arguments of one call of [add_to_session_memory]. *)
Record AddCall : Type := {
  call_content : string;
  call_content_type : string;
  call_tags : option (list string);
  call_importance : Q;
  call_metadata : option Meta
}.

(** What an entry remembers, apart from when it was made and its row id. *)
Definition entry_payload (e : MemoryEntry) : string * string * list string * Q * Meta :=
  (content e, content_type e, tags e, importance e, metadata e).

Definition call_payload (c : AddCall) : string * string * list string * Q * Meta :=
  (call_content c, call_content_type c, default [] (call_tags c),
   call_importance c, default [] (call_metadata c)).

Section Facade.
Context `{Runtime}.

(** [EnhancedMemorySystem.__init__] *)
Definition __init__ (session_id : option string) (project_path : option string)
    (memory_enabled : bool) : St World EnhancedMemorySystem :=
  sid <- match session_id with
         | Some (String _ _ as sid) => ret sid
         | _ => stamp <- now ;; ret ("session_" +:+ strftime_stamp stamp)
         end ;;
  let path := match project_path with Some p => p | None => cwd end in
  create_session sid path None ;;;
  ret {| session_id := sid; project_path := path;
         memory_enabled := memory_enabled;
         session_memory := []; session_memory_limit := 100 |}.

(** [clear_session_memory] *)
Definition clear_session_memory : Method unit := assign_session_memory [].

(** [set_memory_enabled] *)
Definition set_memory_enabled (enabled : bool) : Method unit :=
  (fun s => (tt, (set_enabled (fst s) enabled, snd s))) ;;;
  if enabled then ret tt else clear_session_memory.

(** [entry.entry_id = entry_id]: [entry] is the object put at index 0 of
    the buffer; the assignment shows in the buffer when the truncation left
    that object in it. *)
Definition assign_entry_id (buffer : list MemoryEntry) (new_id : Z) : list MemoryEntry :=
  match buffer with
  | [] => []
  | e :: rest =>
      {| content := content e; timestamp := timestamp e;
         content_type := content_type e; tags := tags e;
         importance := importance e; metadata := metadata e;
         entry_id := Some new_id |} :: rest
  end.

(** [add_to_session_memory] *)
Definition add_to_session_memory (content content_type : string)
    (tags : option (list string)) (importance : Q) (metadata : option Meta)
    : Method Z :=
  self <- self_ ;;
  if negb (memory_enabled self) then ret (-1)
  else
    stamp <- storage now ;;
    let entry := {| content := content; timestamp := stamp;
                    content_type := content_type; tags := default [] tags;
                    importance := importance; metadata := default [] metadata;
                    entry_id := None |} in
    let buffer := entry :: session_memory self in
    let buffer :=
      if session_memory_limit self <? Py.len buffer
      then Py.prefix buffer (session_memory_limit self) else buffer in
    assign_session_memory buffer ;;;
    new_id <- storage (add_memory_entry (session_id self) content content_type
                                        importance tags metadata) ;;
    storage (add_content (session_id self) content content_type importance
                         tags metadata) ;;;
    assign_session_memory (assign_entry_id buffer new_id) ;;;
    ret new_id.

(** A run of calls of [add_to_session_memory], first call first. *)
Fixpoint add_all (calls : list AddCall) : Method unit :=
  match calls with
  | [] => ret tt
  | c :: rest =>
      add_to_session_memory (call_content c) (call_content_type c) (call_tags c)
                            (call_importance c) (call_metadata c) ;;;
      add_all rest
  end.

Definition entry_of_chunk (chunk : MemoryChunk) : MemoryEntry :=
  {| content := mc_content chunk; timestamp := mc_created_at chunk;
     content_type := mc_content_type chunk; tags := mc_tags chunk;
     importance := mc_importance chunk; metadata := mc_metadata chunk;
     entry_id := Some (mc_id chunk) |}.

Definition entry_of_row (row : EntryRow) : MemoryEntry :=
  {| content := entry_content row; timestamp := entry_created_at row;
     content_type := entry_content_type row; tags := entry_tags row;
     importance := entry_importance row; metadata := entry_metadata row;
     entry_id := Some (entry_row_id row) |}.

(** The loop that removes duplicates in [search_session_memory]:
    [seen_contents] is a set of digests. *)
Fixpoint unique_by_hash (all_results : list MemoryEntry) (seen_contents : gset string)
    (unique_results : list MemoryEntry) : list MemoryEntry :=
  match all_results with
  | [] => unique_results
  | entry :: rest =>
      let content_hash := md5_hexdigest (content entry) in
      if decide (content_hash ∈ seen_contents)
      then unique_by_hash rest seen_contents unique_results
      else unique_by_hash rest ({[content_hash]} ∪ seen_contents)
                          (unique_results ++ [entry])
  end.

(** The key [lambda x: (x.importance, x.timestamp)], with [reverse=True]. *)
Definition memory_rank_ge (e1 e2 : MemoryEntry) : bool :=
  rank_ge (importance e1) (timestamp e1) (importance e2) (timestamp e2).

(** [search_session_memory] *)
Definition search_session_memory (query : string) (content_type : option string)
    (max_results : Z) (s : EnhancedMemorySystem * World) : list MemoryEntry :=
  let (self, w) := s in
  if negb (memory_enabled self) then []
  else
    let query_lower := str_lower query in
    let ephemeral_results :=
      List.filter (fun entry => Text.contains query_lower (str_lower (content entry)))
                  (session_memory self) in
    let context_results :=
      search_by_similarity (session_id self) query max_results default_min_similarity w in
    let context_entries := map entry_of_chunk context_results in
    let persistent_results :=
      search_memory (session_id self) query content_type max_results w in
    let persistent_entries := map entry_of_row persistent_results in
    let all_results := context_entries ++ ephemeral_results ++ persistent_entries in
    let unique_results := unique_by_hash all_results ∅ [] in
    let unique_results := sort_desc memory_rank_ge unique_results in
    Py.prefix unique_results max_results.

(** The digest the duplicate removal compares. *)
Definition digest (e : MemoryEntry) : string := md5_hexdigest (content e).

(** [unique] is [all] with duplicates by digest removed, first occurrence
    kept: it is a subsequence of [all] without two entries of one digest,
    it has an entry for every digest of [all], and each of its entries
    stands in [all] with no entry of its digest before it. *)
Definition first_wins (all unique : list MemoryEntry) : Prop :=
  sublist unique all /\
  NoDup (map digest unique) /\
  (forall e, In e all -> In (digest e) (map digest unique)) /\
  (forall e, In e unique ->
     exists before after, all = before ++ e :: after /\
                          ~ In (digest e) (map digest before)).

(** [result] is the merged, deduplicated, ranked and truncated answer to a
    search: the three sources in priority order, first occurrences by
    digest, a stable descending sort on [(importance, timestamp)], and
    the slice [[:max_results]]. *)
Definition merged_ranking (query : string) (content_type : option string)
    (max_results : Z) (s : EnhancedMemorySystem * World)
    (result : list MemoryEntry) : Prop :=
  let context_entries :=
    map entry_of_chunk
        (search_by_similarity (session_id (fst s)) query max_results
                              default_min_similarity (snd s)) in
  let ephemeral_results :=
    List.filter (fun entry => Text.contains (str_lower query) (str_lower (content entry)))
                (session_memory (fst s)) in
  let persistent_entries :=
    map entry_of_row
        (search_memory (session_id (fst s)) query content_type max_results (snd s)) in
  exists unique ranked,
    first_wins (context_entries ++ ephemeral_results ++ persistent_entries) unique /\
    Permutation ranked unique /\
    StronglySorted (fun a b => memory_rank_ge a b = true) ranked /\
    (forall a, List.filter (same_rank memory_rank_ge a) ranked
               = List.filter (same_rank memory_rank_ge a) unique) /\
    result = Py.prefix ranked max_results /\
    (0 <= max_results -> result = take (Z.to_nat max_results) ranked).

(** [clear_persistent_memory] *)
Definition clear_persistent_memory : Method unit :=
  self <- self_ ;;
  storage (delete_session_memory (session_id self)) ;;;
  storage (delete_session_content (session_id self)) ;;;
  ret tt.

(** [clear_all_memory] *)
Definition clear_all_memory : Method unit :=
  clear_session_memory ;;;
  clear_persistent_memory.

(** The loop [for entry in current_entries] of [save_session_memory]. *)
Fixpoint copy_entries (backup_session_id : string) (entries : list EntryRow)
    : St World unit :=
  match entries with
  | [] => ret tt
  | entry :: rest =>
      add_memory_entry backup_session_id (entry_content entry)
                       (entry_content_type entry) (entry_importance entry)
                       (Some (entry_tags entry)) (Some (entry_metadata entry)) ;;;
      copy_entries backup_session_id rest
  end.

(** [f"saved_{session_name}_{datetime.now().strftime('%Y%m%d_%H%M%S_%f')}"] *)
Definition snapshot_id (session_name : string) (stamp : datetime) : string :=
  "saved_" +:+ session_name +:+ "_" +:+ strftime_stamp stamp.

(** [f"saved_{session_name}_%"] *)
Definition snapshot_pattern (session_name : string) : string :=
  "saved_" +:+ session_name +:+ "_%".

(** [save_session_memory] *)
Definition save_session_memory (session_name : string) : Method bool :=
  self <- self_ ;;
  stamp <- storage now ;;
  let backup_session_id := snapshot_id session_name stamp in
  storage (create_session backup_session_id (project_path self) None) ;;;
  current_entries <- storage (fun w => (get_memory_entries (session_id self) 10000 0 w, w)) ;;
  storage (copy_entries backup_session_id current_entries) ;;;
  ret true.

(** [SELECT session_id FROM sessions WHERE session_id LIKE ? ORDER BY
    created_at DESC LIMIT 1] with [fetchone()] *)
Definition latest_session_like (pattern : string) (w : World) : option string :=
  let rows := List.filter (fun r => Text.like pattern (sess_session_id r)) (sessions w) in
  let rows := sort_desc (fun r1 r2 => dt_leb (sess_created_at r2) (sess_created_at r1)) rows in
  head (map sess_session_id (sql_limit 1 rows)).

(** The loop [for entry in backup_entries] of [load_session_memory]. *)
Fixpoint restore_entries (entries : list EntryRow) : Method unit :=
  match entries with
  | [] => ret tt
  | entry :: rest =>
      add_to_session_memory (entry_content entry) (entry_content_type entry)
                            (Some (entry_tags entry)) (entry_importance entry)
                            (Some (entry_metadata entry)) ;;;
      restore_entries rest
  end.

(** [load_session_memory] *)
Definition load_session_memory (session_name : string) : Method bool :=
  result <- storage (fun w => (latest_session_like (snapshot_pattern session_name) w, w)) ;;
  match result with
  | None => ret false
  | Some backup_session_id =>
      clear_all_memory ;;;
      backup_entries <- storage (fun w => (get_memory_entries backup_session_id 10000 0 w, w)) ;;
      restore_entries backup_entries ;;;
      ret true
  end.

(** The loop [for row in results] of [get_available_sessions]. *)
Fixpoint collect_session_names (results : list string) (seen : gset string)
    (session_names : list string) : list string :=
  match results with
  | [] => session_names
  | session_id :: rest =>
      if String.prefix "saved_" session_id then
        match Text.split "_" 2 session_id with
        | _ :: name :: _ =>
            if decide (name ∈ seen)
            then collect_session_names rest seen session_names
            else collect_session_names rest ({[name]} ∪ seen) (session_names ++ [name])
        | _ => collect_session_names rest seen session_names
        end
      else collect_session_names rest seen session_names
  end.

(** [SELECT DISTINCT session_id FROM sessions WHERE session_id LIKE
    'saved_%' ORDER BY created_at DESC] *)
Definition saved_session_ids (w : World) : list string :=
  let rows := List.filter (fun r => Text.like "saved_%" (sess_session_id r)) (sessions w) in
  let rows := sort_desc (fun r1 r2 => dt_leb (sess_created_at r2) (sess_created_at r1)) rows in
  map sess_session_id rows.

(** [get_available_sessions] *)
Definition get_available_sessions (s : EnhancedMemorySystem * World) : list string :=
  collect_session_names (saved_session_ids (snd s)) ∅ [].
End Facade.

(** ** Snapshots: what a round trip is about *)

(** What a row of [memory_entries] remembers, apart from its id, its
    session and its timestamps. *)
Definition row_payload (r : EntryRow) : string * string * list string * Q * Meta :=
  (entry_content r, entry_content_type r, entry_tags r, entry_importance r,
   entry_metadata r).

(** The entries a session holds in the durable store. *)
Definition entries_of (session_id : string) (w : World) : list EntryRow :=
  List.filter (fun r => String.eqb (entry_session_id r) session_id) (memory_entries w).

(** The two tables a snapshot lives in. *)
Definition durable (w : World) : list SessionRow * list EntryRow :=
  (sessions w, memory_entries w).

(** Every entry belongs to a session that has its row: what
    [add_memory_entry] establishes by creating the session on first use. *)
Definition entries_have_sessions (w : World) : Prop :=
  Forall (fun e => existsb (fun r => String.eqb (sess_session_id r) (entry_session_id e))
                           (sessions w) = true)
         (memory_entries w).

(** ** Example states *)

(** A session that remembered one note and then had memory switched off
    with [set_memory_enabled(False)]. *)
Definition example_started : EnhancedMemorySystem * World :=
  let (self, w) := __init__ (H := example_runtime) (Some "demo") None true empty_world in
  (self, w).

Definition example_one_note : EnhancedMemorySystem * World :=
  snd (add_to_session_memory (H := example_runtime) "buy milk" "text" None 1%Q None
         example_started).

Definition example_disabled : EnhancedMemorySystem * World :=
  snd (set_memory_enabled false example_one_note).

(** The same session with [session_memory_limit] set to 2 and nothing
    remembered yet. *)
Definition example_small : EnhancedMemorySystem * World :=
  ({| session_id := session_id (fst example_started);
      project_path := project_path (fst example_started);
      memory_enabled := true;
      session_memory := [];
      session_memory_limit := 2 |},
   snd example_started).

Definition example_calls : list AddCall :=
  map (fun c => {| call_content := c; call_content_type := "text"; call_tags := None;
                   call_importance := 1%Q; call_metadata := None |})
      ["first"; "second"; "third"]%string.

(** The session with one note, saved as [my_notes]. *)
Definition example_saved_my_notes : EnhancedMemorySystem * World :=
  snd (save_session_memory (H := example_runtime) "my_notes" example_one_note).

(** The session with one note saved as [a]; then, with a second note,
    saved as [a_b]; then everything cleared. *)
Definition example_two_snapshots : EnhancedMemorySystem * World :=
  let s := snd (save_session_memory (H := example_runtime) "a" example_one_note) in
  let s := snd (add_to_session_memory (H := example_runtime) "call mum" "text" None 1%Q None s) in
  let s := snd (save_session_memory (H := example_runtime) "a_b" s) in
  snd (clear_all_memory s).

(** The session with one note saved as [x], and a second note added since. *)
Definition example_resaved : EnhancedMemorySystem * World :=
  let s := snd (save_session_memory (H := example_runtime) "x" example_one_note) in
  snd (add_to_session_memory (H := example_runtime) "call mum" "text" None 1%Q None s).

(** ** Further definitions: windows of [chunk_text] *)

(** The [k]-th window of the sliding split:
    [text[k * (chunk_size - overlap) : k * (chunk_size - overlap) + chunk_size]]. *)
Definition chunk_window {A : Type} (text : list A) (chunk_size overlap : Z) (k : nat)
    : list A :=
  Py.slice text (Z.of_nat k * (chunk_size - overlap))
           (Z.of_nat k * (chunk_size - overlap) + chunk_size).

(** ** Further definitions: the context store *)

(** No row id of [context_chunks] is above the AUTOINCREMENT counter. *)
Definition context_ids_bounded (w : World) : Prop :=
  Forall (fun r => chunk_id r <= context_chunks_seq w) (context_chunks w).

(** The [WHERE] clause of [_keyword_search]. *)
Definition keyword_match `{Runtime} (session_id query : string) (r : ChunkRow) : bool :=
  String.eqb (chunk_session_id r) session_id &&
  Text.like ("%" +:+ str_lower query +:+ "%") (Text.lower (chunk_content r)).

(** ** Further definitions: [MemoryDatabase] *)

(** [delete_memory_entry] *)
Definition delete_memory_entry (entry_id : Z) : St World bool :=
  fun w =>
    let kept := List.filter (fun r => negb (entry_row_id r =? entry_id)) (memory_entries w) in
    (negb (length kept =? length (memory_entries w))%nat,
     set_memory_entries w kept (memory_entries_seq w)).

(** Row ids of [memory_entries] are positive and not above the
    AUTOINCREMENT counter. *)
Definition memory_ids_bounded (w : World) : Prop :=
  0 <= memory_entries_seq w /\
  Forall (fun r => 0 < entry_row_id r <= memory_entries_seq w) (memory_entries w).

(** The conditions of the [WHERE] clause of [search_memory] that come
    after the session. *)
Definition search_match `{Runtime} (query : string) (content_type : option string)
    (r : EntryRow) : bool :=
  (Text.like ("%" +:+ str_lower query +:+ "%") (Text.lower (entry_content r)) ||
   Text.like ("%" +:+ str_lower query +:+ "%") (Text.lower (json_dumps (entry_metadata r)))) &&
  match content_type with
  | Some (String _ _ as t) => String.eqb (entry_content_type r) t
  | _ => true
  end.

(** What a row of [memory_chunks] holds, apart from its id and timestamp. *)
Definition sub_payload (r : SubChunkRow) : Z * Z * string :=
  (sub_entry_id r, sub_chunk_index r, sub_content r).

(** The order of [ORDER BY importance DESC, created_at DESC], spelled out:
    [r1] may stand before [r2]. *)
Definition ranks_before (r1 r2 : EntryRow) : Prop :=
  (entry_importance r2 < entry_importance r1)%Q \/
  (entry_importance r1 == entry_importance r2)%Q /\
  dt_leb (entry_created_at r2) (entry_created_at r1) = true.

(** ** A clock that is set back *)

(** [datetime.now()] reads the local wall clock, which can be set back (by
    hand, by a time server, at the end of daylight saving time).  Here the
    first 17 readings fall just before 03:00 on 2024-10-27 and the later
    ones just after the clock went back to 02:00; everything else is as
    in [example_runtime]. *)
Definition set_back_runtime : Runtime :=
  {| clock := fun k =>
       if (k <? 17)%nat
       then {| year := 2024; month := 10; day := 27;
               hour := 2; minute := 59; second := 59; microsecond := Z.of_nat k |}
       else {| year := 2024; month := 10; day := 27;
               hour := 2; minute := 0; second := 0; microsecond := Z.of_nat k |};
     md5_hexdigest := fun s => s;
     str_lower := Text.lower_latin1;
     embed_text := fun _ => None;
     compute_similarity := fun _ _ => 0%Q;
     json_dumps := fun m =>
       fold_right (fun kv acc => fst kv +:+ ": " +:+ snd kv +:+ ", " +:+ acc) "" m;
     cwd := "/home/user/project" |}.

(** Under that clock: a session that remembered one note, was saved as
    [x], and remembered a second note, all before the clock went back
    (17 readings). *)
Definition example_before_set_back : EnhancedMemorySystem * World :=
  let s := __init__ (H := set_back_runtime) (Some "demo") None true empty_world in
  let s := snd (add_to_session_memory (H := set_back_runtime) "buy milk" "text" None 1%Q
                  None (fst s, snd s)) in
  let s := snd (save_session_memory (H := set_back_runtime) "x" s) in
  snd (add_to_session_memory (H := set_back_runtime) "call mum" "text" None 1%Q None s).

(** ** The fallback similarity, on binary64 numbers *)








(** * Properties *)

(** ** Slices *)

Section PyFacts.
Context {A : Type}.

Lemma py_len_nonneg (l : list A) : 0 <= Py.len l.
Proof. unfold Py.len. lia. Qed.

Lemma py_slice_inside (l : list A) (start stop : Z) :
  0 <= start <= Py.len l -> 0 <= stop ->
  Py.slice l start stop
  = take (Z.to_nat (Z.min stop (Py.len l) - start)) (drop (Z.to_nat start) l).
Proof.
  intros Hs Hpos. unfold Py.slice, Py.adjust.
  destruct (Z.ltb_spec start 0); [lia|].
  destruct (Z.ltb_spec stop 0); [lia|].
  by rewrite (Z.min_l start) by lia.
Qed.

Lemma py_slice_length_le (l : list A) (start stop : Z) :
  0 <= start -> 0 <= stop -> Py.len (Py.slice l start stop) <= Z.max 0 (stop - start).
Proof.
  intros Hs Hpos. unfold Py.slice, Py.adjust, Py.len.
  rewrite length_take, length_drop.
  destruct (Z.ltb_spec start 0); [lia|].
  destruct (Z.ltb_spec stop 0); lia.
Qed.

Lemma py_prefix_take (l : list A) (stop : Z) :
  0 <= stop -> Py.prefix l stop = take (Z.to_nat stop) l.
Proof.
  intros Hs. unfold Py.prefix.
  rewrite py_slice_inside; [|split; [lia|apply py_len_nonneg]|lia].
  change (Z.to_nat 0) with O. rewrite drop_0, Z.sub_0_r.
  destruct (Z.le_gt_cases stop (Py.len l)) as [Hle|Hgt].
  - by rewrite Z.min_l by lia.
  - rewrite Z.min_r by lia. unfold Py.len in *.
    rewrite !take_ge; [done|lia|lia].
Qed.
End PyFacts.

(** ** Chunking *)

Section ChunkTextFacts.
Context {A : Type}.
Implicit Types (text chunk : list A) (chunks : list (list A)).

(** *** Termination *)

Lemma chunk_loop_fuel_mono fuel fuel' text cs ov st r :
  chunk_loop fuel text cs ov st = Some r ->
  (fuel <= fuel')%nat ->
  chunk_loop fuel' text cs ov st = Some r.
Proof.
  revert fuel' st. induction fuel as [|fuel IH]; intros fuel' st Hr Hle.
  - discriminate.
  - destruct fuel' as [|fuel']; [lia|]. cbn [chunk_loop] in *.
    destruct (chunk_step text cs ov st); [|done].
    apply IH; [done|lia].
Qed.

Lemma chunk_step_advance text cs ov start acc start' acc' :
  chunk_step text cs ov (start, acc) = Continue (start', acc') ->
  start' - start = cs - ov /\ start < Py.len text /\ start + cs < Py.len text.
Proof.
  unfold chunk_step.
  destruct (Z.ltb_spec start (Py.len text)); [|done].
  destruct (Z.leb_spec (Py.len text) (start + cs)); [done|].
  intros [= <- _]. lia.
Qed.

Lemma chunk_step_exit text cs ov start acc :
  Py.len text <= start + cs ->
  exists r, chunk_step text cs ov (start, acc) = Exit r.
Proof.
  intros Hend. unfold chunk_step.
  destruct (Z.ltb_spec start (Py.len text)); [|by eexists].
  destruct (Z.leb_spec (Py.len text) (start + cs)); [by eexists|lia].
Qed.

Lemma chunk_loop_returns text cs ov :
  ov < cs ->
  forall fuel start acc,
    Py.len text - start < Z.of_nat fuel -> (0 < fuel)%nat ->
    exists r, chunk_loop fuel text cs ov (start, acc) = Some r.
Proof.
  intros Hlt. induction fuel as [|fuel IH]; intros start acc Hfuel Hpos; [lia|].
  cbn [chunk_loop].
  destruct (chunk_step text cs ov (start, acc)) as [[start' acc']|r] eqn:Hstep.
  - apply chunk_step_advance in Hstep as (Hadv & Hin & _).
    apply IH; lia.
  - by eexists.
Qed.

Lemma chunk_text_returns text cs ov :
  ov < cs ->
  exists chunks, forall fuel,
    (length text < fuel)%nat -> chunk_text fuel text cs ov = Some chunks.
Proof.
  intros Hlt. unfold chunk_text. destruct (Py.len text <=? cs); [by eexists|].
  destruct (chunk_loop_returns text cs ov Hlt (S (length text)) 0 [])
    as [r Hr]; [unfold Py.len; lia|lia|].
  exists r. intros fuel Hfuel.
  eapply chunk_loop_fuel_mono; [exact Hr|lia].
Qed.

(** C9. Whenever [overlap < chunk_size], [chunk_text] returns for every
    text: the loop reaches an exit within [len(text) + 1] evaluations of
    its test (and more fuel never changes the result); every pass that
    does not exit moves [start] forward by [chunk_size - overlap > 0];
    and a pass whose window end is at or past the end of the text exits. *)
Theorem chunk_text_terminates text cs ov :
  ov < cs ->
  (exists chunks, forall fuel,
      (length text < fuel)%nat -> chunk_text fuel text cs ov = Some chunks) /\
  (forall start acc start' acc',
      chunk_step text cs ov (start, acc) = Continue (start', acc') ->
      start' - start = cs - ov /\ 0 < start' - start) /\
  (forall start acc,
      Py.len text <= start + cs ->
      exists r, chunk_step text cs ov (start, acc) = Exit r).
Proof.
  intros Hlt. split; [|split].
  - by apply chunk_text_returns.
  - intros start acc start' acc' Hstep.
    apply chunk_step_advance in Hstep as (Hadv & _). lia.
  - apply chunk_step_exit.
Qed.

(** *** Reconstruction *)

Lemma reconstruct_snoc ov acc chunk :
  reconstruct ov (acc ++ [chunk])
  = match acc with
    | [] => chunk
    | _ :: _ => reconstruct ov acc ++ drop (Z.to_nat ov) chunk
    end.
Proof.
  destruct acc as [|c acc]; simpl.
  - apply app_nil_r.
  - by rewrite map_app, concat_app, app_assoc; simpl; rewrite app_nil_r.
Qed.

Lemma chunks_cover_step text cs ov start acc :
  0 <= ov < cs -> 0 <= start < Py.len text ->
  chunks_cover text ov start acc ->
  reconstruct ov (acc ++ [Py.slice text start (start + cs)])
  = take (Z.to_nat (Z.min (start + cs) (Py.len text))) text.
Proof.
  intros Hov Hstart Hcover.
  rewrite reconstruct_snoc, py_slice_inside by lia.
  destruct Hcover as [[-> ->]|(Hne & Hin & Hrec)].
  - change (Z.to_nat 0) with O. by rewrite drop_0, Z.sub_0_r.
  - destruct acc as [|c acc]; [done|]. rewrite Hrec.
    rewrite skipn_firstn_comm, drop_drop.
    replace (Z.to_nat start + Z.to_nat ov)%nat with (Z.to_nat (start + ov)) by lia.
    rewrite take_take_drop. f_equal. lia.
Qed.

Lemma chunk_loop_reconstructs text cs ov :
  0 <= ov < cs ->
  forall fuel start acc r,
    0 <= start < Py.len text ->
    chunks_cover text ov start acc ->
    Forall (fun c => Py.len c <= cs) acc ->
    chunk_loop fuel text cs ov (start, acc) = Some r ->
    reconstruct ov r = text /\ Forall (fun c => Py.len c <= cs) r.
Proof.
  intros Hov. induction fuel as [|fuel IH]; intros start acc r Hstart Hcover Hsz;
    [discriminate|].
  cbn [chunk_loop]. unfold chunk_step.
  destruct (Z.ltb_spec start (Py.len text)); [|lia].
  pose proof (chunks_cover_step text cs ov start acc Hov Hstart Hcover) as Hrec.
  assert (Forall (fun c => Py.len c <= cs)
            (acc ++ [Py.slice text start (start + cs)])) as Hsz'.
  { apply Forall_app. split; [done|]. constructor; [|constructor].
    pose proof (py_slice_length_le text start (start + cs)). lia. }
  destruct (Z.leb_spec (Py.len text) (start + cs)) as [Hend|Hmore].
  - intros [= <-]. split; [|done].
    rewrite Hrec, Z.min_r by lia. apply take_ge. unfold Py.len. lia.
  - apply IH; [lia| |done].
    right. split; [by destruct acc|]. split; [lia|].
    rewrite Hrec. f_equal. lia.
Qed.

(** C1. For [0 <= overlap < chunk_size], [chunk_text] returns chunks that
    rebuild the text exactly (first chunk whole, later chunks without
    their first [overlap] characters), none longer than [chunk_size];
    a text of at most [chunk_size] characters gives the single chunk
    [[text]]. *)
Theorem chunk_text_reconstructs text cs ov :
  0 <= ov < cs ->
  exists chunks,
    (forall fuel, (length text < fuel)%nat ->
                  chunk_text fuel text cs ov = Some chunks) /\
    reconstruct ov chunks = text /\
    Forall (fun c => Py.len c <= cs) chunks /\
    (Py.len text <= cs -> chunks = [text]).
Proof.
  intros Hov.
  destruct (chunk_text_returns text cs ov) as [chunks Hret]; [lia|].
  exists chunks. split; [done|].
  specialize (Hret (S (length text)) ltac:(lia)).
  unfold chunk_text in Hret.
  destruct (Z.leb_spec (Py.len text) cs) as [Hshort|Hlong].
  - injection Hret as <-. simpl. rewrite app_nil_r.
    split; [done|]. split; [|done]. by repeat constructor.
  - eapply chunk_loop_reconstructs in Hret as [Hrec Hsz]; [|done| |by left|done].
    + split; [done|]. split; [done|lia].
    + pose proof (py_len_nonneg text). lia.
Qed.
End ChunkTextFacts.

(** ** Sorting and limits *)

Section SortFacts.
Context {A : Type} (ge : A -> A -> bool).

Lemma insert_desc_perm x l : Permutation (insert_desc ge x l) (x :: l).
Proof.
  induction l as [|y l IH]; simpl; [done|].
  destruct (ge x y); [done|].
  rewrite IH. apply perm_swap.
Qed.

Lemma sort_desc_perm l : Permutation (sort_desc ge l) l.
Proof.
  induction l as [|x l IH]; simpl; [done|].
  by rewrite insert_desc_perm, IH.
Qed.

Lemma sort_desc_In x l : In x (sort_desc ge l) <-> In x l.
Proof.
  split; apply Permutation_in; [|symmetry]; apply sort_desc_perm.
Qed.

(** *** For a total preorder: sorted, and stable *)

Hypothesis ge_total : forall x y, ge x y = true \/ ge y x = true.
Hypothesis ge_trans : forall x y z, ge x y = true -> ge y z = true -> ge x z = true.

Lemma insert_desc_sorted x l :
  StronglySorted (fun a b => ge a b = true) l ->
  StronglySorted (fun a b => ge a b = true) (insert_desc ge x l).
Proof.
  induction 1 as [|y l Hsorted IH Hall]; simpl; [by repeat constructor|].
  destruct (ge x y) eqn:Hxy.
  - constructor; [by constructor|]. constructor; [done|].
    eapply Forall_impl; [exact Hall|]. intros z Hyz. by eapply ge_trans.
  - constructor; [done|].
    assert (ge y x = true) as Hyx by (destruct (ge_total x y); congruence).
    rewrite Forall_forall. intros z Hz%list_elem_of_In.
    eapply Permutation_in in Hz; [|apply insert_desc_perm].
    destruct Hz as [<-|Hz]; [done|].
    rewrite Forall_forall in Hall. by apply Hall, list_elem_of_In.
Qed.

Lemma sort_desc_sorted l : StronglySorted (fun a b => ge a b = true) (sort_desc ge l).
Proof.
  induction l as [|x l IH]; simpl; [constructor|]. by apply insert_desc_sorted.
Qed.

Lemma insert_desc_stable a x l :
  StronglySorted (fun a b => ge a b = true) l ->
  List.filter (same_rank ge a) (insert_desc ge x l)
  = List.filter (same_rank ge a) (x :: l).
Proof.
  induction 1 as [|y l Hsorted IH Hall]; [done|].
  cbn [insert_desc]. destruct (ge x y) eqn:Hxy; [done|].
  cbn [List.filter] in *. rewrite IH.
  destruct (same_rank ge a x) eqn:Hax, (same_rank ge a y) eqn:Hay; try done.
  exfalso. unfold same_rank in *.
  apply andb_prop in Hax as [Hax Hxa], Hay as [Hay Hya].
  rewrite (ge_trans x a y) in Hxy; done.
Qed.

Lemma sort_desc_stable a l :
  List.filter (same_rank ge a) (sort_desc ge l) = List.filter (same_rank ge a) l.
Proof.
  induction l as [|x l IH]; [done|].
  cbn [sort_desc]. rewrite insert_desc_stable by apply sort_desc_sorted.
  cbn [List.filter]. by rewrite IH.
Qed.
End SortFacts.

Section LimitFacts.
Context {A : Type}.

Lemma sql_limit_In (n : Z) (l : list A) x : In x (sql_limit n l) -> In x l.
Proof.
  unfold sql_limit. destruct (n <? 0); [done|].
  intros Hin%list_elem_of_In. apply list_elem_of_In.
  by eapply subseteq_take.
Qed.

Lemma py_slice_In (l : list A) (start stop : Z) x :
  In x (Py.slice l start stop) -> In x l.
Proof.
  unfold Py.slice. intros Hin%list_elem_of_In. apply list_elem_of_In.
  eapply subseteq_drop, subseteq_take, Hin.
Qed.
End LimitFacts.

(** *** The ranking key is a total preorder *)

Lemma lex_leb_total a : forall b, lex_leb a b = true \/ lex_leb b a = true.
Proof.
  induction a as [|x a IH]; intros [|y b]; simpl; auto.
  destruct (IH b) as [Hab|Hba]; rewrite ?Hab, ?Hba;
    destruct (Z.ltb_spec x y), (Z.ltb_spec y x), (Z.eqb_spec x y), (Z.eqb_spec y x);
    simpl; auto; lia.
Qed.

Lemma lex_leb_trans a : forall b c,
  lex_leb a b = true -> lex_leb b c = true -> lex_leb a c = true.
Proof.
  induction a as [|x a IH]; intros [|y b] [|z c]; simpl; try done.
  intros Hab Hbc.
  apply orb_prop in Hab as [Hxy%Z.ltb_lt|[Hxy%Z.eqb_eq Hab]%andb_prop];
    apply orb_prop in Hbc as [Hyz%Z.ltb_lt|[Hyz%Z.eqb_eq Hbc]%andb_prop].
  - apply orb_true_intro. left. apply Z.ltb_lt. lia.
  - apply orb_true_intro. left. apply Z.ltb_lt. lia.
  - apply orb_true_intro. left. apply Z.ltb_lt. lia.
  - apply orb_true_intro. right. apply andb_true_intro.
    split; [apply Z.eqb_eq; lia|by eapply IH].
Qed.

Lemma rank_ge_spec a1 t1 a2 t2 :
  rank_ge a1 t1 a2 t2 = true
  <-> (a2 < a1)%Q \/ (a1 == a2)%Q /\ dt_leb t2 t1 = true.
Proof.
  unfold rank_ge. destruct (Qeq_bool a1 a2) eqn:Heq.
  - apply Qeq_bool_eq in Heq. split; [by right|].
    intros [Hlt|[_ ?]]; [|done]. rewrite Heq in Hlt. by apply Qlt_irrefl in Hlt.
  - apply Qeq_bool_neq in Heq. rewrite Qle_bool_iff. split.
    + intros Hle. left. apply Qle_lteq in Hle as [?|Heq']; [done|].
      exfalso. apply Heq. by symmetry.
    + intros [Hlt|[? _]]; [by apply Qlt_le_weak|done].
Qed.

Lemma rank_ge_total a1 t1 a2 t2 :
  rank_ge a1 t1 a2 t2 = true \/ rank_ge a2 t2 a1 t1 = true.
Proof.
  rewrite !rank_ge_spec.
  destruct (Q_dec a1 a2) as [[Hlt|Hgt]|Heq]; [by right; left|by left; left|].
  destruct (lex_leb_total (dt_fields t2) (dt_fields t1)) as [Hle|Hle].
  - left. by right.
  - right. right. split; [by symmetry|done].
Qed.

Lemma rank_ge_trans a1 t1 a2 t2 a3 t3 :
  rank_ge a1 t1 a2 t2 = true -> rank_ge a2 t2 a3 t3 = true ->
  rank_ge a1 t1 a3 t3 = true.
Proof.
  rewrite !rank_ge_spec.
  intros [H12|[E12 T12]] [H23|[E23 T23]].
  - left. by eapply Qlt_trans.
  - left. by rewrite <- E23.
  - left. by rewrite E12.
  - right. split; [by rewrite E12|]. by eapply lex_leb_trans.
Qed.

(** ** Context store *)

Section ContextManagerFacts.
Context `{Runtime}.

Lemma hash_exists_In h rows :
  existsb (fun r => String.eqb (embedding_hash r) h) rows = true
  <-> In h (map embedding_hash rows).
Proof.
  rewrite existsb_exists, in_map_iff. split.
  - intros (r & Hin & Heq). apply String.eqb_eq in Heq. eauto.
  - intros (r & Heq & Hin). exists r. by rewrite String.eqb_eq.
Qed.

Lemma insert_context_chunk_taken row w :
  In (embedding_hash (row (context_chunks_seq w + 1))) (hashes w) ->
  insert_context_chunk row w = (None, w).
Proof.
  intros Hin. unfold insert_context_chunk.
  apply hash_exists_In in Hin. cbv zeta. by rewrite Hin.
Qed.

Lemma insert_context_chunk_fresh row w :
  ~ In (embedding_hash (row (context_chunks_seq w + 1))) (hashes w) ->
  insert_context_chunk row w
  = (Some (context_chunks_seq w + 1),
     set_context_chunks w (context_chunks w ++ [row (context_chunks_seq w + 1)])
                        (context_chunks_seq w + 1)).
Proof.
  intros Hnin. unfold insert_context_chunk. cbv zeta.
  destruct (existsb _ _) eqn:Hex; [|done].
  apply hash_exists_In in Hex. done.
Qed.

(** One turn of the loop of [add_content], spelled out. *)
Lemma add_chunks_cons sid ct imp tags meta chunk rest ids w :
  add_chunks sid ct imp tags meta (chunk :: rest) ids w
  = let w' := set_ticks (set_ticks w (S (ticks w))) (S (S (ticks w))) in
    let row := new_chunk_row sid chunk ct imp (clock (ticks w)) (clock (S (ticks w)))
                             tags meta (embed_text chunk) (_hash_content chunk) in
    match insert_context_chunk row w' with
    | (Some new_id, w'') => add_chunks sid ct imp tags meta rest (ids ++ [new_id]) w''
    | (None, w'') => add_chunks sid ct imp tags meta rest ids w''
    end.
Proof.
  cbn [add_chunks]. unfold bind, now. cbn.
  by destruct (insert_context_chunk _ _) as [[id|] w''].
Qed.

Lemma add_chunks_skips sid ct imp tags meta chunks :
  forall ids w,
    (forall c, In c chunks -> In (_hash_content c) (hashes w)) ->
    fst (add_chunks sid ct imp tags meta chunks ids w) = ids /\
    context_chunks (snd (add_chunks sid ct imp tags meta chunks ids w))
    = context_chunks w.
Proof.
  induction chunks as [|chunk rest IH]; intros ids w Hall; [done|].
  rewrite add_chunks_cons. cbv zeta.
  rewrite insert_context_chunk_taken by (apply Hall; by left).
  destruct (IH ids (set_ticks (set_ticks w (S (ticks w))) (S (S (ticks w)))))
    as [Hids Hrows]; [|done].
  intros c Hc. apply Hall. by right.
Qed.

(** What one call of the loop adds: the rows [stored], appended in
    order, one for each id it returns. *)
Lemma add_chunks_stores sid ct imp tags meta chunks :
  forall ids w,
  exists stored,
    context_chunks (snd (add_chunks sid ct imp tags meta chunks ids w))
    = context_chunks w ++ stored /\
    fst (add_chunks sid ct imp tags meta chunks ids w) = ids ++ map chunk_id stored /\
    Forall (fun r => chunk_session_id r = sid /\ In (chunk_content r) chunks /\
                     embedding_hash r = _hash_content (chunk_content r)) stored /\
    (forall c, In c chunks ->
       In (_hash_content c)
          (hashes (snd (add_chunks sid ct imp tags meta chunks ids w)))) /\
    (NoDup (hashes w) ->
     NoDup (hashes (snd (add_chunks sid ct imp tags meta chunks ids w)))).
Proof.
  induction chunks as [|chunk rest IH]; intros ids w.
  - exists []. simpl. rewrite !app_nil_r. by repeat split.
  - rewrite add_chunks_cons. cbv zeta.
    set (w' := set_ticks (set_ticks w (S (ticks w))) (S (S (ticks w)))).
    set (row := new_chunk_row sid chunk ct imp (clock (ticks w)) (clock (S (ticks w)))
                              tags meta (embed_text chunk) (_hash_content chunk)).
    destruct (in_dec string_dec (_hash_content chunk) (hashes w')) as [Hin|Hnin].
    + rewrite insert_context_chunk_taken by done.
      destruct (IH ids w') as (stored & Hrows & Hids & Hst & Hcov & Hnd).
      exists stored. split; [done|]. split; [done|]. split; [|split; [|done]].
      * eapply Forall_impl; [exact Hst|]. intros r (? & ? & ?). repeat split; [done| |done].
        by right.
      * intros c [<-|Hc]; [|by apply Hcov].
        unfold hashes in *. rewrite Hrows, map_app. apply in_or_app. by left.
    + rewrite insert_context_chunk_fresh by done.
      set (new_id := context_chunks_seq w' + 1).
      set (w'' := set_context_chunks w' (context_chunks w' ++ [row new_id]) new_id).
      destruct (IH (ids ++ [new_id]) w'') as (stored & Hrows & Hids & Hst & Hcov & Hnd).
      exists (row new_id :: stored).
      split; [by rewrite Hrows; simpl; rewrite <- app_assoc|].
      split; [by rewrite Hids; simpl; rewrite <- app_assoc|].
      split; [|split].
      * constructor; [repeat split; by left|].
        eapply Forall_impl; [exact Hst|]. intros r (? & ? & ?). repeat split; [done| |done].
        by right.
      * intros c [<-|Hc]; [|by apply Hcov].
        unfold hashes. rewrite Hrows, map_app. apply in_or_app. left.
        subst w''. simpl. rewrite map_app. apply in_or_app. right. by left.
      * intros Hnodup. apply Hnd. unfold hashes. simpl. rewrite map_app. simpl.
        apply NoDup_app. split; [done|]. split; [|apply NoDup_singleton].
        intros h Hh [<-|[]]%list_elem_of_In. apply Hnin. by apply list_elem_of_In.
Qed.

Lemma chunk_text_default_returns content :
  exists chunks,
    chunk_text (S (length (list_ascii_of_string content)))
               (list_ascii_of_string content) 500 50 = Some chunks /\
    chunk_text_default content = map string_of_list_ascii chunks.
Proof.
  destruct (chunk_text_returns (list_ascii_of_string content) 500 50)
    as [chunks Hret]; [lia|].
  exists chunks. unfold chunk_text_default.
  by rewrite (Hret (S (length (list_ascii_of_string content)))) by lia.
Qed.

(** Re-adding a content finds every one of its chunks stored already,
    whatever session and attributes the second call names. *)
Lemma add_content_again sid ct imp tags meta sid' ct' imp' tags' meta' content w :
  let r1 := add_content sid content ct imp tags meta w in
  let r2 := add_content sid' content ct' imp' tags' meta' (snd r1) in
  (forall c, In c (chunk_text_default content) -> In (_hash_content c) (hashes (snd r1))) /\
  fst r2 = [] /\ context_chunks (snd r2) = context_chunks (snd r1).
Proof.
  cbv zeta. unfold add_content.
  destruct (add_chunks_stores sid ct imp (default [] tags) (default [] meta)
              (chunk_text_default content) [] w) as (stored & _ & _ & _ & Hcov & _).
  split; [done|]. by apply add_chunks_skips.
Qed.

(** *** Retrieval reads one session *)

Lemma keyword_search_rows sid q k w mc :
  In mc (_keyword_search sid q k w) ->
  exists r, In r (context_chunks w) /\ chunk_session_id r = sid /\ mc = chunk_of_row r.
Proof.
  unfold _keyword_search. intros (r & <- & Hin)%in_map_iff.
  apply sql_limit_In, sort_desc_In, filter_In in Hin as [Hin Hsel].
  apply andb_prop in Hsel as [Hsid%String.eqb_eq _]. eauto.
Qed.

Lemma search_by_similarity_rows sid q k m w mc :
  In mc (search_by_similarity sid q k m w) ->
  exists r, In r (context_chunks w) /\ chunk_session_id r = sid /\ mc = chunk_of_row r.
Proof.
  unfold search_by_similarity.
  destruct (embed_text q) as [[|x qe]|]; try apply keyword_search_rows.
  intros ([mc' sim] & <- & Hin)%in_map_iff.
  apply py_slice_In, sort_desc_In, in_flat_map in Hin as (r & Hin & Hres).
  apply filter_In in Hin as [Hin Hsel].
  apply andb_prop in Hsel as [Hsid%String.eqb_eq _].
  exists r. split; [done|]. split; [done|].
  destruct (chunk_embedding r); [|done].
  destruct (Qle_bool _ _); [|done].
  by destruct Hres as [[= <- _]|[]].
Qed.

Lemma context_rows_for_session_rows sid n types w r :
  In r (context_rows_for_session sid n types w) ->
  In r (context_chunks w) /\ chunk_session_id r = sid.
Proof.
  unfold context_rows_for_session.
  intros Hin. apply sql_limit_In, sort_desc_In, filter_In in Hin as [Hin Hsel].
  by apply andb_prop in Hsel as [Hsid%String.eqb_eq _].
Qed.

Lemma unique_hash_row w r r' :
  context_wf w ->
  In r (context_chunks w) -> In r' (context_chunks w) ->
  chunk_content r' = chunk_content r -> r' = r.
Proof.
  intros [Hnd Hcoh] Hr Hr' Hcontent.
  assert (embedding_hash r' = embedding_hash r) as Hhash.
  { rewrite Forall_forall in Hcoh.
    rewrite (Hcoh r'), (Hcoh r) by (by apply list_elem_of_In). by rewrite Hcontent. }
  unfold hashes in Hnd. clear Hcoh Hcontent.
  induction (context_chunks w) as [|x rows IH]; [done|].
  simpl in Hnd. apply NoDup_cons in Hnd as [Hx Hnd].
  destruct Hr as [->|Hr], Hr' as [->|Hr']; [done| | |by apply IH].
  - exfalso. apply Hx. rewrite <- Hhash. apply list_elem_of_In. by apply in_map.
  - exfalso. apply Hx. rewrite Hhash. apply list_elem_of_In. by apply in_map.
Qed.

Lemma add_content_wf sid content ct imp tags meta w :
  context_wf w -> context_wf (snd (add_content sid content ct imp tags meta w)).
Proof.
  intros [Hnd Hcoh]. unfold add_content.
  destruct (add_chunks_stores sid ct imp (default [] tags) (default [] meta)
              (chunk_text_default content) [] w)
    as (stored & Hrows & _ & Hst & _ & Hnd').
  split; [by apply Hnd'|].
  rewrite Hrows. apply Forall_app. split; [done|].
  eapply Forall_impl; [exact Hst|]. by intros r (_ & _ & ?).
Qed.

(** C2. A second [add_content] of the same content, for the same session
    and with the same attributes, returns no new id and leaves the rows
    of [context_chunks] as the first call left them: after the first
    call the hash of every chunk is in the table, so each [INSERT] of the
    second call is refused and skipped. *)
Theorem add_content_idempotent sid content ct imp tags meta w :
  let r1 := add_content sid content ct imp tags meta w in
  let r2 := add_content sid content ct imp tags meta (snd r1) in
  (forall c, In c (chunk_text_default content) ->
             In (_hash_content c) (hashes (snd r1))) /\
  fst r2 = [] /\
  context_chunks (snd r2) = context_chunks (snd r1).
Proof. apply add_content_again. Qed.

(** C10. Chunk deduplication is not scoped by session.  Let session [A]
    add content [c] and then a different session [B] add the same [c]:
    the call for [B] stores no row at all.  Every row the call for [A]
    stored belongs to [A], is the only row of the table with its
    content, and is returned by no retrieval for [B]: neither
    [search_by_similarity], nor [_keyword_search], nor the selection of
    [get_context_for_session] yields a chunk with that content. *)
Theorem dedup_is_global A B c ctA impA tagsA metaA ctB impB tagsB metaB w :
  A <> B ->
  context_wf w ->
  let rA := add_content A c ctA impA tagsA metaA w in
  let rB := add_content B c ctB impB tagsB metaB (snd rA) in
  exists stored,
    context_chunks (snd rA) = context_chunks w ++ stored /\
    fst rA = map chunk_id stored /\
    fst rB = [] /\
    context_chunks (snd rB) = context_chunks (snd rA) /\
    forall r, In r stored ->
      chunk_session_id r = A /\
      In (chunk_content r) (chunk_text_default c) /\
      In r (context_chunks (snd rB)) /\
      (forall r', In r' (context_chunks (snd rB)) ->
                  chunk_content r' = chunk_content r -> r' = r) /\
      (forall q k m, Forall (fun mc => mc_content mc <> chunk_content r)
                            (search_by_similarity B q k m (snd rB))) /\
      (forall q k, Forall (fun mc => mc_content mc <> chunk_content r)
                          (_keyword_search B q k (snd rB))) /\
      (forall n types, Forall (fun r' => chunk_content r' <> chunk_content r)
                              (context_rows_for_session B n types (snd rB))).
Proof.
  intros Hne Hwf rA rB.
  destruct (add_content_again A ctA impA tagsA metaA B ctB impB tagsB metaB c w)
    as (_ & HidsB & HrowsB).
  fold rA in HidsB, HrowsB. fold rB in HidsB, HrowsB.
  assert (context_wf (snd rB)) as HwfB.
  { by apply add_content_wf, add_content_wf. }
  destruct (add_chunks_stores A ctA impA (default [] tagsA) (default [] metaA)
              (chunk_text_default c) [] w) as (stored & Hrows & Hids & Hst & _ & _).
  exists stored. split; [done|]. split; [done|]. split; [done|]. split; [done|].
  intros r Hr.
  assert (In r (context_chunks (snd rB))) as HrB.
  { rewrite HrowsB. unfold rA, add_content. rewrite Hrows. apply in_or_app. by right. }
  rewrite Forall_forall in Hst. destruct (Hst r) as (HsA & Hchunk & _);
    [by apply list_elem_of_In|].
  assert (forall r', In r' (context_chunks (snd rB)) -> chunk_session_id r' = B ->
                     chunk_content r' <> chunk_content r) as Hother.
  { intros r' Hr' HsB Hcontent.
    apply (unique_hash_row (snd rB) r r' HwfB HrB Hr') in Hcontent. congruence. }
  split; [done|]. split; [done|]. split; [done|].
  split; [intros r' Hr' Hcontent; by apply (unique_hash_row (snd rB) r r')|].
  split; [|split].
  - intros q k m. apply Forall_forall. intros mc Hmc%list_elem_of_In.
    apply search_by_similarity_rows in Hmc as (r' & Hr' & HsB & ->). by apply Hother.
  - intros q k. apply Forall_forall. intros mc Hmc%list_elem_of_In.
    apply keyword_search_rows in Hmc as (r' & Hr' & HsB & ->). by apply Hother.
  - intros n types. apply Forall_forall. intros r' Hr'%list_elem_of_In.
    apply context_rows_for_session_rows in Hr' as [Hr' HsB]. by apply Hother.
Qed.
End ContextManagerFacts.

(** C9 at a concrete call: [chunk_size = 4], [overlap = 1]. *)
Lemma chunk_text_terminates_witness :
  1 < 4 /\
  chunk_text 11 [1; 2; 3; 4; 5; 6; 7; 8; 9; 10]%nat 4 1
  = Some [[1; 2; 3; 4]; [4; 5; 6; 7]; [7; 8; 9; 10]]%nat.
Proof.
  split; [lia|].
  destruct (chunk_text_terminates [1; 2; 3; 4; 5; 6; 7; 8; 9; 10]%nat 4 1
              ltac:(lia)) as [[chunks Hret] _].
  rewrite (Hret 11%nat ltac:(simpl; lia)).
  specialize (Hret 12%nat ltac:(simpl; lia)).
  vm_compute in Hret. by injection Hret as <-.
Defined.

(** C1 at a concrete call. *)
Lemma chunk_text_reconstructs_witness :
  0 <= 1 < 4 /\
  exists chunks,
    chunk_text 11 [1; 2; 3; 4; 5; 6; 7; 8; 9; 10]%nat 4 1 = Some chunks /\
    reconstruct 1 chunks = [1; 2; 3; 4; 5; 6; 7; 8; 9; 10]%nat.
Proof.
  split; [lia|].
  destruct (chunk_text_reconstructs [1; 2; 3; 4; 5; 6; 7; 8; 9; 10]%nat 4 1
              ltac:(lia)) as (chunks & Hret & Hrec & _).
  exists chunks. split; [|exact Hrec].
  apply Hret. simpl. lia.
Defined.

(** C10 on the empty store: session [alpha] indexes a text, session [beta]
    then gets nothing stored for the same text. *)
Lemma dedup_is_global_witness :
  "alpha"%string <> "beta"%string /\
  context_wf (H := example_runtime) empty_world /\
  fst (add_content (H := example_runtime) "alpha" "remember the milk" "text" 1%Q None None
         empty_world) = [1] /\
  fst (add_content (H := example_runtime) "beta" "remember the milk" "text" 1%Q None None
         (snd (add_content (H := example_runtime) "alpha" "remember the milk" "text" 1%Q
                 None None empty_world))) = [].
Proof.
  assert ("alpha"%string <> "beta"%string) as Hne by done.
  assert (context_wf (H := example_runtime) empty_world) as Hwf.
  { split; simpl; constructor. }
  split; [done|]. split; [done|].
  destruct (dedup_is_global (H := example_runtime) "alpha" "beta" "remember the milk"
              "text" 1%Q None None "text" 1%Q None None empty_world Hne Hwf)
    as (stored & _ & _ & HidsB & _).
  split; [by vm_compute|exact HidsB].
Defined.

(** ** The ephemeral buffer *)

Section BufferFacts.
Context `{Runtime}.

Lemma add_to_session_memory_disabled c ct tags imp meta self w :
  memory_enabled self = false ->
  add_to_session_memory c ct tags imp meta (self, w) = (-1, (self, w)).
Proof.
  intros Hoff. unfold add_to_session_memory, bind, self_. cbn [fst]. by rewrite Hoff.
Qed.

(** C6. With [memory_enabled] false, [add_to_session_memory] returns [-1]
    and changes nothing: the buffer, both databases and even the clock
    are as before, whatever the arguments. *)
Theorem add_disabled_is_noop c ct tags imp meta (s : EnhancedMemorySystem * World) :
  memory_enabled (fst s) = false ->
  add_to_session_memory c ct tags imp meta s = (-1, s).
Proof.
  destruct s as [self w]. apply add_to_session_memory_disabled.
Qed.

(** An enabled call, step by step. *)
Lemma add_to_session_memory_enabled c ct tags imp meta self w :
  memory_enabled self = true ->
  add_to_session_memory c ct tags imp meta (self, w)
  = let entry := {| content := c; timestamp := clock (ticks w);
                    content_type := ct; tags := default [] tags;
                    importance := imp; metadata := default [] meta;
                    entry_id := None |} in
    let buffer := entry :: session_memory self in
    let buffer :=
      if session_memory_limit self <? Py.len buffer
      then Py.prefix buffer (session_memory_limit self) else buffer in
    let r1 := add_memory_entry (session_id self) c ct imp tags meta
                               (set_ticks w (S (ticks w))) in
    let r2 := add_content (session_id self) c ct imp tags meta (snd r1) in
    (fst r1, (set_session_memory self (assign_entry_id buffer (fst r1)), snd r2)).
Proof.
  intros Hon. unfold add_to_session_memory, bind, self_, storage, now,
    assign_session_memory, ret. cbn [fst snd]. rewrite Hon. cbn [negb fst snd].
  destruct (add_memory_entry _ _ _ _ _ _ _) as [new_id w1]. cbn [fst snd].
  by destruct (add_content _ _ _ _ _ _ _) as [ids w2].
Qed.

Lemma assign_entry_id_payload buffer new_id :
  map entry_payload (assign_entry_id buffer new_id) = map entry_payload buffer.
Proof. by destruct buffer. Qed.

Lemma take_app_take {A : Type} (n : nat) (a b : list A) :
  take n (a ++ take n b) = take n (a ++ b).
Proof.
  rewrite !take_app, take_take. do 2 f_equal. lia.
Qed.

(** The buffer after one enabled call: the new entry in front, cut to the
    capacity. *)
Lemma add_to_session_memory_buffer c ct tags imp meta self w :
  memory_enabled self = true ->
  0 <= session_memory_limit self ->
  let self' := fst (snd (add_to_session_memory c ct tags imp meta (self, w))) in
  memory_enabled self' = true /\
  session_memory_limit self' = session_memory_limit self /\
  map entry_payload (session_memory self')
  = take (Z.to_nat (session_memory_limit self))
         ((c, ct, default [] tags, imp, default [] meta)
            :: map entry_payload (session_memory self)).
Proof.
  intros Hon Hcap. rewrite add_to_session_memory_enabled by done.
  cbn [fst snd set_session_memory memory_enabled session_memory_limit session_memory].
  split; [done|]. split; [done|].
  rewrite assign_entry_id_payload.
  destruct (Z.ltb_spec (session_memory_limit self)
              (Py.len ({| content := c; timestamp := clock (ticks w);
                          content_type := ct; tags := default [] tags;
                          importance := imp; metadata := default [] meta;
                          entry_id := None |} :: session_memory self))) as [Hfull|Hroom].
  - rewrite py_prefix_take by done. by rewrite <- firstn_map.
  - rewrite take_ge; [done|]. unfold Py.len in Hroom. simpl in *.
    rewrite length_map. lia.
Qed.

Lemma add_all_buffer calls :
  forall self w,
    memory_enabled self = true ->
    0 <= session_memory_limit self ->
    let self' := fst (snd (add_all calls (self, w))) in
    session_memory_limit self' = session_memory_limit self /\
    map entry_payload (session_memory self')
    = take (Z.to_nat (session_memory_limit self))
           (rev (map call_payload calls) ++ map entry_payload (session_memory self)) \/
    calls = [] /\ self' = self.
Proof.
  induction calls as [|c rest IH]; intros self w Hon Hcap; [by right|left].
  cbn [add_all]. unfold bind.
  destruct (add_to_session_memory _ _ _ _ _ (self, w)) as [new_id [self1 w1]] eqn:Hadd.
  pose proof (add_to_session_memory_buffer (call_content c) (call_content_type c)
                (call_tags c) (call_importance c) (call_metadata c) self w Hon Hcap)
    as (Hon1 & Hcap1 & Hbuf1).
  rewrite Hadd in Hon1, Hcap1, Hbuf1. cbn [fst snd] in Hon1, Hcap1, Hbuf1.
  destruct (IH self1 w1 Hon1 ltac:(lia)) as [[Hcap' Hbuf']|[-> Hsame]].
  - split; [congruence|]. rewrite Hbuf', Hbuf1, Hcap1, take_app_take.
    simpl. by rewrite <- app_assoc.
  - rewrite Hsame. split; [done|]. by rewrite Hbuf1.
Qed.

(** C5. Through any run of calls of [add_to_session_memory] on a buffer
    within its capacity, the buffer stays within its capacity.  When memory
    is enabled, the buffer holds the payloads of the calls newest first, in
    front of what it held before, cut to the capacity; so after more calls
    than the capacity its length is the capacity and it holds exactly the
    latest calls, newest first: the oldest entries are the ones dropped,
    whatever their importance. *)
Theorem ephemeral_buffer_bounded calls (s : EnhancedMemorySystem * World) :
  0 <= session_memory_limit (fst s) ->
  Py.len (session_memory (fst s)) <= session_memory_limit (fst s) ->
  let self' := fst (snd (add_all calls s)) in
  let capacity := session_memory_limit (fst s) in
  session_memory_limit self' = capacity /\
  Py.len (session_memory self') <= capacity /\
  (memory_enabled (fst s) = true ->
   map entry_payload (session_memory self')
   = take (Z.to_nat capacity)
          (rev (map call_payload calls) ++ map entry_payload (session_memory (fst s))) /\
   (capacity < Z.of_nat (length calls) ->
    Py.len (session_memory self') = capacity /\
    map entry_payload (session_memory self')
    = take (Z.to_nat capacity) (rev (map call_payload calls)))).
Proof.
  destruct s as [self w]. cbn [fst]. intros Hcap Hfits. cbv zeta.
  destruct (memory_enabled self) eqn:Hon.
  - assert (session_memory_limit (fst (snd (add_all calls (self, w))))
            = session_memory_limit self /\
            map entry_payload (session_memory (fst (snd (add_all calls (self, w)))))
            = take (Z.to_nat (session_memory_limit self))
                   (rev (map call_payload calls) ++ map entry_payload (session_memory self)))
      as [Hcap' Hbuf].
    { destruct (add_all_buffer calls self w Hon Hcap) as [?|[-> ->]]; [done|].
      split; [done|]. simpl. rewrite take_ge; [done|].
      rewrite length_map. unfold Py.len in Hfits. lia. }
    split; [done|].
    assert (Py.len (session_memory (fst (snd (add_all calls (self, w)))))
            = Z.of_nat (length (map entry_payload
                                  (session_memory (fst (snd (add_all calls (self, w))))))))
      as Hlen by (by rewrite length_map).
    split; [rewrite Hlen, Hbuf, length_take; lia|].
    intros _. split; [done|]. intros Hmany.
    rewrite Hlen, Hbuf, take_app_le by (rewrite length_rev, length_map; lia).
    split; [|done]. rewrite length_take, length_rev, length_map. lia.
  - assert (snd (add_all calls (self, w)) = (self, w)) as ->.
    { clear Hfits Hcap. induction calls as [|c rest IH]; [done|].
      cbn [add_all]. unfold bind. rewrite add_to_session_memory_disabled by done.
      exact IH. }
    cbn [fst]. split; [done|]. split; [done|]. done.
Qed.
End BufferFacts.

(** ** Search *)

Section SearchFacts.
Context `{Runtime}.

Lemma unique_by_hash_spec all :
  forall seen acc,
  exists kept,
    unique_by_hash all seen acc = acc ++ kept /\
    sublist kept all /\
    NoDup (map digest kept) /\
    (forall e, In e kept -> digest e ∉ seen) /\
    (forall e, In e all -> digest e ∈ seen \/ In (digest e) (map digest kept)) /\
    (forall e, In e kept ->
       exists before after, all = before ++ e :: after /\
                            ~ In (digest e) (map digest before)).
Proof.
  induction all as [|entry rest IH]; intros seen acc.
  - exists []. simpl. rewrite app_nil_r. repeat split; try done. constructor.
  - cbn [unique_by_hash]. fold (digest entry).
    destruct (decide (digest entry ∈ seen)) as [Hseen|Hnew].
    + destruct (IH seen acc) as (kept & Heq & Hsub & Hnd & Hout & Hcov & Hfirst).
      exists kept. split; [done|]. split; [by apply sublist_cons|]. split; [done|].
      split; [done|]. split.
      * intros e [<-|He]; [by left|by apply Hcov].
      * intros e He. destruct (Hfirst e He) as (before & after & -> & Hbefore).
        exists (entry :: before), after. split; [done|].
        intros [Hsame|Hin]; [|done].
        apply (Hout e He). by rewrite <- Hsame.
    + destruct (IH ({[digest entry]} ∪ seen) (acc ++ [entry]))
        as (kept & Heq & Hsub & Hnd & Hout & Hcov & Hfirst).
      exists (entry :: kept). split; [by rewrite Heq, <- app_assoc|].
      split; [by apply sublist_skip|]. split; [|split; [|split]].
      * simpl. apply NoDup_cons. split; [|done].
        intros (e & Hsame & He)%list_elem_of_In%in_map_iff.
        apply (Hout e He). set_solver.
      * intros e [<-|He]; [done|]. specialize (Hout e He). set_solver.
      * intros e [<-|He]; [right; by left|].
        destruct (Hcov e He) as [Hin|Hin]; [|right; by right].
        apply elem_of_union in Hin as [->%elem_of_singleton|Hin]; [right; by left|by left].
      * intros e [<-|He].
        -- exists [], rest. split; [done|]. by intros [].
        -- destruct (Hfirst e He) as (before & after & -> & Hbefore).
           exists (entry :: before), after. split; [done|].
           intros [Hsame|Hin]; [|done].
           apply (Hout e He). set_solver.
Qed.

Lemma unique_by_hash_first_wins all : first_wins all (unique_by_hash all ∅ []).
Proof.
  destruct (unique_by_hash_spec all ∅ []) as (kept & -> & Hsub & Hnd & _ & Hcov & Hfirst).
  simpl. repeat split; [done|done| |done].
  intros e He. destruct (Hcov e He) as [Hin|Hin]; [set_solver|done].
Qed.

Lemma memory_rank_ge_total e1 e2 :
  memory_rank_ge e1 e2 = true \/ memory_rank_ge e2 e1 = true.
Proof. apply rank_ge_total. Qed.

Lemma memory_rank_ge_trans e1 e2 e3 :
  memory_rank_ge e1 e2 = true -> memory_rank_ge e2 e3 = true ->
  memory_rank_ge e1 e3 = true.
Proof. apply rank_ge_trans. Qed.

Lemma search_disabled query ct max_results (s : EnhancedMemorySystem * World) :
  memory_enabled (fst s) = false ->
  search_session_memory query ct max_results s = [].
Proof. destruct s as [self w]. simpl. unfold search_session_memory. by intros ->. Qed.

(** C3, as the code has it.  With memory enabled, [search_session_memory]
    puts the Context Manager results first, then the buffer entries whose
    lower-cased content contains the lower-cased query, then the Storage
    Engine matches; keeps the first entry of every content digest; sorts
    what is left by [(importance, timestamp)] descending (entries of equal
    key keep their order); and returns the slice [[:max_results]]. *)
Theorem search_merges_when_enabled query ct max_results
    (s : EnhancedMemorySystem * World) :
  memory_enabled (fst s) = true ->
  merged_ranking query ct max_results s
                 (search_session_memory query ct max_results s).
Proof.
  destruct s as [self w]. cbn [fst]. intros Hon.
  unfold merged_ranking, search_session_memory. cbn [fst snd]. rewrite Hon. cbn [negb].
  set (all := _ ++ _ ++ _).
  exists (unique_by_hash all ∅ []), (sort_desc memory_rank_ge (unique_by_hash all ∅ [])).
  split; [apply unique_by_hash_first_wins|].
  split; [apply sort_desc_perm|].
  split; [apply sort_desc_sorted;
          [apply memory_rank_ge_total|apply memory_rank_ge_trans]|].
  split; [intros a; apply sort_desc_stable;
          [apply memory_rank_ge_total|apply memory_rank_ge_trans]|].
  split; [done|]. apply py_prefix_take.
Qed.
End SearchFacts.

(** C3 on a session with one note. *)
Lemma search_merges_when_enabled_witness :
  memory_enabled (fst example_one_note) = true /\
  merged_ranking (H := example_runtime) "MILK" None 10 example_one_note
    (search_session_memory (H := example_runtime) "MILK" None 10 example_one_note) /\
  map content (search_session_memory (H := example_runtime) "MILK" None 10
                 example_one_note) = ["buy milk"%string].
Proof.
  assert (memory_enabled (fst example_one_note) = true) as Hon by (by vm_compute).
  split; [done|]. split; [|by vm_compute].
  exact (search_merges_when_enabled (H := example_runtime) "MILK" None 10
           example_one_note Hon).
Defined.

(** C3 as stated fails once memory is switched off: the note is still in
    both stores, so the merged ranking is not empty, but the search
    returns nothing. *)
Lemma search_not_merged_when_disabled :
  ~ merged_ranking (H := example_runtime) "milk" None 10 example_disabled
      (search_session_memory (H := example_runtime) "milk" None 10 example_disabled).
Proof.
  rewrite search_disabled by (by vm_compute).
  intros (unique & ranked & (_ & _ & Hcov & _) & Hperm & _ & _ & _ & Htake).
  specialize (Htake ltac:(lia)).
  remember (_ ++ _ ++ _) as all eqn:Hall in Hcov. vm_compute in Hall. subst all.
  specialize (Hcov _ (or_introl eq_refl)).
  apply Permutation_length in Hperm.
  destruct unique as [|e unique]; [done|].
  destruct ranked as [|r ranked]; [done|]. done.
Qed.

(** C6 on the session whose memory was switched off. *)
Lemma add_disabled_is_noop_witness :
  memory_enabled (fst example_disabled) = false /\
  add_to_session_memory (H := example_runtime) "call mum" "text" None 1%Q None
    example_disabled = (-1, example_disabled).
Proof.
  assert (memory_enabled (fst example_disabled) = false) as Hoff by (by vm_compute).
  split; [done|].
  exact (add_disabled_is_noop (H := example_runtime) "call mum" "text" None 1%Q None
           example_disabled Hoff).
Defined.

(** C5 with capacity 2 and three calls: the first note is gone. *)
Lemma ephemeral_buffer_bounded_witness :
  0 <= session_memory_limit (fst example_small) /\
  Py.len (session_memory (fst example_small)) <= session_memory_limit (fst example_small) /\
  map content (session_memory
                 (fst (snd (add_all (H := example_runtime) example_calls example_small))))
  = ["third"; "second"]%string.
Proof.
  assert (0 <= session_memory_limit (fst example_small)) as Hcap by (vm_compute; discriminate).
  assert (Py.len (session_memory (fst example_small))
          <= session_memory_limit (fst example_small)) as Hfits
    by (vm_compute; discriminate).
  split; [done|]. split; [done|].
  destruct (ephemeral_buffer_bounded (H := example_runtime) example_calls example_small
              Hcap Hfits) as (_ & _ & Hbuf).
  destruct (Hbuf eq_refl) as (_ & Hmany).
  destruct (Hmany ltac:(vm_compute; reflexivity)) as (_ & Hlatest).
  apply (f_equal (map (fun p => fst (fst (fst (fst p)))))) in Hlatest.
  rewrite map_map in Hlatest. exact Hlatest.
Defined.

(** ** Snapshot names *)

(** C8 at names with an underscore.  After [save_session_memory("my_notes")]
    the list of [get_available_sessions] is [["my"]]: [split('_', 2)] cuts
    the name at its own underscore.  And with snapshots [a] (one note) and,
    later, [a_b] (two notes), [load_session_memory("a")] restores the two
    notes of [a_b]: the pattern [saved_a_%] matches [saved_a_b_...] too,
    and that session is the newer one. *)
Theorem snapshot_name_with_underscore_lost :
  fst (save_session_memory (H := example_runtime) "my_notes" example_one_note) = true /\
  map sess_session_id (sessions (snd example_saved_my_notes))
  = ["demo"; "saved_my_notes_20240101_000000_000007"]%string /\
  get_available_sessions example_saved_my_notes = ["my"%string] /\
  ~ In "my_notes"%string (get_available_sessions example_saved_my_notes) /\
  latest_session_like "saved_a_%" (snd example_two_snapshots)
  = Some "saved_a_b_20240101_000000_000017"%string /\
  map entry_content
      (get_memory_entries "saved_a_20240101_000000_000007" 10000 0
                          (snd example_two_snapshots))
  = ["buy milk"%string] /\
  (let r := load_session_memory (H := example_runtime) "a" example_two_snapshots in
   fst r = true /\
   map entry_content
       (get_memory_entries "demo" 10000 0 (snd (snd r)))
   = ["call mum"; "buy milk"]%string).
Proof.
  split; [by vm_compute|]. split; [by vm_compute|].
  assert (get_available_sessions example_saved_my_notes = ["my"%string]) as Hnames
    by (by vm_compute).
  split; [done|]. split.
  - rewrite Hnames. by intros [[=]|[]].
  - split; [by vm_compute|]. split; by vm_compute.
Qed.

(** ** Storage frames *)

Section StorageFacts.
Context `{Runtime}.

Lemma create_session_eq sid path meta w :
  create_session sid path meta w
  = if session_exists sid w
    then (false, set_ticks w (S (S (ticks w))))
    else (true,
          set_sessions (set_ticks w (S (S (ticks w))))
            (sessions w ++ [{| sess_session_id := sid;
                               sess_project_path := path;
                               sess_created_at := clock (ticks w);
                               sess_updated_at := clock (S (ticks w));
                               sess_metadata := default [] meta |}])).
Proof.
  unfold create_session, bind, now, session_exists. cbn.
  by destruct (existsb _ (sessions w)).
Qed.

Lemma stamp_chunks_durable entry_id chunks :
  forall w, durable (snd (stamp_chunks entry_id chunks w)) = durable w.
Proof.
  induction chunks as [|[index chunk] rest IH]; intros w; [done|].
  cbn [stamp_chunks]. unfold bind, now, ret.
  specialize (IH (set_ticks w (S (ticks w)))).
  destruct (stamp_chunks entry_id rest _) as [rows w']. cbn [snd] in *. by rewrite IH.
Qed.

Lemma insert_memory_chunks_durable rows :
  forall w, durable (snd (insert_memory_chunks rows w)) = durable w.
Proof.
  induction rows as [|row rest IH]; intros w; [done|].
  cbn [insert_memory_chunks]. unfold bind. by rewrite IH.
Qed.

Lemma chunk_and_store_content_durable entry_id content w :
  durable (snd (_chunk_and_store_content entry_id content w)) = durable w.
Proof.
  unfold _chunk_and_store_content, bind.
  pose proof (stamp_chunks_durable entry_id (fixed_chunks content 500) w) as Hstamp.
  destruct (stamp_chunks _ _ w) as [rows w']. by rewrite insert_memory_chunks_durable.
Qed.

Lemma add_chunks_durable sid ct imp tags meta chunks :
  forall ids w, durable (snd (add_chunks sid ct imp tags meta chunks ids w)) = durable w.
Proof.
  induction chunks as [|chunk rest IH]; intros ids w; [done|].
  rewrite add_chunks_cons. cbv zeta. unfold insert_context_chunk.
  destruct (existsb _ _); by rewrite IH.
Qed.

Lemma add_content_durable sid content ct imp tags meta w :
  durable (snd (add_content sid content ct imp tags meta w)) = durable w.
Proof. apply add_chunks_durable. Qed.

(** What [add_memory_entry] does to the two tables: one more entry, and
    the session row when it was missing. *)
Lemma add_memory_entry_durable sid c ct imp tags meta w :
  exists row,
    memory_entries (snd (add_memory_entry sid c ct imp tags meta w))
    = memory_entries w ++ [row] /\
    entry_session_id row = sid /\
    row_payload row = (c, ct, default [] tags, imp, default [] meta) /\
    (session_exists sid w = true ->
     sessions (snd (add_memory_entry sid c ct imp tags meta w)) = sessions w) /\
    session_exists sid (snd (add_memory_entry sid c ct imp tags meta w)) = true.
Proof.
  unfold add_memory_entry, bind, ret. cbn [fst snd].
  set (w1 := snd ((if session_exists sid w then (fun s => (false, s))
                   else create_session sid cwd (Some [])) w)).
  assert (memory_entries w1 = memory_entries w /\
          (session_exists sid w = true -> sessions w1 = sessions w) /\
          session_exists sid w1 = true) as (Hentries & Hsessions & Hexists).
  { subst w1. destruct (session_exists sid w) eqn:Hex; [done|].
    rewrite create_session_eq, Hex. cbn. split; [done|]. split; [done|].
    unfold session_exists. cbn. rewrite existsb_app. cbn.
    by rewrite String.eqb_refl, orb_true_r. }
  replace ((if session_exists sid w then (fun s => (false, s))
            else create_session sid cwd (Some [])) w) with
    (fst ((if session_exists sid w then (fun s => (false, s))
           else create_session sid cwd (Some [])) w), w1)
    by (subst w1; by destruct (_ w)).
  unfold now. cbn [fst snd].
  eexists. destruct (1000 <? _).
  - pose proof (chunk_and_store_content_durable) as Hframe.
    match goal with |- context [_chunk_and_store_content ?i ?x ?w'] =>
      specialize (Hframe i x w'); destruct (_chunk_and_store_content i x w') as [[] w2]
    end.
    cbn [fst snd] in *. injection Hframe as Hs He. rewrite He, Hs. cbn.
    rewrite Hentries. split; [reflexivity|]. split; [done|]. split; [done|].
    split; [done|]. unfold session_exists in *. by rewrite Hs.
  - cbn. rewrite Hentries. split; [reflexivity|]. done.
Qed.

(** [add_memory_entry] never removes a session row. *)
Lemma add_memory_entry_sessions sid c ct imp tags meta w :
  exists extra,
    sessions (snd (add_memory_entry sid c ct imp tags meta w)) = sessions w ++ extra.
Proof.
  unfold add_memory_entry, bind, ret. cbn [fst snd].
  set (w1 := snd ((if session_exists sid w then (fun s => (false, s))
                   else create_session sid cwd (Some [])) w)).
  assert (exists extra, sessions w1 = sessions w ++ extra) as [extra Hsessions].
  { subst w1. destruct (session_exists sid w) eqn:Hex.
    - exists []. by rewrite app_nil_r.
    - rewrite create_session_eq, Hex. cbn. by eexists. }
  replace ((if session_exists sid w then (fun s => (false, s))
            else create_session sid cwd (Some [])) w) with
    (fst ((if session_exists sid w then (fun s => (false, s))
           else create_session sid cwd (Some [])) w), w1)
    by (subst w1; by destruct (_ w)).
  unfold now. cbn [fst snd].
  exists extra. destruct (1000 <? _).
  - pose proof (chunk_and_store_content_durable) as Hframe.
    match goal with |- context [_chunk_and_store_content ?i ?x ?w'] =>
      specialize (Hframe i x w'); destruct (_chunk_and_store_content i x w') as [[] w2]
    end.
    cbn [fst snd] in *. injection Hframe as Hs He. by rewrite Hs.
  - done.
Qed.

(** *** What every reachable store satisfies *)

Lemma entries_have_sessions_grow w w' extra row :
  entries_have_sessions w ->
  sessions w' = sessions w ++ extra ->
  memory_entries w' = memory_entries w ++ [row] ->
  session_exists (entry_session_id row) w' = true ->
  entries_have_sessions w'.
Proof.
  unfold entries_have_sessions, session_exists.
  intros Hwf Hsessions Hentries Hrow. rewrite Hentries, Hsessions.
  apply Forall_app. split.
  - eapply Forall_impl; [exact Hwf|]. intros e He.
    by rewrite existsb_app, He.
  - constructor; [|constructor]. by rewrite <- Hsessions.
Qed.

Lemma add_memory_entry_keeps_sessions sid c ct imp tags meta w :
  entries_have_sessions w ->
  entries_have_sessions (snd (add_memory_entry sid c ct imp tags meta w)).
Proof.
  intros Hwf.
  destruct (add_memory_entry_durable sid c ct imp tags meta w)
    as (row & Hentries & Hsid & _ & _ & Hexists).
  destruct (add_memory_entry_sessions sid c ct imp tags meta w) as [extra Hsessions].
  eapply entries_have_sessions_grow; [exact Hwf|exact Hsessions|exact Hentries|].
  by rewrite Hsid.
Qed.
End StorageFacts.

(** ** Snapshots *)

Section LikeFacts.

Lemma append_cons (x : ascii) (a b : string) : String x a +:+ b = String x (a +:+ b).
Proof. reflexivity. Qed.

Lemma append_assoc (a b c : string) : (a +:+ b) +:+ c = a +:+ (b +:+ c).
Proof.
  induction a as [|x a IH]; [reflexivity|]. rewrite !append_cons. by f_equal.
Qed.

(** [LIKE] unfolded one pattern character. *)
Lemma like_cons p pattern text :
  Text.like (String p pattern) text
  = if Ascii.eqb p "%" then
      Text.like pattern text ||
      match text with
      | EmptyString => false
      | String _ text' => Text.like (String p pattern) text'
      end
    else
      match text with
      | EmptyString => false
      | String c text' =>
          (Ascii.eqb p "_" || Ascii.eqb (Text.lower_ascii p) (Text.lower_ascii c))
          && Text.like pattern text'
      end.
Proof.
  destruct text as [|c text']; cbn [Text.like]; destruct (Ascii.eqb p "%"); reflexivity.
Qed.

Lemma like_percent text : Text.like "%" text = true.
Proof.
  induction text as [|c text IH]; [done|].
  rewrite like_cons. cbn [Ascii.eqb Bool.eqb]. by rewrite IH, orb_true_r.
Qed.

(** A text matches the pattern made of any of its prefixes and [%], even
    when the prefix has wildcard characters of its own. *)
Lemma like_prefix p : forall rest, Text.like (p +:+ "%") (p +:+ rest) = true.
Proof.
  induction p as [|c p IH]; intros rest; [apply like_percent|].
  rewrite !append_cons, like_cons.
  destruct (Ascii.eqb c "%") eqn:Hc.
  - apply orb_true_intro. right.
    destruct (p +:+ rest) as [|d text] eqn:Htext.
    + destruct p; [|done]. change (rest = ""%string) in Htext. subst rest.
      rewrite like_cons, Hc. done.
    + rewrite like_cons, Hc. apply orb_true_intro. left.
      rewrite <- Htext. apply IH.
  - by rewrite Ascii.eqb_refl, orb_true_r, IH.
Qed.
End LikeFacts.

Section SnapshotFacts.
Context `{Runtime}.

(** A row newer than all the others comes first. *)
Lemma sort_desc_newest {A : Type} (ge : A -> A -> bool) (l : list A) (x : A) :
  (forall y, In y l -> ge y x = false) ->
  sort_desc ge (l ++ [x]) = x :: sort_desc ge l.
Proof.
  induction l as [|y l IH]; intros Hnewer; [done|].
  cbn [app sort_desc]. rewrite IH by (intros z Hz; apply Hnewer; by right).
  cbn [insert_desc]. by rewrite Hnewer by (by left).
Qed.

Lemma sql_limit_all {A : Type} (n : Z) (l : list A) :
  Z.of_nat (length l) <= n -> sql_limit n l = l.
Proof.
  intros Hle. unfold sql_limit. destruct (Z.ltb_spec n 0); [done|].
  apply take_ge. lia.
Qed.

Lemma get_memory_entries_all sid w :
  Py.len (entries_of sid w) <= 10000 ->
  get_memory_entries sid 10000 0 w = sort_desc entry_rank_ge (entries_of sid w).
Proof.
  intros Hle. unfold get_memory_entries, sql_offset. fold (entries_of sid w).
  change (Z.to_nat 0) with O. rewrite drop_0. apply sql_limit_all.
  by rewrite (Permutation_length (sort_desc_perm entry_rank_ge (entries_of sid w))).
Qed.

Lemma session_exists_app sid w rows :
  session_exists sid (set_sessions w (sessions w ++ rows))
  = session_exists sid w || existsb (fun r => String.eqb (sess_session_id r) sid) rows.
Proof. unfold session_exists. cbn. apply existsb_app. Qed.

(** The loop of [save_session_memory] appends one copy per entry, in
    order, under the backup session. *)
Lemma copy_entries_durable backup entries :
  forall w,
    session_exists backup w = true ->
    exists copies,
      memory_entries (snd (copy_entries backup entries w)) = memory_entries w ++ copies /\
      map row_payload copies = map row_payload entries /\
      Forall (fun r => entry_session_id r = backup) copies /\
      sessions (snd (copy_entries backup entries w)) = sessions w.
Proof.
  induction entries as [|entry rest IH]; intros w Hexists.
  - exists []. cbn. by rewrite app_nil_r.
  - cbn [copy_entries]. unfold bind.
    destruct (add_memory_entry_durable backup (entry_content entry)
                (entry_content_type entry) (entry_importance entry)
                (Some (entry_tags entry)) (Some (entry_metadata entry)) w)
      as (row & Hentries & Hsid & Hpayload & Hsessions & Hexists').
    destruct (add_memory_entry _ _ _ _ _ _ w) as [new_id w1]. cbn [snd] in *.
    destruct (IH w1 Hexists') as (copies & Hentries' & Hpayloads & Hsids & Hsessions').
    exists (row :: copies). rewrite Hentries', Hentries, <- app_assoc.
    split; [done|]. split; [cbn [map]; by rewrite Hpayload, Hpayloads|].
    split; [by constructor|]. rewrite Hsessions'. by apply Hsessions.
Qed.

Lemma save_session_memory_durable name self w :
  session_exists (snapshot_id name (clock (ticks w))) w = false ->
  Py.len (entries_of (session_id self) w) <= 10000 ->
  exists brow copies w',
    save_session_memory name (self, w) = (true, (self, w')) /\
    sessions w' = sessions w ++ [brow] /\
    sess_session_id brow = snapshot_id name (clock (ticks w)) /\
    sess_created_at brow = clock (S (ticks w)) /\
    memory_entries w' = memory_entries w ++ copies /\
    Permutation (map row_payload copies)
                (map row_payload (entries_of (session_id self) w)) /\
    Forall (fun r => entry_session_id r = snapshot_id name (clock (ticks w))) copies.
Proof.
  intros Hfresh Hsmall.
  set (backup := snapshot_id name (clock (ticks w))) in *.
  unfold save_session_memory, bind, storage, self_, now, ret. cbn [fst snd].
  fold backup. rewrite create_session_eq.
  change (session_exists backup (set_ticks w (S (ticks w))))
    with (session_exists backup w). rewrite Hfresh. cbn [fst snd].
  set (brow := {| sess_session_id := backup; sess_project_path := project_path self;
                  sess_created_at := clock (S (ticks w));
                  sess_updated_at := clock (S (S (ticks w)));
                  sess_metadata := default [] None |}).
  set (w1 := set_sessions _ _).
  rewrite (get_memory_entries_all (session_id self) w1) by done.
  change (entries_of (session_id self) w1) with (entries_of (session_id self) w).
  destruct (copy_entries_durable backup
              (sort_desc entry_rank_ge (entries_of (session_id self) w)) w1)
    as (copies & Hentries & Hpayloads & Hsids & Hsessions).
  { subst w1. unfold session_exists. cbn. rewrite existsb_app. cbn.
    by rewrite String.eqb_refl, orb_true_r. }
  destruct (copy_entries backup _ w1) as [[] w2]. cbn [snd] in *.
  exists brow, copies, w2. split; [done|]. split; [done|]. split; [done|].
  split; [done|]. split; [done|]. split; [|done].
  rewrite Hpayloads. apply Permutation_map, sort_desc_perm.
Qed.

Lemma clear_all_memory_durable self w :
  exists w',
    clear_all_memory (self, w) = (tt, (set_session_memory self [], w')) /\
    sessions w' = sessions w /\
    memory_entries w'
    = List.filter (fun r => negb (String.eqb (entry_session_id r) (session_id self)))
                  (memory_entries w).
Proof.
  unfold clear_all_memory, clear_session_memory, clear_persistent_memory,
    assign_session_memory, bind, storage, self_, ret,
    delete_session_memory, delete_session_content. cbn.
  eexists. split; [reflexivity|]. done.
Qed.

(** The loop of [load_session_memory] puts one entry per backup entry, in
    order, into the current session. *)
Lemma restore_entries_durable entries :
  forall self w,
    memory_enabled self = true ->
    exists rows self' w',
      restore_entries entries (self, w) = (tt, (self', w')) /\
      session_id self' = session_id self /\
      memory_entries w' = memory_entries w ++ rows /\
      map row_payload rows = map row_payload entries /\
      Forall (fun r => entry_session_id r = session_id self) rows.
Proof.
  induction entries as [|entry rest IH]; intros self w Hon.
  - exists [], self, w. cbn. by rewrite app_nil_r.
  - cbn [restore_entries]. unfold bind.
    rewrite add_to_session_memory_enabled by done. cbv zeta.
    destruct (add_memory_entry_durable (session_id self) (entry_content entry)
                (entry_content_type entry) (entry_importance entry)
                (Some (entry_tags entry)) (Some (entry_metadata entry))
                (set_ticks w (S (ticks w))))
      as (row & Hentries & Hsid & Hpayload & _ & _).
    destruct (add_memory_entry _ _ _ _ _ _ _) as [new_id w1]. cbn [fst snd] in *.
    pose proof (add_content_durable (session_id self) (entry_content entry)
                  (entry_content_type entry) (entry_importance entry)
                  (Some (entry_tags entry)) (Some (entry_metadata entry)) w1) as Hframe.
    destruct (add_content _ _ _ _ _ _ w1) as [ids w2]. cbn [snd] in *.
    injection Hframe as _ Hentries2.
    match goal with |- context [restore_entries rest (?self1, w2)] =>
      destruct (IH self1 w2 Hon) as (rows & self' & w' & Hrun & Hsame & Hentries' & Hpayloads & Hsids)
    end.
    exists (row :: rows), self', w'. rewrite Hrun. split; [done|]. split; [done|].
    rewrite Hentries', Hentries2, Hentries, <- app_assoc.
    split; [done|]. split; [cbn [map]; by rewrite Hpayload, Hpayloads|].
    by constructor.
Qed.

Lemma filter_none {A : Type} (f : A -> bool) (l : list A) :
  (forall x, In x l -> f x = false) -> List.filter f l = [].
Proof.
  induction l as [|x l IH]; intros Hall; [done|].
  cbn [List.filter]. rewrite (Hall x) by (by left). apply IH. intros y Hy. apply Hall. by right.
Qed.

Lemma filter_all {A : Type} (f : A -> bool) (l : list A) :
  (forall x, In x l -> f x = true) -> List.filter f l = l.
Proof.
  induction l as [|x l IH]; intros Hall; [done|].
  cbn [List.filter]. rewrite (Hall x) by (by left). f_equal. apply IH.
  intros y Hy. apply Hall. by right.
Qed.

Lemma snapshot_id_like name stamp :
  Text.like (snapshot_pattern name) (snapshot_id name stamp) = true.
Proof.
  unfold snapshot_pattern, snapshot_id.
  change "_%"%string with ("_" +:+ "%")%string.
  rewrite <- !append_assoc. apply like_prefix.
Qed.

(** The snapshot made last is the one the [SELECT] of
    [load_session_memory] returns. *)
Lemma latest_session_like_newest pattern w brow rows :
  sessions w = rows ++ [brow] ->
  Text.like pattern (sess_session_id brow) = true ->
  Forall (fun r => Text.like pattern (sess_session_id r) = true ->
                   dt_leb (sess_created_at brow) (sess_created_at r) = false) rows ->
  latest_session_like pattern w = Some (sess_session_id brow).
Proof.
  intros Hsessions Hlike Hnewer. unfold latest_session_like.
  rewrite Hsessions, List.filter_app. cbn [List.filter]. rewrite Hlike.
  rewrite sort_desc_newest.
  - unfold sql_limit. by cbn.
  - intros r [Hr Hmatch]%filter_In.
    rewrite Forall_forall in Hnewer. apply Hnewer; [by apply list_elem_of_In|done].
Qed.

(** A new façade object has its session row, an empty buffer, the capacity
    100, and leaves every entry with its session row. *)
Lemma init_ready sid path enabled w :
  session_exists (session_id (fst (__init__ sid path enabled w)))
                 (snd (__init__ sid path enabled w)) = true /\
  session_memory (fst (__init__ sid path enabled w)) = [] /\
  session_memory_limit (fst (__init__ sid path enabled w)) = 100 /\
  memory_enabled (fst (__init__ sid path enabled w)) = enabled /\
  (entries_have_sessions w -> entries_have_sessions (snd (__init__ sid path enabled w))).
Proof.
  unfold __init__, bind, ret, now.
  destruct sid as [[|a sid']|]; rewrite create_session_eq;
    (match goal with
     | |- context [if session_exists ?a ?b then _ else _] =>
         destruct (session_exists a b) eqn:Hex
     end;
     unfold session_exists, entries_have_sessions in *; cbn in *;
     [by repeat split|]);
    rewrite !existsb_app; cbn [existsb]; rewrite String.eqb_refl; cbn [orb];
    rewrite orb_true_r;
    (split; [done|]); (split; [done|]); (split; [done|]); (split; [done|]);
    intros Hwf; (eapply Forall_impl; [exact Hwf|]);
    intros e Hrow; by rewrite existsb_app, Hrow.
Qed.

(** An enabled or disabled [add_to_session_memory] keeps both facts. *)
Lemma add_to_session_memory_keeps_sessions c ct tags imp meta self w :
  entries_have_sessions w ->
  session_exists (session_id self) w = true ->
  entries_have_sessions (snd (snd (add_to_session_memory c ct tags imp meta (self, w)))) /\
  session_exists (session_id self)
                 (snd (snd (add_to_session_memory c ct tags imp meta (self, w)))) = true.
Proof.
  intros Hwf Hsession. destruct (memory_enabled self) eqn:Hon.
  - rewrite add_to_session_memory_enabled by done. cbv zeta. cbn [snd].
    pose proof (add_content_durable (session_id self) c ct imp tags meta
                  (snd (add_memory_entry (session_id self) c ct imp tags meta
                          (set_ticks w (S (ticks w)))))) as Hframe.
    injection Hframe as Hs He.
    pose proof (add_memory_entry_keeps_sessions (session_id self) c ct imp tags meta
                  (set_ticks w (S (ticks w))) Hwf) as Hwf'.
    destruct (add_memory_entry_durable (session_id self) c ct imp tags meta
                (set_ticks w (S (ticks w)))) as (_ & _ & _ & _ & _ & Hexists).
    unfold entries_have_sessions, session_exists in *. by rewrite Hs, He.
  - by rewrite add_to_session_memory_disabled.
Qed.

(** C4. In a memory-enabled session whose durable store holds at most
    10000 entries of it, [save_session_memory(name)], then
    [clear_all_memory()], then [load_session_memory(name)] both return
    [True], and the session then holds entries with exactly the payloads
    it held before, order apart.  The load takes the snapshot just made,
    the newest session matching the name, whatever older snapshots of
    that name exist.  The clock is taken to be ahead of the stored session
    timestamps, and the snapshot id to be new. *)
Theorem save_clear_load_round_trip name self w :
  memory_enabled self = true ->
  Py.len (entries_of (session_id self) w) <= 10000 ->
  session_exists (session_id self) w = true ->
  entries_have_sessions w ->
  session_exists (snapshot_id name (clock (ticks w))) w = false ->
  Forall (fun r => Text.like (snapshot_pattern name) (sess_session_id r) = true ->
                   dt_leb (clock (S (ticks w))) (sess_created_at r) = false)
         (sessions w) ->
  let saved := save_session_memory name (self, w) in
  let cleared := clear_all_memory (snd saved) in
  let loaded := load_session_memory name (snd cleared) in
  fst saved = true /\
  fst loaded = true /\
  latest_session_like (snapshot_pattern name) (snd (snd cleared))
  = Some (snapshot_id name (clock (ticks w))) /\
  Permutation (map row_payload (entries_of (session_id self) (snd (snd loaded))))
              (map row_payload (entries_of (session_id self) w)) /\
  length (entries_of (session_id self) (snd (snd loaded)))
  = length (entries_of (session_id self) w).
Proof.
  intros Hon Hsmall Hsession Hwf Hfresh Hclock.
  set (sid := session_id self) in *. set (backup := snapshot_id name (clock (ticks w))) in *.
  assert (sid <> backup) as Hne.
  { intros Heq. rewrite Heq in Hsession. congruence. }
  assert (forall e, In e (memory_entries w) ->
                    String.eqb (entry_session_id e) backup = false) as Hnone.
  { intros e He. destruct (String.eqb_spec (entry_session_id e) backup) as [Heq|]; [|done].
    unfold entries_have_sessions in Hwf. rewrite Forall_forall in Hwf.
    specialize (Hwf e ltac:(by apply list_elem_of_In)). rewrite Heq in Hwf.
    unfold session_exists in Hfresh. congruence. }
  destruct (save_session_memory_durable name self w Hfresh Hsmall)
    as (brow & copies & w1 & Hsave & Hsessions1 & Hbid & Hbtime & Hentries1 & Hperm1 & Hsids1).
  fold backup in Hbid, Hsids1. fold sid in Hperm1.
  cbv zeta. rewrite Hsave. cbn [fst snd].
  destruct (clear_all_memory_durable self w1) as (w2 & Hclear & Hsessions2 & Hentries2).
  rewrite Hclear. cbn [fst snd].
  assert (latest_session_like (snapshot_pattern name) w2 = Some backup) as Hlatest.
  { rewrite <- Hbid.
    apply (latest_session_like_newest (snapshot_pattern name) w2 brow (sessions w)).
    - by rewrite Hsessions2.
    - rewrite Hbid. apply snapshot_id_like.
    - by rewrite Hbtime. }
  split; [done|].
  unfold load_session_memory, bind, storage. cbn [fst snd]. rewrite Hlatest.
  destruct (clear_all_memory_durable (set_session_memory self []) w2)
    as (w3 & Hclear3 & Hsessions3 & Hentries3).
  rewrite Hclear3. cbn [fst snd].
  change (session_id (set_session_memory self [])) with sid in Hentries3.
  fold sid in Hentries2.
  assert (entries_of backup w3 = copies) as Hbackup.
  { unfold entries_of. rewrite Hentries3, Hentries2, Hentries1, !List.filter_app.
    rewrite Forall_forall in Hsids1.
    rewrite (filter_none _ (List.filter _ (List.filter _ (memory_entries w)))).
    - rewrite (filter_all _ copies).
      + rewrite (filter_all _ copies); [apply filter_all|]; intros e He;
          rewrite (Hsids1 e) by (by apply list_elem_of_In).
        * apply String.eqb_refl.
        * apply negb_true_iff, String.eqb_neq. congruence.
      + intros e He. rewrite (Hsids1 e) by (by apply list_elem_of_In).
        apply negb_true_iff, String.eqb_neq. congruence.
    - intros e [[He _]%filter_In _]%filter_In. by apply Hnone. }
  assert (length copies = length (entries_of sid w)) as Hlen.
  { apply Permutation_length in Hperm1. by rewrite !length_map in Hperm1. }
  rewrite get_memory_entries_all by (rewrite Hbackup; unfold Py.len in *; lia).
  rewrite Hbackup.
  destruct (restore_entries_durable (sort_desc entry_rank_ge copies)
              (set_session_memory (set_session_memory self []) []) w3 Hon)
    as (rows & self4 & w4 & Hrestore & Hsid4 & Hentries4 & Hpayloads & Hsids4).
  rewrite Hrestore. cbn [fst snd ret].
  split; [done|]. split; [done|].
  assert (entries_of sid w4 = rows) as Hrows.
  { unfold entries_of. rewrite Hentries4, List.filter_app.
    rewrite (filter_none _ (memory_entries w3)).
    - apply filter_all. intros e He. rewrite Forall_forall in Hsids4.
      rewrite (Hsids4 e) by (by apply list_elem_of_In). apply String.eqb_refl.
    - rewrite Hentries3. intros e [_ Hk]%filter_In. by apply negb_true_iff in Hk. }
  rewrite Hrows.
  assert (Permutation (map row_payload rows) (map row_payload (entries_of sid w))) as Hperm.
  { rewrite Hpayloads, <- Hperm1. apply Permutation_map, sort_desc_perm. }
  split; [done|]. apply Permutation_length in Hperm. by rewrite !length_map in Hperm.
Qed.
End SnapshotFacts.

(** C4 on a session of two notes that already has an older snapshot [x] of
    one note: the round trip gives the two notes back. *)
Lemma save_clear_load_round_trip_witness :
  memory_enabled (fst example_resaved) = true /\
  Py.len (entries_of "demo" (snd example_resaved)) <= 10000 /\
  session_exists "demo" (snd example_resaved) = true /\
  entries_have_sessions (snd example_resaved) /\
  session_exists (snapshot_id "x" (clock (Runtime := example_runtime)
                                         (ticks (snd example_resaved))))
                 (snd example_resaved) = false /\
  Forall (fun r => Text.like (snapshot_pattern "x") (sess_session_id r) = true ->
                   dt_leb (clock (Runtime := example_runtime)
                                 (S (ticks (snd example_resaved))))
                          (sess_created_at r) = false)
         (sessions (snd example_resaved)) /\
  fst (load_session_memory (H := example_runtime) "x"
         (snd (clear_all_memory
                 (snd (save_session_memory (H := example_runtime) "x"
                         (fst example_resaved, snd example_resaved)))))) = true /\
  length (entries_of "demo"
            (snd (snd (load_session_memory (H := example_runtime) "x"
                         (snd (clear_all_memory
                                 (snd (save_session_memory (H := example_runtime) "x"
                                         (fst example_resaved, snd example_resaved)))))))))
  = 2%nat.
Proof.
  assert (memory_enabled (fst example_resaved) = true) as Hon by (by vm_compute).
  assert (Py.len (entries_of "demo" (snd example_resaved)) <= 10000) as Hsmall
    by (vm_compute; discriminate).
  assert (session_exists "demo" (snd example_resaved) = true) as Hsession
    by (by vm_compute).
  assert (entries_have_sessions (snd example_resaved)) as Hwf.
  { unfold entries_have_sessions. vm_compute. repeat constructor. }
  assert (session_exists (snapshot_id "x" (clock (Runtime := example_runtime)
                                                 (ticks (snd example_resaved))))
                         (snd example_resaved) = false) as Hfresh by (by vm_compute).
  assert (Forall (fun r => Text.like (snapshot_pattern "x") (sess_session_id r) = true ->
                           dt_leb (clock (Runtime := example_runtime)
                                         (S (ticks (snd example_resaved))))
                                  (sess_created_at r) = false)
                 (sessions (snd example_resaved))) as Hclock.
  { vm_compute. repeat constructor; intros; reflexivity || discriminate. }
  split; [exact Hon|]. split; [exact Hsmall|]. split; [exact Hsession|].
  split; [exact Hwf|]. split; [exact Hfresh|]. split; [exact Hclock|].
  destruct (save_clear_load_round_trip (H := example_runtime) "x"
              (fst example_resaved) (snd example_resaved)
              Hon Hsmall Hsession Hwf Hfresh Hclock) as (_ & Hloaded & _ & _ & Hlen).
  split; [exact Hloaded|]. exact Hlen.
Defined.

(** * Further properties *)

(** ** The windows of [chunk_text] *)

Section ChunkWindowFacts.
Context {A : Type}.
Implicit Types (text : list A) (chunks : list (list A)).

Lemma chunk_loop_spins text cs ov :
  cs <= ov -> cs < Py.len text -> 0 < Py.len text ->
  forall fuel start acc,
    start <= 0 -> chunk_loop fuel text cs ov (start, acc) = None.
Proof.
  intros Hov Hlong Hne. induction fuel as [|fuel IH]; intros start acc Hstart; [done|].
  cbn [chunk_loop]. unfold chunk_step.
  destruct (Z.ltb_spec start (Py.len text)); [|lia].
  destruct (Z.leb_spec (Py.len text) (start + cs)); [lia|].
  apply IH. lia.
Qed.

(** X1. With [overlap >= chunk_size], on a non-empty text longer than
    [chunk_size], the loop of [chunk_text] never reaches an exit: the window
    start does not move forward, so no number of passes returns. *)
Theorem chunk_text_never_returns text cs ov :
  cs <= ov -> cs < Py.len text -> 0 < Py.len text ->
  forall fuel, chunk_text fuel text cs ov = None.
Proof.
  intros Hov Hlong Hne fuel. unfold chunk_text.
  destruct (Z.leb_spec (Py.len text) cs); [lia|].
  by apply chunk_loop_spins.
Qed.

Lemma chunk_loop_windows text cs ov :
  0 <= ov < cs ->
  forall fuel k acc r,
    Z.of_nat k * (cs - ov) < Py.len text ->
    chunk_loop fuel text cs ov (Z.of_nat k * (cs - ov), acc) = Some r ->
    exists m,
      r = acc ++ map (chunk_window text cs ov) (seq k (S m)) /\
      Py.len text <= Z.of_nat (k + m) * (cs - ov) + cs /\
      (forall j, (k <= j < k + m)%nat -> Z.of_nat j * (cs - ov) + cs < Py.len text).
Proof.
  intros Hov. induction fuel as [|fuel IH]; intros k acc r Hstart; [done|].
  cbn [chunk_loop]. unfold chunk_step.
  destruct (Z.ltb_spec (Z.of_nat k * (cs - ov)) (Py.len text)); [|lia].
  fold (chunk_window text cs ov k).
  destruct (Z.leb_spec (Py.len text) (Z.of_nat k * (cs - ov) + cs)) as [Hend|Hmore].
  - intros [= <-]. exists O. split; [done|]. split; [by rewrite Nat.add_0_r|]. lia.
  - replace (Z.of_nat k * (cs - ov) + cs - ov) with (Z.of_nat (S k) * (cs - ov)) by lia.
    intros Hrun. apply IH in Hrun as (m & -> & Hlast & Hbefore); [|lia].
    exists (S m). split; [by rewrite <- app_assoc|].
    split; [by replace (k + S m)%nat with (S k + m)%nat by lia|].
    intros j Hj. destruct (decide (j = k)) as [->|Hne]; [done|]. apply Hbefore. lia.
Qed.

(** X2. For [0 <= overlap < chunk_size], the chunks of [chunk_text] are the
    windows [0 .. n-1] of width [chunk_size] taken every
    [chunk_size - overlap] characters, where [n - 1] is the first window
    whose end reaches the end of the text.  Every chunk but the last has
    exactly [chunk_size] characters, and each chunk starts with the last
    [overlap] characters of the chunk before it. *)
Theorem chunk_text_windows text cs ov :
  0 <= ov < cs ->
  exists n,
    (forall fuel, (length text < fuel)%nat ->
       chunk_text fuel text cs ov = Some (map (chunk_window text cs ov) (seq 0 (S n)))) /\
    Py.len text <= Z.of_nat n * (cs - ov) + cs /\
    (forall j, (j < n)%nat ->
       Z.of_nat j * (cs - ov) + cs < Py.len text /\
       Py.len (chunk_window text cs ov j) = cs /\
       take (Z.to_nat ov) (chunk_window text cs ov (S j))
       = drop (Z.to_nat (cs - ov)) (chunk_window text cs ov j)).
Proof.
  intros Hov.
  destruct (chunk_text_returns text cs ov) as [chunks Hret]; [lia|].
  assert (exists n, chunks = map (chunk_window text cs ov) (seq 0 (S n)) /\
                    Py.len text <= Z.of_nat n * (cs - ov) + cs /\
                    (forall j, (j < n)%nat ->
                               Z.of_nat j * (cs - ov) + cs < Py.len text))
    as (n & -> & Hlast & Hbefore).
  { specialize (Hret (S (length text)) ltac:(lia)). unfold chunk_text in Hret.
    pose proof (py_len_nonneg text) as Hlen.
    destruct (Z.leb_spec (Py.len text) cs) as [Hshort|Hlong].
    - injection Hret as <-. exists O. split; [|split; [lia|lia]].
      cbn. unfold chunk_window. rewrite py_slice_inside by lia.
      change (Z.to_nat (Z.of_nat 0 * (cs - ov))) with O. rewrite drop_0.
      f_equal. symmetry. apply take_ge. unfold Py.len in *. lia.
    - apply (chunk_loop_windows text cs ov Hov _ O []) in Hret as (m & -> & ? & Hb); [|lia].
      exists m. split; [done|]. split; [done|]. intros j Hj. apply Hb. lia. }
  exists n. split; [done|]. split; [done|].
  intros j Hj. specialize (Hbefore j Hj). split; [done|].
  pose proof (py_len_nonneg text) as Hlen.
  assert (0 <= Z.of_nat j * (cs - ov)) as Hpos by nia.
  unfold chunk_window. rewrite !py_slice_inside by nia.
  split.
  - unfold Py.len in *. rewrite length_take, length_drop. lia.
  - rewrite take_take, skipn_firstn_comm, drop_drop. f_equal; [|f_equal]; nia.
Qed.
End ChunkWindowFacts.

(** X1 at a concrete call: [chunk_size = overlap = 2] on five characters. *)
Lemma chunk_text_never_returns_witness :
  2 <= 2 /\ 2 < Py.len [1; 2; 3; 4; 5]%nat /\ 0 < Py.len [1; 2; 3; 4; 5]%nat /\
  chunk_text 1000 [1; 2; 3; 4; 5]%nat 2 2 = None.
Proof.
  assert (2 < Py.len [1; 2; 3; 4; 5]%nat) as Hlong by (vm_compute; reflexivity).
  assert (0 < Py.len [1; 2; 3; 4; 5]%nat) as Hne by (vm_compute; reflexivity).
  split; [lia|]. split; [exact Hlong|]. split; [exact Hne|].
  exact (chunk_text_never_returns [1; 2; 3; 4; 5]%nat 2 2 ltac:(lia) Hlong Hne 1000%nat).
Defined.

(** X2 at a concrete call: ten characters, [chunk_size = 4], [overlap = 1]. *)
Lemma chunk_text_windows_witness :
  0 <= 1 < 4 /\
  exists n,
    chunk_text 11 [1; 2; 3; 4; 5; 6; 7; 8; 9; 10]%nat 4 1
    = Some (map (chunk_window [1; 2; 3; 4; 5; 6; 7; 8; 9; 10]%nat 4 1) (seq 0 (S n))).
Proof.
  split; [lia|].
  destruct (chunk_text_windows [1; 2; 3; 4; 5; 6; 7; 8; 9; 10]%nat 4 1 ltac:(lia))
    as (n & Hret & _).
  exists n. apply Hret. simpl. lia.
Defined.

(** ** The context store: inserts, deletes, retrieval *)

Section ContextStoreFacts.
Context `{Runtime}.

(** What the loop of [add_content] appends, with the ids it hands out. *)
Lemma add_chunks_rows sid ct imp tags meta chunks :
  forall ids w,
  exists stored,
    context_chunks (snd (add_chunks sid ct imp tags meta chunks ids w))
    = context_chunks w ++ stored /\
    fst (add_chunks sid ct imp tags meta chunks ids w) = ids ++ map chunk_id stored /\
    map chunk_id stored
    = map (fun i => context_chunks_seq w + 1 + Z.of_nat i) (seq 0 (length stored)) /\
    context_chunks_seq (snd (add_chunks sid ct imp tags meta chunks ids w))
    = context_chunks_seq w + Z.of_nat (length stored) /\
    Forall (fun r => chunk_session_id r = sid /\ chunk_content_type r = ct /\
                     chunk_importance r = imp /\ chunk_tags r = tags /\
                     chunk_metadata r = meta /\ In (chunk_content r) chunks) stored /\
    memory_chunks (snd (add_chunks sid ct imp tags meta chunks ids w)) = memory_chunks w.
Proof.
  induction chunks as [|chunk rest IH]; intros ids w.
  - exists []. cbn. rewrite !app_nil_r, Z.add_0_r. by repeat split.
  - rewrite add_chunks_cons. cbv zeta.
    set (w' := set_ticks (set_ticks w (S (ticks w))) (S (S (ticks w)))).
    set (row := new_chunk_row sid chunk ct imp (clock (ticks w)) (clock (S (ticks w)))
                              tags meta (embed_text chunk) (_hash_content chunk)).
    destruct (in_dec string_dec (_hash_content chunk) (hashes w')) as [Hin|Hnin].
    + rewrite insert_context_chunk_taken by done.
      destruct (IH ids w') as (stored & Hrows & Hids & Hseq & Hcount & Hst & Hsub).
      exists stored. repeat (split; [done|]). split; [|done].
      eapply Forall_impl; [exact Hst|]. intros r (? & ? & ? & ? & ? & ?).
      repeat (split; [done|]). by right.
    + rewrite insert_context_chunk_fresh by done.
      set (new_id := context_chunks_seq w' + 1).
      set (w'' := set_context_chunks w' (context_chunks w' ++ [row new_id]) new_id).
      destruct (IH (ids ++ [new_id]) w'') as (stored & Hrows & Hids & Hseq & Hcount & Hst & Hsub).
      exists (row new_id :: stored).
      split; [by rewrite Hrows; simpl; rewrite <- app_assoc|].
      split; [by rewrite Hids; simpl; rewrite <- app_assoc|].
      split; [|split; [|split; [|done]]].
      * cbn [map length seq]. rewrite Hseq. f_equal; [subst new_id w'; cbn; lia|].
        rewrite <- seq_shift, map_map. apply map_ext. intros i.
        subst w'' new_id w'. cbn. lia.
      * rewrite Hcount. subst w'' new_id w'. cbn [length context_chunks_seq set_context_chunks
          set_ticks]. lia.
      * constructor; [by repeat split; try left|].
        eapply Forall_impl; [exact Hst|]. intros r (? & ? & ? & ? & ? & ?).
        repeat (split; [done|]). by right.
Qed.

(** X3. [add_content] only appends to [context_chunks]: the rows that were
    there stay as they are and in place, the returned ids are the ids of
    the appended rows in order, and each appended row carries the session,
    type, importance, tags and metadata of the call and one of the chunks
    of the content.  Neither [sessions], [memory_entries] nor
    [memory_chunks] is touched. *)
Theorem add_content_appends sid content ct imp tags meta w :
  exists stored,
    context_chunks (snd (add_content sid content ct imp tags meta w))
    = context_chunks w ++ stored /\
    fst (add_content sid content ct imp tags meta w) = map chunk_id stored /\
    Forall (fun r => chunk_session_id r = sid /\ chunk_content_type r = ct /\
                     chunk_importance r = imp /\ chunk_tags r = default [] tags /\
                     chunk_metadata r = default [] meta /\
                     In (chunk_content r) (chunk_text_default content)) stored /\
    durable (snd (add_content sid content ct imp tags meta w)) = durable w /\
    memory_chunks (snd (add_content sid content ct imp tags meta w)) = memory_chunks w.
Proof.
  unfold add_content.
  destruct (add_chunks_rows sid ct imp (default [] tags) (default [] meta)
              (chunk_text_default content) [] w)
    as (stored & Hrows & Hids & _ & _ & Hst & Hsub).
  exists stored. split; [done|]. split; [done|]. split; [done|].
  split; [apply add_chunks_durable|done].
Qed.

(** X4. Row ids are never handed out twice: when no stored id is above the
    AUTOINCREMENT counter, the ids [add_content] returns are the next
    integers after the counter, one by one, so they are above every id in
    the table; and afterwards again no stored id is above the counter. *)
Theorem add_content_ids_fresh sid content ct imp tags meta w :
  context_ids_bounded w ->
  fst (add_content sid content ct imp tags meta w)
  = map (fun i => context_chunks_seq w + 1 + Z.of_nat i)
        (seq 0 (length (fst (add_content sid content ct imp tags meta w)))) /\
  (forall new_id r, In new_id (fst (add_content sid content ct imp tags meta w)) ->
                    In r (context_chunks w) -> chunk_id r < new_id) /\
  context_ids_bounded (snd (add_content sid content ct imp tags meta w)).
Proof.
  intros Hbound. unfold add_content, context_ids_bounded in *.
  destruct (add_chunks_rows sid ct imp (default [] tags) (default [] meta)
              (chunk_text_default content) [] w)
    as (stored & Hrows & Hids & Hseq & Hcount & _ & _).
  cbn [app] in Hids. rewrite Hids, length_map. split; [done|]. split.
  - intros new_id r Hnew Hr. rewrite Hseq in Hnew.
    apply in_map_iff in Hnew as (i & <- & _).
    rewrite Forall_forall in Hbound. specialize (Hbound r ltac:(by apply list_elem_of_In)).
    lia.
  - rewrite Hrows, Hcount. apply Forall_app. split.
    + eapply Forall_impl; [exact Hbound|]. intros r Hr. cbn beta in *. lia.
    + apply Forall_forall. intros r Hr%list_elem_of_In.
      assert (In (chunk_id r) (map chunk_id stored)) as Hid by (by apply in_map).
      rewrite Hseq in Hid. apply in_map_iff in Hid as (i & <- & Hi%in_seq). lia.
Qed.

Lemma filter_filter_none {A : Type} (f g : A -> bool) (l : list A) :
  (forall x, g x = true -> f x = false) -> List.filter f (List.filter g l) = [].
Proof.
  intros Hfg. apply filter_none. intros x [_ Hg]%filter_In. by apply Hfg.
Qed.

Lemma filter_filter_all {A : Type} (f g : A -> bool) (l : list A) :
  (forall x, f x = true -> g x = true) ->
  List.filter f (List.filter g l) = List.filter f l.
Proof.
  intros Hfg. induction l as [|x l IH]; [done|]. cbn [List.filter].
  destruct (g x) eqn:Hg; cbn [List.filter]; destruct (f x) eqn:Hf; try congruence.
  rewrite Hfg in Hg; done.
Qed.

Lemma py_slice_nil {A : Type} (start stop : Z) : Py.slice (@nil A) start stop = [].
Proof. unfold Py.slice. by rewrite drop_nil, take_nil. Qed.

(** X5. [delete_session_content] removes exactly the rows of the session
    and keeps the others in order; it answers whether there was a row to
    remove; afterwards no retrieval for the session returns anything, the
    rows of any other session are what they were, and deleting again
    answers [False] and changes nothing. *)
Theorem delete_session_content_spec sid w :
  context_chunks (snd (delete_session_content sid w))
  = List.filter (fun r => negb (String.eqb (chunk_session_id r) sid)) (context_chunks w) /\
  (fst (delete_session_content sid w) = true
   <-> exists r, In r (context_chunks w) /\ chunk_session_id r = sid) /\
  (forall q k m, search_by_similarity sid q k m (snd (delete_session_content sid w)) = []) /\
  (forall q k, _keyword_search sid q k (snd (delete_session_content sid w)) = []) /\
  (forall n types,
     context_rows_for_session sid n types (snd (delete_session_content sid w)) = []) /\
  (forall other, other <> sid ->
     List.filter (fun r => String.eqb (chunk_session_id r) other)
                 (context_chunks (snd (delete_session_content sid w)))
     = List.filter (fun r => String.eqb (chunk_session_id r) other) (context_chunks w)) /\
  delete_session_content sid (snd (delete_session_content sid w))
  = (false, snd (delete_session_content sid w)).
Proof.
  unfold delete_session_content. cbn [fst snd context_chunks set_context_chunks].
  set (kept := List.filter _ (context_chunks w)).
  assert (forall (g : ChunkRow -> bool),
            List.filter (fun r => String.eqb (chunk_session_id r) sid && g r) kept = [])
    as Hnone.
  { intros g. apply filter_filter_none. intros r Hr.
    apply negb_true_iff in Hr. by rewrite Hr. }
  split; [done|]. split; [|split; [|split; [|split; [|split]]]].
  - rewrite negb_true_iff, Nat.eqb_neq. subst kept. clear Hnone. split.
    + intros Hlen. induction (context_chunks w) as [|r rows IH]; [done|].
      cbn [List.filter length] in Hlen.
      destruct (String.eqb_spec (chunk_session_id r) sid) as [Heq|Hne].
      * exists r. split; [by left|done].
      * simpl in Hlen. destruct IH as (r' & ? & ?); [lia|].
        exists r'. split; [by right|done].
    + intros (r & Hr & Hsid). intros Hlen.
      assert (List.filter (fun r => negb (String.eqb (chunk_session_id r) sid))
                          (context_chunks w) = context_chunks w) as Hsame.
      { clear Hr. induction (context_chunks w) as [|x rows IH]; [done|].
        cbn [List.filter length] in *.
        pose proof (filter_length_le (fun r => negb (String.eqb (chunk_session_id r) sid)) rows).
        destruct (negb _); cbn [length] in *; [f_equal; apply IH; lia|lia]. }
      rewrite <- Hsame in Hr. apply filter_In in Hr as [_ Hk].
      rewrite Hsid, String.eqb_refl in Hk. done.
  - intros q k m. unfold search_by_similarity, _keyword_search.
    cbn [context_chunks set_context_chunks].
    pose proof (Hnone (fun r => Text.like ("%" +:+ str_lower q +:+ "%")
                                          (Text.lower (chunk_content r)))) as Hkw.
    pose proof (Hnone (fun r => match chunk_embedding r with
                                | Some _ => true | None => false end)) as Hemb.
    cbv beta in Hkw, Hemb.
    destruct (embed_text q) as [[|x qe]|].
    + rewrite Hkw. cbn. unfold sql_limit. by destruct (k <? 0); rewrite ?take_nil.
    + rewrite Hemb. cbn [flat_map sort_desc]. unfold Py.prefix. by rewrite py_slice_nil.
    + rewrite Hkw. cbn. unfold sql_limit. by destruct (k <? 0); rewrite ?take_nil.
  - intros q k. unfold _keyword_search. cbn [context_chunks set_context_chunks].
    rewrite Hnone. cbn. unfold sql_limit. by destruct (k <? 0); rewrite ?take_nil.
  - intros n types. unfold context_rows_for_session. cbn [context_chunks set_context_chunks].
    rewrite Hnone. cbn. unfold sql_limit. by destruct (n <? 0); rewrite ?take_nil.
  - intros other Hne. subst kept. apply filter_filter_all.
    intros r Hr%String.eqb_eq. apply negb_true_iff, String.eqb_neq. congruence.
  - assert (List.filter (fun r => negb (String.eqb (chunk_session_id r) sid)) kept = kept)
      as ->.
    { subst kept. by apply filter_filter_all. }
    by rewrite Nat.eqb_refl.
Qed.
End ContextStoreFacts.

(** X4 on the store of the session with one note. *)
Lemma add_content_ids_fresh_witness :
  context_ids_bounded (snd example_one_note) /\
  fst (add_content (H := example_runtime) "demo" "call mum" "text" 1%Q None None
         (snd example_one_note)) = [2].
Proof.
  assert (context_ids_bounded (snd example_one_note)) as Hbound.
  { unfold context_ids_bounded. vm_compute. repeat constructor; discriminate. }
  split; [exact Hbound|].
  destruct (add_content_ids_fresh (H := example_runtime) "demo" "call mum" "text" 1%Q
              None None (snd example_one_note) Hbound) as (Hids & _).
  rewrite Hids. by vm_compute.
Defined.

(** ** Retrieval *)

Section RetrievalFacts.
Context `{Runtime}.

Lemma Qle_bool_total (x y : Q) : Qle_bool x y = true \/ Qle_bool y x = true.
Proof.
  rewrite !Qle_bool_iff. destruct (Qlt_le_dec x y); [left; by apply Qlt_le_weak|by right].
Qed.

Lemma Qle_bool_trans (x y z : Q) :
  Qle_bool x y = true -> Qle_bool y z = true -> Qle_bool x z = true.
Proof. rewrite !Qle_bool_iff. apply Qle_trans. Qed.

Lemma StronglySorted_weaken {A : Type} (R R' : A -> A -> Prop) (l : list A) :
  (forall x y, R x y -> R' x y) -> StronglySorted R l -> StronglySorted R' l.
Proof.
  intros Himpl. induction 1 as [|x l Hsorted IH Hall]; constructor; [done|].
  eapply Forall_impl; [exact Hall|]. intros y. apply Himpl.
Qed.

Lemma StronglySorted_take {A : Type} (R : A -> A -> Prop) (n : nat) (l : list A) :
  StronglySorted R l -> StronglySorted R (take n l).
Proof.
  intros Hsorted. revert n. induction Hsorted as [|x l Hsorted IH Hall]; intros [|n];
    cbn; try constructor; [apply IH|].
  apply Forall_forall. intros y Hy. rewrite Forall_forall in Hall.
  apply Hall. by eapply subseteq_take.
Qed.

Lemma sql_limit_sorted {A : Type} (R : A -> A -> Prop) (n : Z) (l : list A) :
  StronglySorted R l -> StronglySorted R (sql_limit n l).
Proof. unfold sql_limit. destruct (n <? 0); [done|apply StronglySorted_take]. Qed.

Lemma sql_limit_length {A : Type} (n : Z) (l : list A) :
  0 <= n -> Py.len (sql_limit n l) <= n.
Proof.
  intros Hn. unfold sql_limit, Py.len. destruct (Z.ltb_spec n 0); [lia|].
  rewrite length_take. lia.
Qed.

Lemma sql_limit_unlimited {A : Type} (n : Z) (l : list A) :
  n < 0 \/ Py.len l <= n -> sql_limit n l = l.
Proof.
  intros [Hneg|Hall]; [|by apply sql_limit_all].
  unfold sql_limit. by destruct (Z.ltb_spec n 0); [|lia].
Qed.

(** X6. [_keyword_search] returns chunks of rows of the session whose
    content, lower-cased by SQLite ([LOWER], ASCII letters only), matches
    the pattern [%] + [query.lower()] + [%] under [LIKE], in descending
    order of importance, at most [top_k] of them when [top_k >= 0]; when
    [top_k] is negative (no [LIMIT]) or not smaller than the number of
    matching rows, every matching row is returned.  The query is
    lower-cased by Python and the content by SQLite, so a row with a
    capital letter outside ASCII that the query shares is no match. *)
Theorem keyword_search_spec sid q k w :
  exists rows,
    _keyword_search sid q k w = map chunk_of_row rows /\
    (forall r, In r rows -> In r (context_chunks w) /\ keyword_match sid q r = true) /\
    StronglySorted (fun r1 r2 => (chunk_importance r2 <= chunk_importance r1)%Q) rows /\
    (0 <= k -> Py.len rows <= k) /\
    (k < 0 \/ Py.len (List.filter (keyword_match sid q) (context_chunks w)) <= k ->
     Permutation rows (List.filter (keyword_match sid q) (context_chunks w))).
Proof.
  unfold _keyword_search.
  change (List.filter _ (context_chunks w))
    with (List.filter (keyword_match sid q) (context_chunks w)).
  set (ge := fun r1 r2 : ChunkRow => Qle_bool (chunk_importance r2) (chunk_importance r1)).
  set (matching := List.filter (keyword_match sid q) (context_chunks w)).
  exists (sql_limit k (sort_desc ge matching)).
  split; [done|]. split; [|split; [|split]].
  - intros r Hr. apply sql_limit_In, sort_desc_In in Hr. by apply filter_In in Hr.
  - apply sql_limit_sorted.
    eapply StronglySorted_weaken; [|apply (sort_desc_sorted ge)].
    + intros r1 r2 Hge. by apply Qle_bool_iff in Hge.
    + intros x y. apply Qle_bool_total.
    + intros x y z Hxy Hyz. subst ge. cbn in *. by eapply Qle_bool_trans.
  - apply sql_limit_length.
  - intros Hall. rewrite sql_limit_unlimited; [apply sort_desc_perm|].
    unfold Py.len in *.
    by rewrite (Permutation_length (sort_desc_perm ge matching)).
Qed.

(** X7. Without an embedding for the query ([None] or an empty vector),
    [search_by_similarity] is [_keyword_search].  With one, it returns the
    chunks of a list of scored rows cut by [[:top_k]]: every scored row
    belongs to the session, has a stored embedding, carries the similarity
    of the query to that embedding, and that similarity is at least
    [min_similarity]; the list is in descending order of similarity. *)
Theorem search_by_similarity_spec sid q k m w :
  (embed_text q = None \/ embed_text q = Some [] ->
   search_by_similarity sid q k m w = _keyword_search sid q k w) /\
  (forall qe, embed_text q = Some qe -> qe <> [] ->
     exists scored,
       search_by_similarity sid q k m w = map fst (Py.prefix scored k) /\
       Forall (fun p => exists r e,
                  In r (context_chunks w) /\ chunk_session_id r = sid /\
                  chunk_embedding r = Some e /\ fst p = chunk_of_row r /\
                  snd p = compute_similarity qe e /\ (m <= snd p)%Q) scored /\
       StronglySorted (fun p1 p2 : MemoryChunk * Q => (snd p2 <= snd p1)%Q) scored /\
       (0 <= k -> Py.len (search_by_similarity sid q k m w) <= k)).
Proof.
  unfold search_by_similarity. split.
  - by intros [->| ->].
  - intros qe -> Hne. destruct qe as [|x qe]; [done|].
    set (ge := fun x0 y : MemoryChunk * Q => Qle_bool (snd y) (snd x0)).
    set (results := flat_map _ _).
    exists (sort_desc ge results). split; [done|]. split; [|split].
    + apply Forall_forall. intros p Hp%list_elem_of_In.
      apply sort_desc_In, in_flat_map in Hp as (r & Hr & Hp).
      apply filter_In in Hr as [Hr Hsel].
      apply andb_prop in Hsel as [Hsid%String.eqb_eq _].
      destruct (chunk_embedding r) as [e|] eqn:He; [|done].
      destruct (Qle_bool m _) eqn:Hmin; [|done].
      destruct Hp as [<-|[]]. exists r, e. repeat (split; [done|]).
      by apply Qle_bool_iff.
    + eapply StronglySorted_weaken; [|apply (sort_desc_sorted ge)].
      * intros p1 p2 Hge. by apply Qle_bool_iff in Hge.
      * intros p1 p2. apply Qle_bool_total.
      * intros p1 p2 p3 H12 H23. subst ge. cbn in *. by eapply Qle_bool_trans.
    + intros Hk. unfold Py.len. rewrite length_map, py_prefix_take, length_take by done.
      lia.
Qed.
End RetrievalFacts.

(** ** Substring matches are [LIKE] matches *)

Section SubstringFacts.




End SubstringFacts.

(** ** The durable store *)

Section MemoryDatabaseFacts.
Context `{Runtime}.

(** X8. [create_session] answers [True] exactly when the session did not
    exist; either way the session exists afterwards.  An existing row is
    left as it is (its path, timestamps and metadata are not overwritten),
    a new row is appended with the given path and metadata, and a second
    [create_session] of the same id always answers [False]. *)
Theorem create_session_contract sid path meta w :
  fst (create_session sid path meta w) = negb (session_exists sid w) /\
  session_exists sid (snd (create_session sid path meta w)) = true /\
  (session_exists sid w = true ->
   sessions (snd (create_session sid path meta w)) = sessions w) /\
  (session_exists sid w = false ->
   exists row,
     sessions (snd (create_session sid path meta w)) = sessions w ++ [row] /\
     sess_session_id row = sid /\ sess_project_path row = path /\
     sess_metadata row = default [] meta) /\
  memory_entries (snd (create_session sid path meta w)) = memory_entries w /\
  (forall path' meta',
     fst (create_session sid path' meta' (snd (create_session sid path meta w))) = false).
Proof.
  assert (session_exists sid (snd (create_session sid path meta w)) = true) as Hthen.
  { rewrite create_session_eq. destruct (session_exists sid w) eqn:Hex; [done|].
    unfold session_exists. cbn. rewrite existsb_app. cbn.
    by rewrite String.eqb_refl, orb_true_r. }
  split; [|split; [done|split; [|split; [|split]]]].
  - rewrite create_session_eq. by destruct (session_exists sid w).
  - intros Hex. by rewrite create_session_eq, Hex.
  - intros Hex. rewrite create_session_eq, Hex. by eexists.
  - rewrite create_session_eq. by destruct (session_exists sid w).
  - intros path' meta'. by rewrite create_session_eq, Hthen.
Qed.

(** *** Sub-chunks of long entries *)

Lemma fixed_windows_concat (text : list ascii) (cs : Z) (n : nat) :
  0 < cs -> Z.of_nat n * cs < Py.len text + cs ->
  concat (map (fun k => Py.slice text (Z.of_nat k * cs) (Z.of_nat k * cs + cs)) (seq 0 n))
  = take (Z.to_nat (Z.min (Z.of_nat n * cs) (Py.len text))) text.
Proof.
  intros Hcs. pose proof (py_len_nonneg text) as Hlen.
  induction n as [|n IH]; intros Hn.
  { change (Z.of_nat 0 * cs) with 0. by rewrite Z.min_l by lia. }
  rewrite seq_S, map_app, concat_app, IH by lia. cbn [map concat Nat.add].
  rewrite app_nil_r, py_slice_inside by nia.
  rewrite (Z.min_l (Z.of_nat n * cs)) by nia.
  rewrite take_take_drop. f_equal. nia.
Qed.

Lemma string_of_list_ascii_length (l : list ascii) :
  String.length (string_of_list_ascii l) = length l.
Proof. induction l as [|c l IH]; cbn; [done|]. by rewrite IH. Qed.

(** X9. For a positive [chunk_size] the tuples of
    [_chunk_and_store_content] cut the content into consecutive pieces:
    their indexes are [0, 1, 2, ...], no piece is longer than
    [chunk_size], and the pieces concatenated in order give the content
    back. *)
Theorem fixed_chunks_rebuild content cs :
  0 < cs ->
  map fst (fixed_chunks content cs)
  = map Z.of_nat (seq 0 (length (fixed_chunks content cs))) /\
  Forall (fun c => Z.of_nat (String.length (snd c)) <= cs) (fixed_chunks content cs) /\
  concat (map (fun c => list_ascii_of_string (snd c)) (fixed_chunks content cs))
  = list_ascii_of_string content.
Proof.
  intros Hcs. unfold fixed_chunks.
  set (text := list_ascii_of_string content).
  set (n := Z.to_nat ((Py.len text + cs - 1) / cs)).
  pose proof (py_len_nonneg text) as Hlen.
  assert (Z.of_nat n = (Py.len text + cs - 1) / cs) as Hn
    by (subst n; apply Z2Nat.id, Z.div_pos; lia).
  assert (Py.len text <= Z.of_nat n * cs < Py.len text + cs) as Hbounds.
  { rewrite Hn. pose proof (Z.mul_div_le (Py.len text + cs - 1) cs Hcs).
    pose proof (Z.mul_succ_div_gt (Py.len text + cs - 1) cs Hcs). nia. }
  rewrite length_map, length_seq, !map_map. cbn [fst snd].
  split; [|split].
  - apply map_ext. intros k. by apply Z.div_mul; lia.
  - apply Forall_forall. intros c (k & <- & Hk%in_seq)%list_elem_of_In%in_map_iff.
    cbn [snd]. rewrite string_of_list_ascii_length.
    pose proof (py_slice_length_le text (Z.of_nat k * cs) (Z.of_nat k * cs + cs)) as Hle.
    unfold Py.len in Hle at 1. nia.
  - erewrite map_ext; [|intros k; apply list_ascii_of_string_of_list_ascii].
    rewrite fixed_windows_concat by lia. apply take_ge. unfold Py.len in *. lia.
Qed.

(** The rows [stamp_chunks] prepares carry the entry id, the index and the
    piece of each tuple, whatever id they get. *)
Lemma stamp_chunks_rows entry_id chunks :
  forall w,
    Forall2 (fun row c => forall new_id, sub_payload (row new_id) = (entry_id, fst c, snd c))
            (fst (stamp_chunks entry_id chunks w)) chunks /\
    memory_chunks (snd (stamp_chunks entry_id chunks w)) = memory_chunks w /\
    memory_chunks_seq (snd (stamp_chunks entry_id chunks w)) = memory_chunks_seq w /\
    memory_entries_seq (snd (stamp_chunks entry_id chunks w)) = memory_entries_seq w /\
    context_chunks (snd (stamp_chunks entry_id chunks w)) = context_chunks w.
Proof.
  induction chunks as [|[index chunk] rest IH]; intros w; [by repeat constructor|].
  cbn [stamp_chunks]. unfold bind, now, ret.
  specialize (IH (set_ticks w (S (ticks w)))).
  destruct (stamp_chunks entry_id rest _) as [rows w']. cbn [fst snd] in *.
  destruct IH as (Hrows & ? & ? & ? & ?). split; [|done].
  by constructor.
Qed.

Lemma insert_memory_chunks_rows rows :
  forall w,
  exists subs,
    memory_chunks (snd (insert_memory_chunks rows w)) = memory_chunks w ++ subs /\
    Forall2 (fun sub row => exists new_id, sub = row new_id) subs rows /\
    memory_entries_seq (snd (insert_memory_chunks rows w)) = memory_entries_seq w /\
    context_chunks (snd (insert_memory_chunks rows w)) = context_chunks w.
Proof.
  induction rows as [|row rest IH]; intros w.
  - exists []. cbn. rewrite app_nil_r. by repeat constructor.
  - cbn [insert_memory_chunks]. unfold bind.
    destruct (IH (set_memory_chunks w (memory_chunks w ++ [row (memory_chunks_seq w + 1)])
                                    (memory_chunks_seq w + 1)))
      as (subs & Hsubs & Hall & ? & ?).
    exists (row (memory_chunks_seq w + 1) :: subs). rewrite Hsubs. cbn.
    rewrite <- app_assoc. split; [done|]. split; [|done].
    constructor; [by eexists|done].
Qed.

Lemma chunk_and_store_rows entry_id content w :
  exists subs,
    memory_chunks (snd (_chunk_and_store_content entry_id content w))
    = memory_chunks w ++ subs /\
    map sub_payload subs
    = map (fun c => (entry_id, fst c, snd c)) (fixed_chunks content 500) /\
    memory_entries_seq (snd (_chunk_and_store_content entry_id content w))
    = memory_entries_seq w /\
    context_chunks (snd (_chunk_and_store_content entry_id content w)) = context_chunks w.
Proof.
  unfold _chunk_and_store_content, bind.
  destruct (stamp_chunks_rows entry_id (fixed_chunks content 500) w)
    as (Hrows & Hmc & _ & Hseq & Hctx).
  destruct (stamp_chunks entry_id _ w) as [rows w']. cbn [fst snd] in *.
  destruct (insert_memory_chunks_rows rows w') as (subs & Hsubs & Hall & Hseq' & Hctx').
  exists subs. rewrite Hsubs, Hmc, Hseq', Hctx', Hseq, Hctx. split; [done|]. split; [|done].
  clear Hsubs Hseq' Hctx'. revert Hrows. generalize (fixed_chunks content 500).
  induction Hall as [|sub row subs rows [new_id ->] Hall IH]; intros chunks Hrows;
    inversion Hrows as [|? c ? chunks' Hrow Hrest]; subst; [done|].
  cbn [map]. by rewrite Hrow, (IH chunks').
Qed.

Lemma add_memory_entry_eq sid c ct imp tags meta w :
  add_memory_entry sid c ct imp tags meta w
  = let w1 := if session_exists sid w then w
              else snd (create_session sid cwd (Some []) w) in
    let new_id := memory_entries_seq w1 + 1 in
    let w2 :=
      set_memory_entries (set_ticks w1 (S (S (ticks w1))))
        (memory_entries w1 ++ [{| entry_row_id := new_id;
                                  entry_session_id := sid;
                                  entry_content := c;
                                  entry_content_type := ct;
                                  entry_importance := imp;
                                  entry_created_at := clock (ticks w1);
                                  entry_updated_at := clock (S (ticks w1));
                                  entry_tags := default [] tags;
                                  entry_metadata := default [] meta |}])
        new_id in
    if 1000 <? Z.of_nat (String.length c)
    then (new_id, snd (_chunk_and_store_content new_id c w2))
    else (new_id, w2).
Proof.
  unfold add_memory_entry, bind, ret, now. cbn [fst snd].
  destruct (session_exists sid w).
  - cbn. destruct (1000 <? _); [|done]. by destruct (_chunk_and_store_content _ _ _) as [[] ?].
  - destruct (create_session sid cwd (Some []) w) as [b w1]. cbn.
    destruct (1000 <? _); [|done]. by destruct (_chunk_and_store_content _ _ _) as [[] ?].
Qed.

Lemma add_memory_entry_seq sid c ct imp tags meta w :
  fst (add_memory_entry sid c ct imp tags meta w) = memory_entries_seq w + 1 /\
  memory_entries_seq (snd (add_memory_entry sid c ct imp tags meta w))
  = memory_entries_seq w + 1.
Proof.
  rewrite add_memory_entry_eq. cbv zeta.
  assert (memory_entries_seq (if session_exists sid w then w
                              else snd (create_session sid cwd (Some []) w))
          = memory_entries_seq w) as Hseq.
  { destruct (session_exists sid w) eqn:Hex; [done|]. by rewrite create_session_eq, Hex. }
  destruct (1000 <? _); cbn [fst snd]; rewrite ?Hseq; [|done].
  destruct (chunk_and_store_rows
              (memory_entries_seq w + 1) c
              (set_memory_entries
                 (set_ticks (if session_exists sid w then w
                             else snd (create_session sid cwd (Some []) w))
                            (S (S (ticks (if session_exists sid w then w
                                          else snd (create_session sid cwd (Some []) w))))))
                 (memory_entries (if session_exists sid w then w
                                  else snd (create_session sid cwd (Some []) w)) ++
                  [{| entry_row_id := memory_entries_seq w + 1;
                      entry_session_id := sid; entry_content := c;
                      entry_content_type := ct; entry_importance := imp;
                      entry_created_at :=
                        clock (ticks (if session_exists sid w then w
                                      else snd (create_session sid cwd (Some []) w)));
                      entry_updated_at :=
                        clock (S (ticks (if session_exists sid w then w
                                         else snd (create_session sid cwd (Some []) w))));
                      entry_tags := default [] tags;
                      entry_metadata := default [] meta |}])
                 (memory_entries_seq w + 1))) as (_ & _ & _ & Hs & _).
  split; [done|]. by rewrite Hs.
Qed.
End MemoryDatabaseFacts.

(** ** Sorting a selection *)

Section SortFilterFacts.
Context {A : Type} (ge : A -> A -> bool).
Hypothesis ge_total : forall x y, ge x y = true \/ ge y x = true.
Hypothesis ge_trans : forall x y z, ge x y = true -> ge y z = true -> ge x z = true.

Lemma insert_desc_front x l :
  Forall (fun y => ge x y = true) l -> insert_desc ge x l = x :: l.
Proof. intros Hall. destruct Hall as [|y l Hy _]; [done|]. cbn. by rewrite Hy. Qed.

Lemma insert_desc_filter (p : A -> bool) x l :
  StronglySorted (fun a b => ge a b = true) l ->
  List.filter p (insert_desc ge x l)
  = if p x then insert_desc ge x (List.filter p l) else List.filter p l.
Proof.
  induction 1 as [|y l Hsorted IH Hall]; [cbn; by destruct (p x)|].
  cbn [insert_desc]. destruct (ge x y) eqn:Hxy.
  - cbn [List.filter]. destruct (p x) eqn:Hpx; [|done].
    symmetry. apply insert_desc_front.
    assert (Forall (fun z => ge x z = true) (y :: l)) as Hfront.
    { constructor; [done|]. eapply Forall_impl; [exact Hall|].
      intros z Hyz. by eapply ge_trans. }
    apply Forall_forall. intros z Hz%list_elem_of_In.
    change (if p y then y :: List.filter p l else List.filter p l)
      with (List.filter p (y :: l)) in Hz.
    apply filter_In in Hz as [Hz _]. rewrite Forall_forall in Hfront.
    by apply Hfront, list_elem_of_In.
  - cbn [List.filter]. rewrite IH.
    destruct (p x), (p y); cbn [insert_desc]; by rewrite ?Hxy.
Qed.

(** Selecting and sorting commute, because the sort is stable. *)
Lemma sort_desc_filter (p : A -> bool) l :
  sort_desc ge (List.filter p l) = List.filter p (sort_desc ge l).
Proof.
  induction l as [|x l IH]; [done|].
  cbn [sort_desc List.filter].
  rewrite insert_desc_filter by (by apply sort_desc_sorted).
  destruct (p x); cbn [sort_desc]; by rewrite IH.
Qed.
End SortFilterFacts.

Section MemoryEntriesFacts.
Context `{Runtime}.

Lemma entry_rank_ge_total r1 r2 : entry_rank_ge r1 r2 = true \/ entry_rank_ge r2 r1 = true.
Proof. apply rank_ge_total. Qed.

Lemma entry_rank_ge_trans r1 r2 r3 :
  entry_rank_ge r1 r2 = true -> entry_rank_ge r2 r3 = true -> entry_rank_ge r1 r3 = true.
Proof. apply rank_ge_trans. Qed.

Lemma StronglySorted_drop {A : Type} (R : A -> A -> Prop) (n : nat) (l : list A) :
  StronglySorted R l -> StronglySorted R (drop n l).
Proof.
  intros Hsorted. revert n. induction Hsorted as [|x l Hsorted IH Hall]; intros [|n];
    cbn; try (by constructor). apply IH.
Qed.

(** X10. [get_memory_entries] lists entries of the asked session only, in
    descending order of importance and, at equal importance, newest first;
    never more than [limit] of them when [limit >= 0]; and with no limit
    and no offset it lists every entry of the session once. *)
Theorem get_memory_entries_spec sid limit offset w :
  (forall r, In r (get_memory_entries sid limit offset w) ->
             In r (memory_entries w) /\ entry_session_id r = sid) /\
  StronglySorted ranks_before (get_memory_entries sid limit offset w) /\
  (0 <= limit -> Py.len (get_memory_entries sid limit offset w) <= limit) /\
  (limit < 0 -> offset <= 0 ->
   Permutation (get_memory_entries sid limit offset w) (entries_of sid w)).
Proof.
  unfold get_memory_entries. fold (entries_of sid w). split; [|split; [|split]].
  - intros r Hr%sql_limit_In. unfold sql_offset in Hr.
    apply list_elem_of_In, subseteq_drop, list_elem_of_In, sort_desc_In in Hr.
    apply filter_In in Hr as [Hr Hsid%String.eqb_eq]. done.
  - apply sql_limit_sorted, StronglySorted_drop.
    eapply StronglySorted_weaken;
      [|apply (sort_desc_sorted entry_rank_ge entry_rank_ge_total entry_rank_ge_trans)].
    intros r1 r2 Hge. by apply rank_ge_spec in Hge.
  - apply sql_limit_length.
  - intros Hlimit Hoffset. rewrite sql_limit_unlimited by (by left).
    unfold sql_offset. replace (Z.to_nat offset) with O by lia.
    rewrite drop_0. apply sort_desc_perm.
Qed.

(** X11. Paging: for [a, b >= 0] the first [a] entries followed by the
    page of [b] entries at offset [a] are the first [a + b] entries. *)
Theorem get_memory_entries_pages sid a b w :
  0 <= a -> 0 <= b ->
  get_memory_entries sid a 0 w ++ get_memory_entries sid b a w
  = get_memory_entries sid (a + b) 0 w.
Proof.
  intros Ha Hb. unfold get_memory_entries, sql_limit, sql_offset.
  destruct (Z.ltb_spec a 0), (Z.ltb_spec b 0), (Z.ltb_spec (a + b) 0); try lia.
  change (Z.to_nat 0) with O. rewrite drop_0, take_take_drop. f_equal. lia.
Qed.

(** X12. [search_memory] is the full listing of the session, in its order,
    narrowed to the rows that match and then cut by the limit: searching
    never reorders entries with respect to [get_memory_entries]. *)
Theorem search_memory_in_listing_order sid q ct limit w :
  search_memory sid q ct limit w
  = sql_limit limit (List.filter (search_match q ct) (get_memory_entries sid (-1) 0 w)).
Proof.
  unfold search_memory, get_memory_entries, sql_offset.
  change (Z.to_nat 0) with O. rewrite drop_0.
  rewrite (sql_limit_unlimited (-1)) by (left; lia).
  rewrite <- (sort_desc_filter entry_rank_ge entry_rank_ge_total entry_rank_ge_trans).
  do 2 f_equal.
  induction (memory_entries w) as [|r rows IH]; [done|].
  cbn [List.filter]. unfold search_match at 1.
  destruct (String.eqb (entry_session_id r) sid); cbn [andb List.filter]; [|done].
  rewrite IH. unfold search_match at 2. done.
Qed.

End MemoryEntriesFacts.

Lemma filter_drops_iff {A : Type} (p : A -> bool) (l : list A) :
  negb (length (List.filter (fun x => negb (p x)) l) =? length l)%nat = true
  <-> exists x, In x l /\ p x = true.
Proof.
  induction l as [|x l IH]; [cbn; split; [done|by intros (? & [] & _)]|].
  cbn [List.filter]. destruct (p x) eqn:Hpx; cbn [negb length].
  - split; [intros _; exists x; split; [by left|done]|intros _].
    pose proof (List.filter_length_le (fun x => negb (p x)) l) as Hle.
    apply negb_true_iff, Nat.eqb_neq. lia.
  - change (S (length (List.filter (fun x => negb (p x)) l)) =? S (length l))%nat
      with (length (List.filter (fun x => negb (p x)) l) =? length l)%nat.
    rewrite IH. split.
    + intros (y & Hy & Hpy). exists y. split; [by right|done].
    + intros (y & [->|Hy] & Hpy); [congruence|by exists y].
Qed.

Section EntryStorageFacts.
Context `{Runtime}.

(** The effect of [add_memory_entry] on the tables, in terms of the state
    before the call. *)
Lemma add_memory_entry_rows sid c ct imp tags meta w :
  let r := add_memory_entry sid c ct imp tags meta w in
  fst r = memory_entries_seq w + 1 /\
  memory_entries_seq (snd r) = memory_entries_seq w + 1 /\
  (exists row,
     memory_entries (snd r) = memory_entries w ++ [row] /\
     entry_row_id row = memory_entries_seq w + 1 /\ entry_session_id row = sid /\
     row_payload row = (c, ct, default [] tags, imp, default [] meta)) /\
  (Z.of_nat (String.length c) <= 1000 -> memory_chunks (snd r) = memory_chunks w) /\
  (1000 < Z.of_nat (String.length c) ->
   exists subs,
     memory_chunks (snd r) = memory_chunks w ++ subs /\
     map sub_payload subs
     = map (fun p => (memory_entries_seq w + 1, fst p, snd p)) (fixed_chunks c 500)) /\
  context_chunks (snd r) = context_chunks w.
Proof.
  cbv zeta. rewrite add_memory_entry_eq. cbv zeta.
  set (w1 := if session_exists sid w then w else snd (create_session sid cwd (Some []) w)).
  assert (memory_entries w1 = memory_entries w /\
          memory_entries_seq w1 = memory_entries_seq w /\
          memory_chunks w1 = memory_chunks w /\
          context_chunks w1 = context_chunks w) as (He & Hs & Hm & Hc).
  { subst w1. destruct (session_exists sid w) eqn:Hex; [done|].
    by rewrite create_session_eq, Hex. }
  rewrite He, Hs.
  set (row := {| entry_row_id := memory_entries_seq w + 1 |}).
  set (w2 := set_memory_entries _ _ _).
  assert (memory_entries w2 = memory_entries w ++ [row] /\
          memory_entries_seq w2 = memory_entries_seq w + 1 /\
          memory_chunks w2 = memory_chunks w /\
          context_chunks w2 = context_chunks w) as (He2 & Hs2 & Hm2 & Hc2) by done.
  clearbody w2 w1.
  destruct (Z.ltb_spec 1000 (Z.of_nat (String.length c))) as [Hlen|Hlen]; cbn [fst snd].
  - destruct (chunk_and_store_rows (memory_entries_seq w + 1) c w2)
      as (subs & Hsubs & Hpay & Hseq2 & Hctx2).
    pose proof (chunk_and_store_content_durable (memory_entries_seq w + 1) c w2) as Hdur.
    unfold durable in Hdur. injection Hdur as _ Hent.
    rewrite Hent, Hseq2, Hctx2, Hsubs, He2, Hs2, Hm2, Hc2.
    split; [done|]. split; [done|]. split; [by exists row|].
    split; [lia|]. split; [|done]. intros _. by exists subs.
  - rewrite He2, Hs2, Hm2, Hc2.
    split; [done|]. split; [done|]. split; [by exists row|].
    split; [done|]. split; [lia|done].
Qed.

(** X14. What [add_memory_entry] stores, on a table whose ids do not exceed
    its counter: the id returned is positive and above every id in use; one
    row with that id, the session and the arguments is appended to
    [memory_entries]; sub-chunks are written only for content longer than
    1000 characters, one row per 500-character piece, all tagged with the
    new id; and the context store is not touched. *)
Theorem add_memory_entry_stores sid c ct imp tags meta w :
  memory_ids_bounded w ->
  let r := add_memory_entry sid c ct imp tags meta w in
  0 < fst r /\
  (forall e, In e (memory_entries w) -> entry_row_id e < fst r) /\
  (exists row,
     memory_entries (snd r) = memory_entries w ++ [row] /\
     entry_row_id row = fst r /\ entry_session_id row = sid /\
     row_payload row = (c, ct, default [] tags, imp, default [] meta)) /\
  memory_ids_bounded (snd r) /\
  (Z.of_nat (String.length c) <= 1000 -> memory_chunks (snd r) = memory_chunks w) /\
  (1000 < Z.of_nat (String.length c) ->
   exists subs,
     memory_chunks (snd r) = memory_chunks w ++ subs /\
     map sub_payload subs = map (fun p => (fst r, fst p, snd p)) (fixed_chunks c 500)) /\
  context_chunks (snd r) = context_chunks w.
Proof.
  intros [Hseq Hall]. cbv zeta.
  destruct (add_memory_entry_rows sid c ct imp tags meta w)
    as (Hid & Hseq' & (row & Hentries & Hrow & Hsid & Hpay) & Hshort & Hlong & Hctx).
  rewrite Hid. split; [lia|]. split.
  { intros e He'%list_elem_of_In. rewrite Forall_forall in Hall.
    specialize (Hall e He'). lia. }
  split; [by exists row|]. split; [|done].
  split; [lia|]. rewrite Hentries, Hseq'. apply Forall_app. split.
  - eapply Forall_impl; [exact Hall|]. intros e He'. cbv beta in *. lia.
  - repeat constructor; lia.
Qed.

(** X15. [delete_session_memory] removes exactly the entries of the named
    session and answers whether there was one. Afterwards listing and
    search of that session are empty, other sessions list what they listed
    before, and a second call answers [false] and changes nothing. The
    session row and the sub-chunks of the deleted entries stay behind. *)
Theorem delete_session_memory_spec sid w :
  let r := delete_session_memory sid w in
  memory_entries (snd r)
  = List.filter (fun e => negb (String.eqb (entry_session_id e) sid)) (memory_entries w) /\
  (fst r = true <-> exists e, In e (memory_entries w) /\ entry_session_id e = sid) /\
  (forall limit offset, get_memory_entries sid limit offset (snd r) = []) /\
  (forall q ct limit, search_memory sid q ct limit (snd r) = []) /\
  (forall other limit offset, other <> sid ->
     get_memory_entries other limit offset (snd r) = get_memory_entries other limit offset w) /\
  sessions (snd r) = sessions w /\
  memory_chunks (snd r) = memory_chunks w /\
  memory_entries_seq (snd r) = memory_entries_seq w /\
  delete_session_memory sid (snd r) = (false, snd r).
Proof.
  cbv zeta. unfold delete_session_memory. cbn [fst snd set_memory_entries memory_entries
    sessions memory_chunks memory_entries_seq].
  set (kept := List.filter _ (memory_entries w)).
  split; [done|]. split; [|split; [|split; [|split]]].
  - subst kept. rewrite filter_drops_iff. split.
    + intros (e & He & Hsid%String.eqb_eq). by exists e.
    + intros (e & He & Hsid%String.eqb_eq). by exists e.
  - intros limit offset. unfold get_memory_entries. cbn [memory_entries set_memory_entries].
    subst kept. rewrite filter_filter_none.
    { cbn [sort_desc]. unfold sql_offset, sql_limit. rewrite drop_nil.
      by destruct (limit <? 0); rewrite ?take_nil. }
    intros e Hneg. by apply negb_true_iff in Hneg.
  - intros q ct limit. unfold search_memory. cbn [memory_entries set_memory_entries].
    subst kept. rewrite filter_filter_none.
    { cbn [sort_desc]. unfold sql_limit. by destruct (limit <? 0); rewrite ?take_nil. }
    intros e Hneg. apply negb_true_iff in Hneg. by rewrite Hneg.
  - intros other limit offset Hother. unfold get_memory_entries. cbn [memory_entries set_memory_entries].
    subst kept. rewrite filter_filter_all; [done|].
    intros e Heq%String.eqb_eq. apply negb_true_iff, String.eqb_neq. congruence.
  - repeat split.
    assert (List.filter (fun r => negb (String.eqb (entry_session_id r) sid)) kept = kept)
      as ->; [|by rewrite Nat.eqb_refl].
    subst kept. by apply filter_filter_all.
Qed.

(** X16. Adding an entry and deleting it by the id that was returned takes
    the entry table back to what it was; the sub-chunks written for the
    entry and the session row stay, and deleting the same id again answers
    [false] and changes nothing. *)
Theorem add_then_delete_memory_entry sid c ct imp tags meta w :
  memory_ids_bounded w ->
  let r := add_memory_entry sid c ct imp tags meta w in
  let d := delete_memory_entry (fst r) (snd r) in
  fst d = true /\
  memory_entries (snd d) = memory_entries w /\
  memory_chunks (snd d) = memory_chunks (snd r) /\
  session_exists sid (snd d) = true /\
  delete_memory_entry (fst r) (snd d) = (false, snd d).
Proof.
  intros [Hseq Hall]. cbv zeta.
  destruct (add_memory_entry_rows sid c ct imp tags meta w)
    as (Hid & Hseq' & (row & Hentries & Hrow & _) & _).
  destruct (add_memory_entry_durable sid c ct imp tags meta w) as (_ & _ & _ & _ & _ & Hex).
  destruct (add_memory_entry sid c ct imp tags meta w) as [new_id w'].
  cbn [fst snd] in *. subst new_id.
  assert (List.filter (fun r => negb (entry_row_id r =? memory_entries_seq w + 1))
                      (memory_entries w') = memory_entries w) as Hkept.
  { rewrite Hentries, List.filter_app. cbn [List.filter]. rewrite Hrow, Z.eqb_refl.
    cbn [negb]. rewrite app_nil_r. apply filter_all.
    intros e He%list_elem_of_In. rewrite Forall_forall in Hall. specialize (Hall e He).
    apply negb_true_iff, Z.eqb_neq. lia. }
  unfold delete_memory_entry. cbn [fst snd set_memory_entries memory_entries memory_chunks
    memory_entries_seq]. rewrite Hkept.
  split. { rewrite Hentries, length_app. cbn. apply negb_true_iff, Nat.eqb_neq. lia. }
  split; [done|]. split; [done|]. split; [exact Hex|].
  f_equal.
  - assert (List.filter (fun r => negb (entry_row_id r =? memory_entries_seq w + 1))
                        (memory_entries w) = memory_entries w) as ->; [|by rewrite Nat.eqb_refl].
    apply filter_all. intros e He%list_elem_of_In. rewrite Forall_forall in Hall.
    specialize (Hall e He). apply negb_true_iff, Z.eqb_neq. lia.
  - f_equal. apply filter_all. intros e He%list_elem_of_In. rewrite Forall_forall in Hall.
    specialize (Hall e He). apply negb_true_iff, Z.eqb_neq. lia.
Qed.
End EntryStorageFacts.

(** ** The façade: clearing, saving and loading *)

Lemma filter_andb_none {A : Type} (p g : A -> bool) (l : list A) :
  List.filter p l = [] -> List.filter (fun x => p x && g x) l = [].
Proof.
  intros Hnone. apply filter_none. intros x Hx.
  destruct (p x) eqn:Hp; [|done].
  assert (In x (List.filter p l)) as Hin by (by apply filter_In).
  rewrite Hnone in Hin. destruct Hin.
Qed.

Section FacadeFacts.
Context `{Runtime}.

Lemma search_by_similarity_none sid q k m w :
  List.filter (fun r => String.eqb (chunk_session_id r) sid) (context_chunks w) = [] ->
  search_by_similarity sid q k m w = [].
Proof.
  intros Hnone. unfold search_by_similarity, _keyword_search.
  pose proof (filter_andb_none _ (fun r => Text.like ("%" +:+ str_lower q +:+ "%")
                                             (Text.lower (chunk_content r))) _ Hnone) as Hkw.
  pose proof (filter_andb_none _ (fun r => match chunk_embedding r with
                                           | Some _ => true | None => false end) _ Hnone)
    as Hemb.
  cbv beta in Hkw, Hemb.
  destruct (embed_text q) as [[|x qe]|].
  - rewrite Hkw. cbn. unfold sql_limit. by destruct (k <? 0); rewrite ?take_nil.
  - rewrite Hemb. cbn [flat_map sort_desc]. unfold Py.prefix. by rewrite py_slice_nil.
  - rewrite Hkw. cbn. unfold sql_limit. by destruct (k <? 0); rewrite ?take_nil.
Qed.

Lemma search_memory_none sid q ct k w :
  entries_of sid w = [] -> search_memory sid q ct k w = [].
Proof.
  intros Hnone. unfold search_memory, entries_of in *.
  rewrite filter_andb_none; [|by apply filter_andb_none].
  cbn [sort_desc]. unfold sql_limit. by destruct (k <? 0); rewrite ?take_nil.
Qed.

Lemma clear_all_memory_eq self w :
  clear_all_memory (self, w)
  = (tt, (set_session_memory self [],
          snd (delete_session_content (session_id self)
                 (snd (delete_session_memory (session_id self) w))))).
Proof. reflexivity. Qed.

(** X17. After [clear_all_memory] the session remembers nothing: the
    buffer is empty, every search answers [[]], and the listing and the
    context of the session are empty. Entries and chunks of other sessions,
    the session rows (the session's own row among them) and the sub-chunks
    are left as they were. *)
Theorem clear_all_memory_forgets (s : EnhancedMemorySystem * World) :
  let s' := snd (clear_all_memory s) in
  fst s' = set_session_memory (fst s) [] /\
  (forall q ct k, search_session_memory q ct k s' = []) /\
  (forall limit offset, get_memory_entries (session_id (fst s)) limit offset (snd s') = []) /\
  (forall n types, context_rows_for_session (session_id (fst s)) n types (snd s') = []) /\
  (forall other, other <> session_id (fst s) ->
     entries_of other (snd s') = entries_of other (snd s) /\
     List.filter (fun r => String.eqb (chunk_session_id r) other) (context_chunks (snd s'))
     = List.filter (fun r => String.eqb (chunk_session_id r) other) (context_chunks (snd s))) /\
  sessions (snd s') = sessions (snd s) /\
  memory_chunks (snd s') = memory_chunks (snd s).
Proof.
  destruct s as [self w]. cbv zeta. rewrite clear_all_memory_eq. cbn [fst snd].
  set (sid := session_id self).
  set (w1 := snd (delete_session_memory sid w)).
  set (w2 := snd (delete_session_content sid w1)).
  assert (entries_of sid w2 = []) as Hentries.
  { unfold entries_of. subst w2 w1. cbn. apply filter_filter_none.
    intros e He. by apply negb_true_iff in He. }
  assert (List.filter (fun r => String.eqb (chunk_session_id r) sid) (context_chunks w2) = [])
    as Hchunks.
  { subst w2 w1. cbn. apply filter_filter_none.
    intros e He. by apply negb_true_iff in He. }
  split; [done|]. split; [|split; [|split; [|split]]].
  - intros q ct k. unfold search_session_memory.
    destruct (memory_enabled _); [|done]. cbn [negb session_memory set_session_memory].
    change (session_id (set_session_memory self [])) with sid.
    rewrite search_by_similarity_none, search_memory_none by done.
    cbn. unfold Py.prefix. by rewrite py_slice_nil.
  - intros limit offset. unfold get_memory_entries. fold (entries_of sid w2).
    rewrite Hentries. cbn [sort_desc]. unfold sql_offset, sql_limit. rewrite drop_nil.
    by destruct (limit <? 0); rewrite ?take_nil.
  - intros n types. unfold context_rows_for_session.
    rewrite filter_andb_none by done. cbn [sort_desc].
    unfold sql_limit. by destruct (n <? 0); rewrite ?take_nil.
  - intros other Hother. subst w2 w1. cbn. unfold entries_of. cbn. split.
    + apply filter_filter_all. intros e He%String.eqb_eq.
      apply negb_true_iff, String.eqb_neq. congruence.
    + apply filter_filter_all. intros e He%String.eqb_eq.
      apply negb_true_iff, String.eqb_neq. congruence.
  - done.
Qed.

Lemma restore_entries_disabled entries self w :
  memory_enabled self = false -> restore_entries entries (self, w) = (tt, (self, w)).
Proof.
  intros Hoff. induction entries as [|entry rest IH]; [done|].
  cbn [restore_entries]. unfold bind. by rewrite add_to_session_memory_disabled.
Qed.

(** X18. [load_session_memory] for a name no saved session matches answers
    [False] and changes nothing: neither the buffer nor the stores are
    cleared. *)
Theorem load_session_memory_missing name (s : EnhancedMemorySystem * World) :
  (forall r, In r (sessions (snd s)) ->
             Text.like (snapshot_pattern name) (sess_session_id r) = false) ->
  load_session_memory name s = (false, s).
Proof.
  intros Hmissing. destruct s as [self w]. cbn [snd] in Hmissing.
  unfold load_session_memory, bind, storage. cbn [fst snd].
  unfold latest_session_like. by rewrite filter_none.
Qed.

(** X19. With memory switched off, [load_session_memory] of an existing
    snapshot still answers [True], but it only clears: the session's
    buffer and its stored entries are gone and nothing is restored. *)
Theorem load_session_memory_disabled name self w backup :
  memory_enabled self = false ->
  latest_session_like (snapshot_pattern name) w = Some backup ->
  let r := load_session_memory name (self, w) in
  fst r = true /\
  snd r = snd (clear_all_memory (self, w)) /\
  session_memory (fst (snd r)) = [] /\
  entries_of (session_id self) (snd (snd r)) = [].
Proof.
  intros Hoff Hfound. cbv zeta.
  assert (load_session_memory name (self, w) = (true, snd (clear_all_memory (self, w))))
    as ->.
  { unfold load_session_memory, bind, storage. cbn [fst snd]. rewrite Hfound.
    rewrite clear_all_memory_eq. cbn [fst snd].
    by rewrite restore_entries_disabled. }
  cbn [fst snd]. split; [done|]. split; [done|].
  rewrite clear_all_memory_eq. cbn [fst snd]. split; [done|].
  unfold entries_of. cbn. apply filter_filter_none.
  intros e He. by apply negb_true_iff in He.
Qed.

Lemma copy_entries_context backup entries :
  forall w, context_chunks (snd (copy_entries backup entries w)) = context_chunks w.
Proof.
  induction entries as [|entry rest IH]; intros w; [done|].
  cbn [copy_entries]. unfold bind.
  destruct (add_memory_entry_rows backup (entry_content entry)
              (entry_content_type entry) (entry_importance entry)
              (Some (entry_tags entry)) (Some (entry_metadata entry)) w)
    as (_ & _ & _ & _ & _ & Hctx).
  destruct (add_memory_entry _ _ _ _ _ _ w) as [new_id w1]. cbn [snd] in *.
  by rewrite IH.
Qed.

(** X20. [save_session_memory] always answers [True] and leaves the object
    as it is. It makes sure the snapshot session exists and appends to the
    entry table one copy per listed entry of the current session — the
    first 10000 in ranking order, in that order — each under the snapshot
    id and with the content, type, tags, importance and metadata of its
    original. The entries already stored and the context store are not
    touched. *)
Theorem save_session_memory_copies name self w :
  exists copies w',
    save_session_memory name (self, w) = (true, (self, w')) /\
    session_exists (snapshot_id name (clock (ticks w))) w' = true /\
    memory_entries w' = memory_entries w ++ copies /\
    map row_payload copies
    = map row_payload (get_memory_entries (session_id self) 10000 0 w) /\
    Forall (fun r => entry_session_id r = snapshot_id name (clock (ticks w))) copies /\
    Py.len copies <= 10000 /\
    context_chunks w' = context_chunks w.
Proof.
  set (backup := snapshot_id name (clock (ticks w))).
  unfold save_session_memory, bind, storage, self_, now, ret. cbn [fst snd].
  fold backup.
  set (w1 := snd (create_session backup (project_path self) None
                    (set_ticks w (S (ticks w))))).
  assert (session_exists backup w1 = true /\ memory_entries w1 = memory_entries w /\
          context_chunks w1 = context_chunks w) as (Hexists & Hentries1 & Hctx1).
  { subst w1. rewrite create_session_eq.
    destruct (session_exists backup (set_ticks w (S (ticks w)))) eqn:Hex; [done|].
    cbn. split; [|done]. unfold session_exists. cbn. rewrite existsb_app. cbn.
    by rewrite String.eqb_refl, orb_true_r. }
  destruct (create_session backup (project_path self) None (set_ticks w (S (ticks w))))
    as [created w1'] eqn:Hcreate. cbn [snd] in w1. subst w1. cbn [fst snd].
  assert (get_memory_entries (session_id self) 10000 0 w1'
          = get_memory_entries (session_id self) 10000 0 w) as ->
    by (unfold get_memory_entries; by rewrite Hentries1).
  set (listed := get_memory_entries (session_id self) 10000 0 w).
  destruct (copy_entries_durable backup listed w1' Hexists)
    as (copies & Hentries & Hpayloads & Hsids & Hsessions).
  pose proof (copy_entries_context backup listed w1') as Hctx.
  destruct (copy_entries backup listed w1') as [[] w2]. cbn [snd] in *.
  exists copies, w2. split; [done|].
  split. { unfold session_exists in *. by rewrite Hsessions. }
  split; [by rewrite Hentries, Hentries1|]. split; [done|]. split; [done|].
  split; [|by rewrite Hctx].
  assert (length copies = length listed) as Hlen
    by (by rewrite <- (length_map row_payload copies), Hpayloads, length_map).
  unfold Py.len. rewrite Hlen.
  subst listed. unfold get_memory_entries. by apply sql_limit_length.
Qed.
End FacadeFacts.

(** ** The façade: opening a session and remembering *)

Section RememberFacts.
Context `{Runtime}.

Lemma add_chunks_entries_seq sid ct imp tags meta chunks :
  forall ids w,
    memory_entries_seq (snd (add_chunks sid ct imp tags meta chunks ids w))
    = memory_entries_seq w.
Proof.
  induction chunks as [|chunk rest IH]; intros ids w; [done|].
  rewrite add_chunks_cons. cbv zeta. unfold insert_context_chunk.
  destruct (existsb _ _); by rewrite IH.
Qed.

(** X21. [__init__] takes the given session id, or makes one from the
    clock when none (or an empty one) is given, and the given project path
    or the working directory. The session then has its row; the buffer is
    empty with capacity 100. Opening a session that is already stored
    keeps its row, and no stored entry or chunk is touched: what the
    session held before is still there. *)
Theorem init_contract sid path enabled w :
  let r := __init__ sid path enabled w in
  session_id (fst r)
  = match sid with
    | Some (String _ _ as given) => given
    | _ => "session_" +:+ strftime_stamp (clock (ticks w))
    end /\
  project_path (fst r) = default cwd path /\
  memory_enabled (fst r) = enabled /\
  session_memory (fst r) = [] /\
  session_memory_limit (fst r) = 100 /\
  session_exists (session_id (fst r)) (snd r) = true /\
  (session_exists (session_id (fst r)) w = true -> sessions (snd r) = sessions w) /\
  memory_entries (snd r) = memory_entries w /\
  context_chunks (snd r) = context_chunks w.
Proof.
  cbv zeta. unfold __init__, bind, ret, now.
  destruct sid as [[|a sid']|]; rewrite create_session_eq;
    (match goal with
     | |- context [if session_exists ?a ?b then _ else _] =>
         destruct (session_exists a b) eqn:Hex
     end;
     unfold session_exists in *; cbn in *;
     [by destruct path|]);
    rewrite !existsb_app; cbn [existsb]; rewrite String.eqb_refl; cbn [orb];
    rewrite orb_true_r, Hex; by destruct path.
Qed.

(** X22. An enabled [add_to_session_memory] on a buffer of positive
    capacity, over an entry table whose ids do not exceed its counter:
    the answer is the positive id of the row just stored for the session,
    never the [-1] of the disabled case; the entry stands at the front of
    the buffer carrying that id, with the older entries behind it cut to
    the capacity; and the table still has its ids below the counter. *)
Theorem add_to_session_memory_records c ct tags imp meta self w :
  memory_enabled self = true ->
  0 < session_memory_limit self ->
  memory_ids_bounded w ->
  let r := add_to_session_memory c ct tags imp meta (self, w) in
  0 < fst r /\
  (exists row,
     memory_entries (snd (snd r)) = memory_entries w ++ [row] /\
     entry_row_id row = fst r /\ entry_session_id row = session_id self /\
     row_payload row = (c, ct, default [] tags, imp, default [] meta)) /\
  (exists e,
     session_memory (fst (snd r))
     = e :: take (Z.to_nat (session_memory_limit self - 1)) (session_memory self) /\
     entry_id e = Some (fst r) /\
     entry_payload e = (c, ct, default [] tags, imp, default [] meta)) /\
  memory_ids_bounded (snd (snd r)).
Proof.
  intros Hon Hlimit [Hseq Hall]. cbv zeta.
  rewrite add_to_session_memory_enabled by done. cbv zeta. cbn [fst snd].
  destruct (add_memory_entry_rows (session_id self) c ct imp tags meta
              (set_ticks w (S (ticks w))))
    as (Hid & Hseq' & (row & Hentries & Hrow & Hsid & Hpay) & _).
  change (memory_entries_seq (set_ticks w (S (ticks w)))) with (memory_entries_seq w) in *.
  change (memory_entries (set_ticks w (S (ticks w)))) with (memory_entries w) in *.
  destruct (add_memory_entry _ _ _ _ _ _ (set_ticks w (S (ticks w)))) as [new_id w1].
  cbn [fst snd] in *. subst new_id.
  pose proof (add_content_durable (session_id self) c ct imp tags meta w1) as Hdur.
  unfold durable in Hdur. injection Hdur as _ Hsame.
  assert (memory_entries_seq (snd (add_content (session_id self) c ct imp tags meta w1))
          = memory_entries_seq w1) as Hseq2 by apply add_chunks_entries_seq.
  split; [lia|]. split; [exists row; by rewrite Hsame|]. split.
  - set (entry := {| content := c; entry_id := None |}).
    assert ((if session_memory_limit self <? Py.len (entry :: session_memory self)
             then Py.prefix (entry :: session_memory self) (session_memory_limit self)
             else entry :: session_memory self)
            = entry :: take (Z.to_nat (session_memory_limit self - 1)) (session_memory self))
      as ->.
    { destruct (Z.ltb_spec (session_memory_limit self)
                           (Py.len (entry :: session_memory self))) as [Hcut|Hfits].
      - rewrite py_prefix_take by lia.
        replace (Z.to_nat (session_memory_limit self))
          with (S (Z.to_nat (session_memory_limit self - 1))) by lia.
        done.
      - f_equal. symmetry. apply take_ge. unfold Py.len in Hfits. cbn [length] in Hfits. lia. }
    cbn [assign_entry_id session_memory set_session_memory]. by eexists.
  - split; [rewrite Hseq2; lia|]. rewrite Hsame, Hseq2, Hentries, Hseq'.
    apply Forall_app. split.
    + eapply Forall_impl; [exact Hall|]. intros e He. cbv beta in *. lia.
    + repeat constructor; lia.
Qed.
End RememberFacts.

(** ** Names of saved sessions *)

Section SessionNameFacts.
Context `{Runtime}.

Lemma prefix_cons (a b : ascii) (s t : string) :
  String.prefix (String a s) (String b t) = if ascii_dec a b then String.prefix s t else false.
Proof. reflexivity. Qed.

Lemma contains_cons_false (sep c : ascii) (s : string) :
  Text.contains (String sep EmptyString) (String c s) = false ->
  Ascii.eqb c sep = false /\ Text.contains (String sep EmptyString) s = false.
Proof.
  cbn [Text.contains]. rewrite prefix_cons. intros [Hp Hc]%orb_false_elim.
  split; [|done]. destruct (ascii_dec sep c) as [->|Hne]; [by destruct s|].
  apply Ascii.eqb_neq. congruence.
Qed.

Lemma prefix_append (p rest : string) : String.prefix p (p +:+ rest) = true.
Proof.
  induction p as [|c p IH]; [by destruct rest|].
  rewrite append_cons, prefix_cons. by destruct (ascii_dec c c).
Qed.

(** [split] cuts at the first separator when it may still cut. *)
Lemma split_first (sep : ascii) (m : nat) (s rest : string) :
  Text.contains (String sep EmptyString) s = false ->
  Text.split sep (S m) (s +:+ String sep rest) = s :: Text.split sep m rest.
Proof.
  induction s as [|c s IH]; intros Hnone.
  - change (EmptyString +:+ String sep rest) with (String sep rest).
    cbn [Text.split]. by rewrite Ascii.eqb_refl.
  - apply contains_cons_false in Hnone as [Hc Hnone].
    rewrite append_cons. cbn [Text.split]. rewrite Hc, IH by done. done.
Qed.

Lemma split_nonempty (sep : ascii) (m : nat) (s : string) : Text.split sep m s <> [].
Proof.
  revert m. induction s as [|c s IH]; intros m; [done|].
  cbn [Text.split]. destruct (Ascii.eqb c sep), m; try done;
    by destruct (Text.split sep _ s).
Qed.

(** The id of a snapshot whose name has no underscore splits into
    [saved], the name and the timestamp. *)
Lemma snapshot_id_split name stamp :
  Text.contains "_" name = false ->
  exists rest, Text.split "_" 2 (snapshot_id name stamp) = "saved"%string :: name :: rest.
Proof.
  intros Hplain. unfold snapshot_id.
  change ("saved_" +:+ name +:+ "_" +:+ strftime_stamp stamp)
    with ("saved" +:+ String "_" (name +:+ String "_" (strftime_stamp stamp))).
  rewrite split_first by done. rewrite split_first by done. by eexists.
Qed.

(** The name [collect_session_names] reads off a session id, if any. *)
Lemma collect_session_names_spec results :
  forall seen names,
    NoDup names -> (forall n, n ∈ seen <-> In n names) ->
    NoDup (collect_session_names results seen names) /\
    (forall n, In n names -> In n (collect_session_names results seen names)) /\
    (forall id a n rest, In id results -> String.prefix "saved_" id = true ->
       Text.split "_" 2 id = a :: n :: rest ->
       In n (collect_session_names results seen names)) /\
    (forall n, In n (collect_session_names results seen names) ->
       In n names \/
       exists id a rest, In id results /\ String.prefix "saved_" id = true /\
                         Text.split "_" 2 id = a :: n :: rest).
Proof.
  induction results as [|id results IH]; intros seen names Hnodup Hseen.
  - cbn. split; [done|]. split; [done|]. split; [by intros|]. by left.
  - cbn [collect_session_names].
    destruct (String.prefix "saved_" id) eqn:Hprefix; cycle 1.
    { destruct (IH seen names Hnodup Hseen) as (Hnd & Hkeep & Hfound & Horigin).
      split; [done|]. split; [done|]. split.
      - intros id' a n rest [<-|Hin] Hp Hs; [congruence|]. by eapply Hfound.
      - intros n Hn. destruct (Horigin n Hn) as [?|(id' & a & rest & ? & ? & ?)];
          [by left|right]. exists id', a, rest. split; [by right|done]. }
    destruct (Text.split "_" 2 id) as [|a [|name rest]] eqn:Hsplit.
    1,2: destruct (IH seen names Hnodup Hseen) as (Hnd & Hkeep & Hfound & Horigin);
      (split; [done|]); (split; [done|]); split;
      [intros id' a' n rest' [<-|Hin] Hp Hs; [congruence|by eapply Hfound]
      |intros n Hn; destruct (Horigin n Hn) as [?|(id' & a' & rest' & ? & ? & ?)];
         [by left|right]; exists id', a', rest'; split; [by right|done]].
    destruct (decide (name ∈ seen)) as [Hin|Hnew].
    + destruct (IH seen names Hnodup Hseen) as (Hnd & Hkeep & Hfound & Horigin).
      split; [done|]. split; [done|]. split.
      * intros id' a' n rest' [<-|Hin'] Hp Hs; [|by eapply Hfound].
        rewrite Hsplit in Hs. injection Hs as _ <- _. by apply Hkeep, Hseen.
      * intros n Hn. destruct (Horigin n Hn) as [?|(id' & a' & rest' & ? & ? & ?)];
          [by left|right]. exists id', a', rest'. split; [by right|done].
    + destruct (IH ({[name]} ∪ seen) (names ++ [name])) as (Hnd & Hkeep & Hfound & Horigin).
      { apply NoDup_app. split; [done|]. split; [|apply NoDup_singleton].
        intros n Hn ->%list_elem_of_singleton. by apply Hnew, Hseen, list_elem_of_In. }
      { intros n. rewrite elem_of_union, elem_of_singleton, in_app_iff, Hseen. cbn.
        split; [intros [->|?]; auto|intros [?|[<-|[]]]; auto]. }
      split; [done|]. split; [intros n Hn; apply Hkeep, in_app_iff; by left|]. split.
      * intros id' a' n rest' [<-|Hin'] Hp Hs; [|by eapply Hfound].
        rewrite Hsplit in Hs. injection Hs as _ <- _.
        apply Hkeep, in_app_iff. right. by left.
      * intros n Hn. destruct (Horigin n Hn) as [Hn'|(id' & a' & rest' & ? & ? & ?)].
        -- apply in_app_iff in Hn' as [?|[<-|[]]]; [by left|right].
           exists id, a, rest. split; [by left|done].
        -- right. exists id', a', rest'. split; [by right|done].
Qed.

(** X23. [get_available_sessions] lists no name twice. A snapshot whose
    name has no underscore is listed under that name; and every name
    listed is the part between the first and the second underscore of the
    id of some stored session that starts with [saved_]. *)
Theorem get_available_sessions_names (s : EnhancedMemorySystem * World) :
  NoDup (get_available_sessions s) /\
  (forall name stamp,
     Text.contains "_" name = false ->
     In (snapshot_id name stamp) (map sess_session_id (sessions (snd s))) ->
     In name (get_available_sessions s)) /\
  (forall n, In n (get_available_sessions s) ->
     exists id a rest,
       In id (map sess_session_id (sessions (snd s))) /\
       String.prefix "saved_" id = true /\
       Text.split "_" 2 id = a :: n :: rest).
Proof.
  unfold get_available_sessions.
  destruct (collect_session_names_spec (saved_session_ids (snd s)) ∅ [])
    as (Hnd & _ & Hfound & Horigin); [constructor|by intros n; rewrite elem_of_empty|].
  split; [done|]. split.
  - intros name stamp Hplain (r & Hid & Hr)%in_map_iff.
    destruct (snapshot_id_split name stamp Hplain) as [rest Hsplit].
    eapply (Hfound (snapshot_id name stamp)); [|apply prefix_append|exact Hsplit].
    unfold saved_session_ids. apply in_map_iff. exists r. split; [done|].
    apply sort_desc_In, filter_In. split; [done|]. rewrite Hid.
    unfold snapshot_id. apply (like_prefix "saved_").
  - intros n Hn. destruct (Horigin n Hn) as [[]|(id & a & rest & Hid & Hp & Hs)].
    exists id, a, rest. split; [|done].
    unfold saved_session_ids in Hid. apply in_map_iff in Hid as (r & <- & Hr).
    apply sort_desc_In, filter_In in Hr as [Hr _]. apply in_map_iff. by exists r.
Qed.
End SessionNameFacts.

(** ** The properties above at concrete states *)

(** X9 on an eight-character content cut in pieces of three. *)
Lemma fixed_chunks_rebuild_witness :
  0 < 3 /\
  map snd (fixed_chunks "abcdefgh" 3) = ["abc"; "def"; "gh"]%string /\
  concat (map (fun c => list_ascii_of_string (snd c)) (fixed_chunks "abcdefgh" 3))
  = list_ascii_of_string "abcdefgh".
Proof.
  assert (0 < 3) as Hcs by lia.
  split; [exact Hcs|]. split; [by vm_compute|].
  destruct (fixed_chunks_rebuild "abcdefgh" 3 Hcs) as (_ & _ & Hcat). exact Hcat.
Defined.

(** X11 on the session with two notes: two pages of one entry. *)
Lemma get_memory_entries_pages_witness :
  0 <= 1 /\ 0 <= 1 /\
  get_memory_entries "demo" 1 0 (snd example_resaved)
    ++ get_memory_entries "demo" 1 1 (snd example_resaved)
  = get_memory_entries "demo" (1 + 1) 0 (snd example_resaved).
Proof.
  assert (0 <= 1) as Hpage by lia.
  split; [exact Hpage|]. split; [exact Hpage|].
  exact (get_memory_entries_pages "demo" 1 1 (snd example_resaved) Hpage Hpage).
Defined.


(** X14 on the store of the session with one note. *)
Lemma add_memory_entry_stores_witness :
  memory_ids_bounded (snd example_one_note) /\
  0 < fst (add_memory_entry (H := example_runtime) "demo" "call mum" "text" 1%Q None None
             (snd example_one_note)) /\
  memory_ids_bounded
    (snd (add_memory_entry (H := example_runtime) "demo" "call mum" "text" 1%Q None None
            (snd example_one_note))).
Proof.
  assert (memory_ids_bounded (snd example_one_note)) as Hbound.
  { unfold memory_ids_bounded. vm_compute. repeat (constructor || discriminate). }
  split; [exact Hbound|].
  destruct (add_memory_entry_stores (H := example_runtime) "demo" "call mum" "text" 1%Q
              None None (snd example_one_note) Hbound) as (Hpos & _ & _ & Hbound' & _).
  split; [exact Hpos|exact Hbound'].
Defined.

(** X16 on the store of the session with one note. *)
Lemma add_then_delete_memory_entry_witness :
  memory_ids_bounded (snd example_one_note) /\
  memory_entries
    (snd (delete_memory_entry
            (fst (add_memory_entry (H := example_runtime) "demo" "call mum" "text" 1%Q
                    None None (snd example_one_note)))
            (snd (add_memory_entry (H := example_runtime) "demo" "call mum" "text" 1%Q
                    None None (snd example_one_note)))))
  = memory_entries (snd example_one_note).
Proof.
  assert (memory_ids_bounded (snd example_one_note)) as Hbound.
  { unfold memory_ids_bounded. vm_compute. repeat (constructor || discriminate). }
  split; [exact Hbound|].
  destruct (add_then_delete_memory_entry (H := example_runtime) "demo" "call mum" "text" 1%Q
              None None (snd example_one_note) Hbound) as (_ & Hback & _).
  exact Hback.
Defined.

(** X18 on the session with one note and no snapshot. *)
Lemma load_session_memory_missing_witness :
  (forall r, In r (sessions (snd example_one_note)) ->
             Text.like (snapshot_pattern "nothing") (sess_session_id r) = false) /\
  load_session_memory (H := example_runtime) "nothing" example_one_note
  = (false, example_one_note).
Proof.
  assert (forall r, In r (sessions (snd example_one_note)) ->
                    Text.like (snapshot_pattern "nothing") (sess_session_id r) = false)
    as Hmissing.
  { intros r Hr. vm_compute in Hr. destruct Hr as [<-|[]]. by vm_compute. }
  split; [exact Hmissing|].
  exact (load_session_memory_missing (H := example_runtime) "nothing" example_one_note
           Hmissing).
Defined.

(** X19 on the session saved as [x], with memory switched off since. *)
Lemma load_session_memory_disabled_witness :
  memory_enabled (set_enabled (fst example_resaved) false) = false /\
  latest_session_like (snapshot_pattern "x") (snd example_resaved)
  = Some "saved_x_20240101_000000_000007"%string /\
  fst (load_session_memory (H := example_runtime) "x"
         (set_enabled (fst example_resaved) false, snd example_resaved)) = true /\
  entries_of "demo"
    (snd (snd (load_session_memory (H := example_runtime) "x"
                 (set_enabled (fst example_resaved) false, snd example_resaved)))) = [].
Proof.
  assert (memory_enabled (set_enabled (fst example_resaved) false) = false) as Hoff
    by reflexivity.
  assert (latest_session_like (snapshot_pattern "x") (snd example_resaved)
          = Some "saved_x_20240101_000000_000007"%string) as Hfound by (by vm_compute).
  split; [exact Hoff|]. split; [exact Hfound|].
  destruct (load_session_memory_disabled (H := example_runtime) "x"
              (set_enabled (fst example_resaved) false) (snd example_resaved)
              "saved_x_20240101_000000_000007" Hoff Hfound) as (Htrue & _ & _ & Hempty).
  split; [exact Htrue|exact Hempty].
Defined.

(** X22 on the session with one note. *)
Lemma add_to_session_memory_records_witness :
  memory_enabled (fst example_one_note) = true /\
  0 < session_memory_limit (fst example_one_note) /\
  memory_ids_bounded (snd example_one_note) /\
  0 < fst (add_to_session_memory (H := example_runtime) "call mum" "text" None 1%Q None
             (fst example_one_note, snd example_one_note)).
Proof.
  assert (memory_enabled (fst example_one_note) = true) as Hon by (by vm_compute).
  assert (0 < session_memory_limit (fst example_one_note)) as Hlimit by (by vm_compute).
  assert (memory_ids_bounded (snd example_one_note)) as Hbound.
  { unfold memory_ids_bounded. vm_compute. repeat (constructor || discriminate). }
  split; [exact Hon|]. split; [exact Hlimit|]. split; [exact Hbound|].
  destruct (add_to_session_memory_records (H := example_runtime) "call mum" "text" None 1%Q
              None (fst example_one_note) (snd example_one_note) Hon Hlimit Hbound)
    as (Hpos & _).
  exact Hpos.
Defined.

(** ** Remember, then recall *)

Section RecallFacts.
Context `{Runtime}.

(** X24. What was just remembered is recalled: after an enabled
    [add_to_session_memory] on a buffer of positive capacity, a search
    with a query whose lower-cased form occurs in the lower-cased content
    ([query.lower() in content.lower()], both by Python) that returns
    fewer than [max_results] entries returns one with the digest of that
    content.  Containment of the query in the content as written is not
    enough: Python lowers a capital sigma by its position, so [Σ] lowers
    to [σ] while the content [ΑΣ] lowers to [ας]. *)
Theorem remembered_is_recalled c ct tags imp meta q ct' k self w :
  memory_enabled self = true ->
  0 < session_memory_limit self ->
  Text.contains (str_lower q) (str_lower c) = true ->
  Py.len (search_session_memory q ct' k
            (snd (add_to_session_memory c ct tags imp meta (self, w)))) < k ->
  exists e,
    In e (search_session_memory q ct' k
            (snd (add_to_session_memory c ct tags imp meta (self, w)))) /\
    digest e = md5_hexdigest c.
Proof.
  intros Hon Hlimit Hsub Hroom.
  destruct (add_to_session_memory_buffer c ct tags imp meta self w Hon)
    as (Hon' & _ & Hbuf); [lia|].
  destruct (add_to_session_memory c ct tags imp meta (self, w)) as [id [self' w']].
  cbn [fst snd] in *.
  replace (Z.to_nat (session_memory_limit self))
    with (S (Z.to_nat (session_memory_limit self - 1))) in Hbuf by lia.
  cbn [firstn] in Hbuf.
  destruct (session_memory self') as [|e0 rest] eqn:Hmem; [done|].
  cbn [map] in Hbuf. injection Hbuf as Hc _ _ _ _ _.
  unfold search_session_memory in *. rewrite Hon', Hmem in *. cbn [negb] in *.
  match type of Hroom with
  | context [unique_by_hash ?a ∅ []] => set (all := a) in *
  end.
  assert (In e0 all) as Hin.
  { subst all. apply in_app_iff. right. apply in_app_iff. left.
    apply filter_In. split; [by left|]. by rewrite Hc. }
  destruct (unique_by_hash_first_wins all) as (_ & _ & Hcov & _).
  apply Hcov, in_map_iff in Hin as (e & Hdig & He).
  exists e. split; [|rewrite Hdig; unfold digest; by rewrite Hc].
  set (ranked := sort_desc memory_rank_ge (unique_by_hash all ∅ [])) in *.
  assert (In e ranked) as Hranked by (by apply sort_desc_In).
  destruct (Z.le_gt_cases 0 k) as [Hk|Hk].
  - rewrite py_prefix_take in * by done.
    rewrite take_ge; [done|]. unfold Py.len in Hroom. rewrite length_take in Hroom. lia.
  - pose proof (py_len_nonneg (Py.prefix ranked k)). lia.
Qed.

(** X25. The rows [get_context_for_session] renders: chunks of the asked
    session only, of one of the asked types when types are given, in
    descending order of importance and newest first at equal importance,
    and no more than [max_chunks] of them. An empty list of types filters
    nothing, like no list at all. *)
Theorem context_rows_for_session_spec sid n types w :
  (forall r, In r (context_rows_for_session sid n types w) ->
     In r (context_chunks w) /\ chunk_session_id r = sid /\
     (forall t ts, types = Some (t :: ts) -> In (chunk_content_type r) (t :: ts))) /\
  StronglySorted
    (fun r1 r2 => (chunk_importance r2 < chunk_importance r1)%Q \/
                  (chunk_importance r1 == chunk_importance r2)%Q /\
                  dt_leb (chunk_created_at r2) (chunk_created_at r1) = true)
    (context_rows_for_session sid n types w) /\
  (0 <= n -> Py.len (context_rows_for_session sid n types w) <= n) /\
  context_rows_for_session sid n (Some []) w = context_rows_for_session sid n None w.
Proof.
  unfold context_rows_for_session. split; [|split; [|split; [|done]]].
  - intros r Hr%sql_limit_In%sort_desc_In%filter_In. destruct Hr as [Hr Hsel].
    apply andb_prop in Hsel as [Hsid%String.eqb_eq Htype].
    split; [done|]. split; [done|]. intros t ts ->.
    apply existsb_exists in Htype as (t' & Ht' & Heq%String.eqb_eq). rewrite Heq. exact Ht'.
  - apply sql_limit_sorted.
    eapply StronglySorted_weaken; [|apply sort_desc_sorted].
    + intros r1 r2 Hge. by apply rank_ge_spec in Hge.
    + intros r1 r2. apply rank_ge_total.
    + intros r1 r2 r3. apply rank_ge_trans.
  - apply sql_limit_length.
Qed.
End RecallFacts.

(** X24 on the session with one note, after a second one. *)
Lemma remembered_is_recalled_witness :
  memory_enabled (fst example_one_note) = true /\
  0 < session_memory_limit (fst example_one_note) /\
  Text.contains (str_lower (Runtime := example_runtime) "MUM")
                (str_lower (Runtime := example_runtime) "call mum") = true /\
  Py.len (search_session_memory (H := example_runtime) "MUM" None 10
            (snd (add_to_session_memory (H := example_runtime) "call mum" "text" None 1%Q
                    None (fst example_one_note, snd example_one_note)))) < 10 /\
  exists e,
    In e (search_session_memory (H := example_runtime) "MUM" None 10
            (snd (add_to_session_memory (H := example_runtime) "call mum" "text" None 1%Q
                    None (fst example_one_note, snd example_one_note)))) /\
    digest (H := example_runtime) e = "call mum"%string.
Proof.
  assert (memory_enabled (fst example_one_note) = true) as Hon by (by vm_compute).
  assert (0 < session_memory_limit (fst example_one_note)) as Hlimit by (by vm_compute).
  assert (Text.contains (str_lower (Runtime := example_runtime) "MUM")
                        (str_lower (Runtime := example_runtime) "call mum") = true) as Hsub
    by (by vm_compute).
  assert (Py.len (search_session_memory (H := example_runtime) "MUM" None 10
            (snd (add_to_session_memory (H := example_runtime) "call mum" "text" None 1%Q
                    None (fst example_one_note, snd example_one_note)))) < 10) as Hroom
    by (by vm_compute).
  split; [exact Hon|]. split; [exact Hlimit|]. split; [exact Hsub|]. split; [exact Hroom|].
  exact (remembered_is_recalled (H := example_runtime) "call mum" "text" None 1%Q None
           "MUM" None 10 (fst example_one_note) (snd example_one_note)
           Hon Hlimit Hsub Hroom).
Defined.

(** ** The round trip under a clock that was set back *)

(** C4 as stated, at a session whose clock was set back between two saves
    of one name.  The session holds two notes, it has its row, every entry
    has its session, the snapshot id about to be made is new, and both
    calls answer [True]; yet the load takes the snapshot saved before the
    clock went back, whose [created_at] is the greater one, and the
    session ends up with one note, not the two it held. *)
Theorem round_trip_takes_older_snapshot_after_set_back :
  let s := example_before_set_back in
  let saved := save_session_memory (H := set_back_runtime) "x" s in
  let cleared := clear_all_memory (snd saved) in
  let loaded := load_session_memory (H := set_back_runtime) "x" (snd cleared) in
  memory_enabled (fst s) = true /\
  map entry_content (entries_of "demo" (snd s)) = ["buy milk"; "call mum"]%string /\
  session_exists "demo" (snd s) = true /\
  entries_have_sessions (snd s) /\
  session_exists (snapshot_id "x" (clock (Runtime := set_back_runtime) (ticks (snd s))))
                 (snd s) = false /\
  fst saved = true /\
  fst loaded = true /\
  map sess_session_id (sessions (snd (snd saved)))
  = ["demo"; "saved_x_20241027_025959_000007"; "saved_x_20241027_020000_000017"]%string /\
  latest_session_like (snapshot_pattern "x") (snd (snd cleared))
  = Some "saved_x_20241027_025959_000007"%string /\
  map entry_content (entries_of "demo" (snd (snd loaded))) = ["buy milk"%string] /\
  length (entries_of "demo" (snd (snd loaded))) <> length (entries_of "demo" (snd s)).
Proof.
  cbv zeta. split; [by vm_compute|]. split; [by vm_compute|]. split; [by vm_compute|].
  split; [unfold entries_have_sessions; vm_compute; repeat constructor|].
  repeat (split; [by vm_compute|]). by vm_compute.
Qed.

(** ** The fallback similarity *)

Section SimilarityFacts.
Local Open Scope float_scope.






End SimilarityFacts.
